(** * snix-backend: wallet aggregation services

    A shallow embedding of the wallet code of the backend:

    - [services/walletService.ts]: the rate limited dispatcher
      ([rateLimitedRequest]), the address classifier ([detectBlockchain]),
      the two chain adapters and [getWalletData];
    - [wallet/walletUtils.ts], [wallet/ethereumService.ts],
      [wallet/solanaService.ts] and the [getWalletData] of the wallet
      directory.

    JavaScript strings are modelled by [string] (code units below 256),
    JavaScript numbers by the binary64 instance of [spec_float], and the
    asynchronous code by a state and exception monad over a world that holds
    the clock, the dispatcher's [lastRequestTime] and the list of outbound
    calls made so far. *)

From Stdlib Require Import ZArith List String Ascii Bool Lia PeanoNat.
From Stdlib Require Import SpecFloat.
Import ListNotations.

Set Implicit Arguments.

Local Open Scope string_scope.

(* ================================================================= *)
(** ** JavaScript strings and regular expressions *)

Module JSString.

Definition code (c : ascii) : nat := nat_of_ascii c.

Definition in_range (lo hi c : ascii) : bool :=
  (code lo <=? code c)%nat && (code c <=? code hi)%nat.

(** [String.prototype.toLowerCase] on code units below 256: the ASCII
    capitals and the Latin-1 capitals (all of 0xC0..0xDE but the
    multiplication sign 0xD7) move up by 32. *)
Definition lower_char (c : ascii) : ascii :=
  let n := code c in
  if ((65 <=? n) && (n <=? 90))%nat then ascii_of_nat (n + 32)
  else if ((192 <=? n) && (n <=? 222) && negb (n =? 215))%nat
       then ascii_of_nat (n + 32)
  else c.

Fixpoint toLowerCase (s : string) : string :=
  match s with
  | EmptyString => EmptyString
  | String c s' => String (lower_char c) (toLowerCase s')
  end.

(** [s.substring(0, n)] *)
Fixpoint substring0 (n : nat) (s : string) : string :=
  match n, s with
  | S n', String c s' => String c (substring0 n' s')
  | _, _ => EmptyString
  end.

(** The regular expressions of the source: characters, character classes
    given by their ranges, sequences and bounded repetition [r{lo,hi}]. *)
Inductive regex : Type :=
| RChar (c : ascii)
| RClass (ranges : list (ascii * ascii))
| RSeq (r1 r2 : regex)
| RRep (r : regex) (lo hi : nat).

Definition in_class (ranges : list (ascii * ascii)) (c : ascii) : bool :=
  existsb (fun r => in_range (fst r) (snd r) c) ranges.

Section Repeat.
Variable step : string -> list string.

(** All the rests left by between [lo] and [hi] rounds of [step]. *)
Fixpoint repeat_step (lo hi : nat) (s : string) : list string :=
  (if (lo =? 0)%nat then [s] else []) ++
  match hi with
  | O => []
  | S hi' => flat_map (repeat_step (Nat.pred lo) hi') (step s)
  end.
End Repeat.

(** [rests r s]: every suffix of [s] left after [r] has matched a prefix
    of [s] (the backtracking matcher explores exactly these). *)
Fixpoint rests (r : regex) (s : string) : list string :=
  match r with
  | RChar c =>
      match s with
      | String d s' => if Ascii.eqb c d then [s'] else []
      | EmptyString => []
      end
  | RClass ranges =>
      match s with
      | String d s' => if in_class ranges d then [s'] else []
      | EmptyString => []
      end
  | RSeq r1 r2 => flat_map (rests r2) (rests r1 s)
  | RRep r' lo hi => repeat_step (rests r') lo hi s
  end.

Definition is_empty (s : string) : bool :=
  match s with EmptyString => true | _ => false end.

(** [/^r$/.test(s)]: without the [m] flag the anchors are the two ends of
    the input. *)
Definition test_anchored (r : regex) (s : string) : bool :=
  existsb is_empty (rests r s).

End JSString.

(* ================================================================= *)
(** ** The address classifier *)

(** [/^0x[a-fA-F0-9]{40}$/] *)
Definition ETHEREUM_ADDRESS_RE : JSString.regex :=
  JSString.RSeq (JSString.RChar "0")
    (JSString.RSeq (JSString.RChar "x")
       (JSString.RRep
          (JSString.RClass [("a", "f"); ("A", "F"); ("0", "9")]%char) 40 40)).

(** [/^[1-9A-HJ-NP-Za-km-z]{32,44}$/] *)
Definition SOLANA_ADDRESS_RE : JSString.regex :=
  JSString.RRep
    (JSString.RClass
       [("1", "9"); ("A", "H"); ("J", "N"); ("P", "Z"); ("a", "k"); ("m", "z")]%char)
    32 44.

Inductive Blockchain : Type := ethereum | solana.

Module WalletUtils.

(** The result type ['ethereum' | 'solana' | 'unknown'] of
    [wallet/walletUtils.ts]. *)
Inductive Detected : Type := known (b : Blockchain) | unknown.

Definition detectBlockchain (address : string) : Detected :=
  if JSString.test_anchored ETHEREUM_ADDRESS_RE address then known ethereum
  else if JSString.test_anchored SOLANA_ADDRESS_RE address then known solana
  else unknown.

End WalletUtils.

(* ================================================================= *)
(** ** JavaScript numbers *)

Module JSNumber.

Local Open Scope Z_scope.

(** A JavaScript number is an IEEE 754 binary64 value. *)
Definition number : Type := spec_float.

Definition prec : Z := 53.
Definition emax : Z := 1024.

Definition NaN : number := S754_nan.
Definition zero : number := S754_zero false.

(** The number nearest to an integer (ties to even). *)
Definition of_Z (z : Z) : number := binary_normalize prec emax z 0 false.

Definition mul (x y : number) : number := SFmul prec emax x y.
Definition div (x y : number) : number := SFdiv prec emax x y.
Definition ltb (x y : number) : bool := SFltb x y.

(** [!x] is true for the zeros and NaN. *)
Definition falsy (x : number) : bool :=
  match x with
  | S754_zero _ | S754_nan => true
  | _ => false
  end.

Definition is_finite (x : number) : bool :=
  match x with
  | S754_zero _ | S754_finite _ _ _ => true
  | _ => false
  end.

(** [x == 0], true of both zeros. *)
Definition is_zero (x : number) : bool :=
  match x with S754_zero _ => true | _ => false end.

(** The quotient of two positive integers, correctly rounded. *)
Definition of_ratio (sign : bool) (p q : Z) : number :=
  let '(mz, ez, lz) := SFdiv_core_binary prec emax p 0 q 0 in
  binary_round_aux prec emax sign mz ez lz.

(** The number nearest to [m * 10 ^ e], for [m >= 0]. *)
Definition of_decimal (sign : bool) (m e : Z) : number :=
  if m =? 0 then S754_zero sign
  else if 0 <=? e then binary_normalize prec emax ((if sign then - m else m) * 10 ^ e) 0 sign
  else of_ratio sign m (10 ^ (- e)).

(** [Math.pow(10, n)] at an integer [n]; taken to be correctly rounded
    (it is exact for [0 <= n <= 22]). *)
Definition pow10 (n : Z) : number := of_decimal false 1 n.

(** *** Printing digits *)

Definition digit_char (d : Z) : ascii := ascii_of_nat (48 + Z.to_nat d).

Fixpoint digits_fuel (fuel : nat) (n : Z) (acc : string) : string :=
  match fuel with
  | O => acc
  | S f =>
      let acc' := String (digit_char (n mod 10)) acc in
      if n <? 10 then acc' else digits_fuel f (n / 10) acc'
  end.

(** The decimal digits of a natural number, ["0"] for zero. *)
Definition decimal_digits (n : Z) : string :=
  digits_fuel (S (Z.to_nat (Z.log2 n))) n "".

Fixpoint zeros (n : nat) : string :=
  match n with O => "" | S n' => String "0" (zeros n') end.

Fixpoint drop (n : nat) (s : string) : string :=
  match n, s with
  | S n', String _ s' => drop n' s'
  | _, _ => s
  end.

(** *** Exact comparisons with decimal numbers

    A positive finite [m * 2 ^ e] is handled as a fraction [p / q] of
    positive integers. *)

Definition fraction (m e : Z) : Z * Z :=
  if 0 <=? e then (m * 2 ^ e, 1) else (m, 2 ^ (- e)).

(** [a * 10 ^ k ?= p / q] *)
Definition compare_decimal (a k : Z) (pq : Z * Z) : comparison :=
  let '(p, q) := pq in
  if 0 <=? k then (a * 10 ^ k * q ?= p) else (a * q ?= p * 10 ^ (- k)).

(** [floor ((p / q) / 10 ^ k)] *)
Definition floor_decimal (k : Z) (pq : Z * Z) : Z :=
  let '(p, q) := pq in
  if 0 <=? k then p / (q * 10 ^ k) else (p * 10 ^ (- k)) / q.

(** The least [n >= from] with [p / q < 10 ^ n]. *)
Fixpoint magnitude_from (fuel : nat) (from : Z) (pq : Z * Z) : Z :=
  match fuel with
  | O => from
  | S f =>
      match compare_decimal 1 from pq with
      | Gt => from
      | _ => magnitude_from f (from + 1) pq
      end
  end.

(** The [n] with [10 ^ (n - 1) <= m * 2 ^ e < 10 ^ n]. *)
Definition magnitude (m e : Z) : Z :=
  let bits := Z.log2 m + 1 + e in
  magnitude_from 8 ((bits * 30103) / 100000 - 2) (fraction m e).

(** *** [Number::toString] (radix 10) *)

(** The decimals that round to [m * 2 ^ e] lie between the midpoints to
    its two neighbours; in units of [2 ^ (e - 2)] these are [4m - 2] (or
    [4m - 1] below a power of two) and [4m + 2]; the ends count when [m]
    is even. *)
Definition rounds_to (m e a k : Z) : bool :=
  let below := if (m =? 2 ^ 52) && (-1074 <? e) then 1 else 2 in
  let lo := compare_decimal a k (fraction (4 * m - below) (e - 2)) in
  let hi := compare_decimal a k (fraction (4 * m + 2) (e - 2)) in
  if Z.even m
  then negb (match lo with Lt => true | _ => false end)
       && negb (match hi with Gt => true | _ => false end)
  else match lo, hi with Gt, Lt => true | _, _ => false end.

(** The shortest digits [s] and the exponent [n] with [s * 10 ^ (n - k)]
    rounding to [m * 2 ^ e], [k] the number of digits of [s]; among
    several [s] the closest, then the even one. *)
Fixpoint shortest_from (fuel : nat) (k : Z) (m e n0 : Z) : Z * Z :=
  let q := n0 - k in
  let lo := floor_decimal q (fraction m e) in
  let hi := lo + 1 in
  match fuel with
  | O => (lo, n0)
  | S f =>
      let pick_hi := if hi =? 10 ^ k then (1, n0 + 1) else (hi, n0) in
      match rounds_to m e lo q && (10 ^ (k - 1) <=? lo), rounds_to m e hi q with
      | true, true =>
          match compare_decimal (lo + hi) q (fraction (2 * m) e) with
          | Lt => pick_hi
          | Gt => (lo, n0)
          | Eq => if Z.even lo then (lo, n0) else pick_hi
          end
      | true, false => (lo, n0)
      | false, true => pick_hi
      | false, false => shortest_from f (k + 1) m e n0
      end
  end.

Definition shortest (m e : Z) : Z * Z :=
  shortest_from 17 1 m e (magnitude m e).

Definition exponent_suffix (e : Z) : string :=
  let sign := if e <? 0 then "-" else "+" in
  ("e" ++ sign ++ decimal_digits (Z.abs e))%string.

Definition toString_positive (m e : Z) : string :=
  let '(s, n) := shortest m e in
  let ds := decimal_digits s in
  let k := Z.of_nat (String.length ds) in
  if (k <=? n) && (n <=? 21) then (ds ++ zeros (Z.to_nat (n - k)))%string
  else if (0 <? n) && (n <=? 21)
  then (JSString.substring0 (Z.to_nat n) ds ++ "." ++ drop (Z.to_nat n) ds)%string
  else if (-6 <? n) && (n <=? 0)
  then ("0." ++ zeros (Z.to_nat (- n)) ++ ds)%string
  else if k =? 1 then (ds ++ exponent_suffix (n - 1))%string
  else (JSString.substring0 1 ds ++ "." ++ drop 1 ds ++ exponent_suffix (n - 1))%string.

Definition toString (x : number) : string :=
  match x with
  | S754_nan => "NaN"
  | S754_zero _ => "0"
  | S754_infinity s => if s then "-Infinity" else "Infinity"
  | S754_finite s m e =>
      ((if s then "-" else "") ++ toString_positive (Zpos m) e)%string
  end.

(** *** [toFixed] and [toExponential] *)

(** The integer nearest to [(p / q) / 10 ^ k], the larger one at a tie. *)
Definition round_half_up (k : Z) (pq : Z * Z) : Z :=
  let '(p, q) := pq in
  if 0 <=? k then (2 * p + q * 10 ^ k) / (2 * q * 10 ^ k)
  else (2 * p * 10 ^ (- k) + q) / (2 * q).

Definition pad_left (width : nat) (ds : string) : string :=
  (zeros (width - String.length ds) ++ ds)%string.

Definition toFixed_positive (f : Z) (m e : Z) : string :=
  match compare_decimal 1 21 (fraction m e) with
  | Gt =>
      let n := round_half_up (- f) (fraction m e) in
      let ds := decimal_digits n in
      if f =? 0 then ds
      else
        let ds' := pad_left (S (Z.to_nat f)) ds in
        let k := (String.length ds' - Z.to_nat f)%nat in
        (JSString.substring0 k ds' ++ "." ++ drop k ds')%string
  | _ => toString_positive m e
  end.

(** [x.toFixed(f)], for [0 <= f <= 100] *)
Definition toFixed (x : number) (f : Z) : string :=
  match x with
  | S754_finite s m e =>
      ((if s then "-" else "") ++ toFixed_positive f (Zpos m) e)%string
  | S754_zero _ =>
      if f =? 0 then "0" else ("0." ++ zeros (Z.to_nat f))%string
  | _ => toString x
  end.

Definition toExponential_positive (f : Z) (m e : Z) : string :=
  let e0 := magnitude m e - 1 in
  let n0 := round_half_up (e0 - f) (fraction m e) in
  let '(n, e10) := if n0 =? 10 ^ (f + 1) then (n0 / 10, e0 + 1) else (n0, e0) in
  let ds := decimal_digits n in
  let mant := if f =? 0 then ds
              else (JSString.substring0 1 ds ++ "." ++ drop 1 ds)%string in
  (mant ++ exponent_suffix e10)%string.

(** [x.toExponential(f)], for [0 <= f <= 100] *)
Definition toExponential (x : number) (f : Z) : string :=
  match x with
  | S754_finite s m e =>
      ((if s then "-" else "") ++ toExponential_positive f (Zpos m) e)%string
  | S754_zero _ =>
      let mant := if f =? 0 then "0" else ("0." ++ zeros (Z.to_nat f))%string in
      (mant ++ "e+0")%string
  | _ => toString x
  end.

(** *** [parseInt] and [parseFloat] *)

(** The white space of [StrWhiteSpaceChar] below 256. *)
Definition is_space (c : ascii) : bool :=
  let n := JSString.code c in
  (((9 <=? n) && (n <=? 13)) || (n =? 32) || (n =? 160))%nat.

Fixpoint trim_start (s : string) : string :=
  match s with
  | String c s' => if is_space c then trim_start s' else s
  | EmptyString => s
  end.

Definition digit_value (c : ascii) : option Z :=
  let n := Z.of_nat (JSString.code c) in
  if (48 <=? n) && (n <=? 57) then Some (n - 48)
  else if (97 <=? n) && (n <=? 122) then Some (n - 87)
  else if (65 <=? n) && (n <=? 90) then Some (n - 55)
  else None.

(** The longest prefix of digits of [radix]: its value, how many digits
    there are, and what follows them. *)
Fixpoint scan_digits (radix : Z) (s : string) (acc : Z) (count : Z)
  : Z * Z * string :=
  match s with
  | String c s' =>
      match digit_value c with
      | Some d =>
          if d <? radix then scan_digits radix s' (acc * radix + d) (count + 1)
          else (acc, count, s)
      | None => (acc, count, s)
      end
  | EmptyString => (acc, count, s)
  end.

Definition split_sign (s : string) : bool * string :=
  match s with
  | String "-" s' => (true, s')
  | String "+" s' => (false, s')
  | _ => (false, s)
  end.

(** [parseInt(s, radix)]; [radix = 0] stands for a missing radix. *)
Definition parseInt (s : string) (radix : Z) : number :=
  let '(sign, s2) := split_sign (trim_start s) in
  if negb (radix =? 0) && ((radix <? 2) || (36 <? radix)) then NaN
  else
    let strip := (radix =? 0) || (radix =? 16) in
    let r0 := if radix =? 0 then 10 else radix in
    let '(r, s3) :=
      match strip, s2 with
      | true, String "0" (String "x" s') => (16, s')
      | true, String "0" (String "X" s') => (16, s')
      | _, _ => (r0, s2)
      end in
    let '(v, count, _) := scan_digits r s3 0 0 in
    if count =? 0 then NaN
    else if v =? 0 then S754_zero sign
    else of_Z (if sign then - v else v).

Definition has_prefix (p s : string) : bool := String.prefix p s.

(** The exponent part [e/E sign? digits] of a decimal literal, when it is
    complete. *)
Definition scan_exponent (s : string) : Z :=
  match s with
  | String c s' =>
      if (Ascii.eqb c "e" || Ascii.eqb c "E")%bool then
        let '(neg, s2) := split_sign s' in
        let '(v, count, _) := scan_digits 10 s2 0 0 in
        if count =? 0 then 0 else if neg then - v else v
      else 0
  | EmptyString => 0
  end.

(** [parseFloat(s)]: the longest prefix that is a [StrDecimalLiteral],
    correctly rounded. *)
Definition parseFloat (s : string) : number :=
  let '(sign, s2) := split_sign (trim_start s) in
  if has_prefix "Infinity" s2 then S754_infinity sign
  else
    let '(int_part, int_count, s3) := scan_digits 10 s2 0 0 in
    let '(mant, frac_count, s4) :=
      match s3 with
      | String "." s' => scan_digits 10 s' int_part 0
      | _ => (int_part, 0, s3)
      end in
    if int_count + frac_count =? 0 then NaN
    else of_decimal sign mant (scan_exponent s4 - frac_count).

End JSNumber.

(* ================================================================= *)
(** ** The upstream providers *)

Module Http.

Import JSNumber.

(** *** Payloads, with the members the code reads

    An [option] stands for a member that may be missing (or [null]). *)

(** An entry of [alchemy_getTokenBalances]. *)
Record AlchemyTokenBalance : Type := {
  atb_contractAddress : string;
  atb_tokenBalance : option string  (* hex amount *)
}.

(** The result of [alchemy_getTokenMetadata]. *)
Record AlchemyTokenMetadata : Type := {
  atm_decimals : option Z;
  atm_symbol : option string;
  atm_name : option string;
  atm_logo : option string
}.

(** An entry of the block explorer's [txlist]. *)
Record EtherscanTx : Type := {
  etx_hash : string;
  etx_from : string;
  etx_to : string;
  etx_value : string;
  etx_gasPrice : string;
  etx_gasUsed : string;
  etx_timeStamp : string;
  etx_isError : string
}.

(** The body of the block explorer's answer; [es_result] is [None] when
    the [result] member is not an array. *)
Record EtherscanBody : Type := {
  es_status : string;
  es_message : option string;
  es_result : option (list EtherscanTx)
}.

(** [account.account.data.parsed.info] of a parsed token account. *)
Record SolTokenAccount : Type := {
  sta_mint : string;
  sta_amount : string;       (* tokenAmount.amount *)
  sta_decimals : Z;          (* tokenAmount.decimals *)
  sta_uiAmount : number      (* tokenAmount.uiAmount *)
}.

(** An entry of the remote token list. *)
Record TokenListEntry : Type := {
  tle_address : string;
  tle_symbol : string;
  tle_name : string;
  tle_logoURI : option string
}.

(** An account key of a parsed transaction. *)
Record AccountKey : Type := {
  ak_pubkey : string;
  ak_signer : bool;
  ak_writable : bool
}.

Record SolTxMeta : Type := {
  stm_fee : option number;
  stm_err : bool;                          (* is [meta.err] truthy *)
  stm_preBalances : option (list number);
  stm_postBalances : option (list number)
}.

(** The result of [getTransaction]; [std_accountKeys] is
    [transaction?.message?.accountKeys]. *)
Record SolTxDetails : Type := {
  std_blockTime : option number;
  std_meta : option SolTxMeta;
  std_accountKeys : option (list AccountKey)
}.

(** A price table of the market data provider: [data[key]?.usd]. *)
Definition Prices : Type := string -> option number.

(** *** Requests *)

Inductive Request : Type :=
(* services/walletService.ts *)
| EthGetBalance (address : string)
| AlchemyGetTokenBalances (address : string)
| AlchemyGetTokenMetadata (contractAddress : string)
| EtherscanTxList (address : string)
| CoinGeckoTokenPrice (platform contract : string)
| CoinGeckoSimplePrice (ids : string)
| HeliusGetBalance (address : string)
| HeliusGetTokenAccountsByOwner (address : string)
| SolanaTokenList
| HeliusGetSignaturesForAddress (address : string) (limit : Z)
| HeliusGetTransaction (signature : string)
(* wallet/ethereumService.ts: REST style calls of the token API *)
| AlchemyRestTokenBalances (address : string)
| AlchemyRestTokenMetadata (contractAddress : string)
(* wallet/walletUtils.ts *)
| CoinGeckoCoin (tokenId : string).

(** [response.data] of each request.  For a JSON-RPC call the outer
    [option] is the [result] member. *)
Definition Body (r : Request) : Type :=
  match r with
  | EthGetBalance _ => option string
  | AlchemyGetTokenBalances _ => option (option (list AlchemyTokenBalance))
  | AlchemyGetTokenMetadata _ => option AlchemyTokenMetadata
  | EtherscanTxList _ => option EtherscanBody
  | CoinGeckoTokenPrice _ _ => Prices
  | CoinGeckoSimplePrice _ => Prices
  | HeliusGetBalance _ => option number
  | HeliusGetTokenAccountsByOwner _ => option (option (list SolTokenAccount))
  | SolanaTokenList => list TokenListEntry
  | HeliusGetSignaturesForAddress _ _ => option (list (option string))
  | HeliusGetTransaction _ => option SolTxDetails
  | AlchemyRestTokenBalances _ => list AlchemyTokenBalance
  | AlchemyRestTokenMetadata _ => AlchemyTokenMetadata
  | CoinGeckoCoin _ => option string
  end.

(** What the transport gives back: a body, or a rejection that carries
    the status of the response when there was one. *)
Inductive Outcome (A : Type) : Type :=
| Resolved (data : A)
| Rejected (status : option Z).

Arguments Resolved {A} data.
Arguments Rejected {A} status.

(** The outside world: the answer to the [k]-th outbound call, how long
    it takes, and by how much the [k]-th timer overshoots. *)
Record Env : Type := {
  respond : nat -> forall r : Request, Outcome (Body r);
  latency : nat -> N;
  timer_slack : nat -> N
}.

End Http.

(* ================================================================= *)
(** ** Asynchronous code: state and exceptions *)

Module Runtime.

Import Http.
Local Open Scope Z_scope.

(** An outbound call: when it was issued, what was asked, and whether it
    was issued by the dispatcher. *)
Record Call : Type := {
  call_time : Z;
  call_request : Request;
  call_dispatched : bool
}.

(** The clock (milliseconds), the dispatcher's module variable, the
    outbound calls (latest first) and the number of timers set. *)
Record World : Type := {
  now : Z;
  lastRequestTime : Z;
  calls : list Call;
  timers : nat
}.

Inductive Exn : Type :=
| AxiosError (status : option Z)
| TypeError
| Error (message : string).

Inductive Result (A : Type) : Type :=
| Returned (a : A)
| Thrown (e : Exn).

Arguments Returned {A} a.
Arguments Thrown {A} e.

Definition M (A : Type) : Type := World -> Result A * World.

Definition ret {A} (a : A) : M A := fun w => (Returned a, w).

Definition bind {A B} (m : M A) (k : A -> M B) : M B :=
  fun w =>
    match m w with
    | (Returned a, w') => k a w'
    | (Thrown e, w') => (Thrown e, w')
    end.

Definition throw {A} (e : Exn) : M A := fun w => (Thrown e, w).

(** [try { m } catch (e) { h e }] *)
Definition try_catch {A} (m : M A) (h : Exn -> M A) : M A :=
  fun w =>
    match m w with
    | (Returned a, w') => (Returned a, w')
    | (Thrown e, w') => h e w'
    end.

Declare Scope async_scope.
Delimit Scope async_scope with async.
Notation "x <- m ;; k" := (bind m (fun x => k))
  (at level 61, m at next level, right associativity) : async_scope.
Notation "m ;; k" := (bind m (fun _ => k))
  (at level 61, right associativity) : async_scope.

(** [Promise.all(xs.map(f))] and [for ... of] with awaits.  The async
    closures are run to completion one after the other, in the order of
    the array. *)
Fixpoint mapM {A B} (f : A -> M B) (xs : list A) : M (list B) :=
  match xs with
  | [] => ret []
  | x :: xs' =>
      (y <- f x ;; ys <- mapM f xs' ;; ret (y :: ys))%async
  end.

(** [Date.now()] *)
Definition Date_now : M Z := fun w => (Returned (now w), w).

Section WithEnv.
Variable env : Env.

(** [await sleep(ms)]: the timer fires no earlier than asked. *)
Definition sleep (ms : Z) : M unit :=
  fun w =>
    (Returned tt,
     {| now := now w + Z.max 0 ms + Z.of_N (timer_slack env (timers w));
        lastRequestTime := lastRequestTime w;
        calls := calls w;
        timers := S (timers w) |}).

(** [await axios(...)]: the call is recorded, the clock moves on by the
    latency, and the promise resolves or rejects. *)
Definition axios (dispatched : bool) (r : Request) : M (Body r) :=
  fun w =>
    let k := List.length (calls w) in
    let w' :=
      {| now := now w + Z.of_N (latency env k);
         lastRequestTime := lastRequestTime w;
         calls := {| call_time := now w; call_request := r;
                     call_dispatched := dispatched |} :: calls w;
         timers := timers w |} in
    match respond env k r with
    | Resolved data => (Returned data, w')
    | Rejected status => (Thrown (AxiosError status), w')
    end.

End WithEnv.

Definition get_lastRequestTime : M Z :=
  fun w => (Returned (lastRequestTime w), w).

Definition set_lastRequestTime (t : Z) : M unit :=
  fun w =>
    (Returned tt,
     {| now := now w; lastRequestTime := t; calls := calls w;
        timers := timers w |}).

(** Reading a member of [undefined] throws. *)
Definition member {A} (o : option A) : M A :=
  match o with
  | Some a => ret a
  | None => throw TypeError
  end.

End Runtime.

(* ================================================================= *)
(** ** services/walletService.ts *)

Module WalletService.

Import JSNumber Http Runtime.
Local Open Scope Z_scope.
Local Open Scope async_scope.

Record Token : Type := {
  token_symbol : string;
  token_name : string;
  token_balance : string;
  token_decimals : Z;
  token_tokenAddress : string;
  token_logo : option string;
  token_price : number;
  token_value : number
}.

Record Transaction : Type := {
  tx_hash : string;
  tx_timestamp : number;
  tx_from : string;
  tx_to : string;
  tx_value : string;
  tx_fee : string;
  tx_status : string;
  tx_type : string
}.

Record WalletData : Type := {
  wd_address : string;
  wd_blockchain : Blockchain;
  wd_balance : string;
  wd_balanceUsd : number;
  wd_tokens : list Token;
  wd_transactions : list Transaction
}.

Definition MIN_DELAY_MS : Z := 500.
Definition MAX_RETRIES : Z := 3.

(** [x || d] on numbers, strings and integers that may be missing. *)
Definition number_or (x : option number) (d : number) : number :=
  match x with
  | Some n => if falsy n then d else n
  | None => d
  end.

Definition string_or (x : option string) (d : string) : string :=
  match x with
  | Some s => if JSString.is_empty s then d else s
  | None => d
  end.

Definition integer_or (x : option Z) (d : Z) : Z :=
  match x with
  | Some n => if n =? 0 then d else n
  | None => d
  end.

(** [a < b] where an operand may be [undefined]. *)
Definition lt_undefined (a b : option number) : bool :=
  match a, b with
  | Some x, Some y => ltb x y
  | _, _ => false
  end.

(** The literals [1e18], [1e9] and [1000]. *)
Definition lit_1e18 : number := of_Z (10 ^ 18).
Definition lit_1e9 : number := of_Z (10 ^ 9).
Definition lit_1000 : number := of_Z 1000.

(** [error.response?.status === 429 ||
     (error.response?.status >= 500 && error.response?.status < 600)] *)
Definition retryable (error : Exn) : bool :=
  match error with
  | AxiosError (Some status) =>
      (status =? 429) || ((500 <=? status) && (status <? 600))
  | _ => false
  end.

Definition detectBlockchain (address : string) : option Blockchain :=
  if JSString.test_anchored ETHEREUM_ADDRESS_RE address then Some ethereum
  else if JSString.test_anchored SOLANA_ADDRESS_RE address then Some solana
  else None.

(** The entry of the explorer's list as the adapter reports it. *)
Definition ethereumTransaction (address : string) (tx : EtherscanTx)
  : Transaction :=
  {| tx_hash := etx_hash tx;
     tx_timestamp := parseInt (etx_timeStamp tx) 0;
     tx_from := etx_from tx;
     tx_to := etx_to tx;
     tx_value := toString (div (parseInt (etx_value tx) 0) lit_1e18);
     tx_fee :=
       toString
         (div (mul (parseInt (etx_gasPrice tx) 0) (parseInt (etx_gasUsed tx) 0))
              lit_1e18);
     tx_status := if String.eqb (etx_isError tx) "0" then "success" else "failed";
     tx_type :=
       if String.eqb (JSString.toLowerCase (etx_from tx))
                     (JSString.toLowerCase address)
       then "send" else "receive" |}.

(** [accountKeys?.findIndex(acc => acc.pubkey === address)] *)
Fixpoint findIndex (address : string) (keys : list AccountKey) (i : Z) : Z :=
  match keys with
  | [] => -1
  | acc :: keys' =>
      if String.eqb (ak_pubkey acc) address then i
      else findIndex address keys' (i + 1)
  end.

(** [balances[index]]; [index] is [None] for [undefined]. *)
Definition at_index (balances : list number) (index : option Z)
  : option number :=
  match index with
  | Some i => if i <? 0 then None else nth_error balances (Z.to_nat i)
  | None => None
  end.

(** The transaction pushed for a signature whose details were found;
    [nowMs] is [Date.now()]. *)
Definition solanaTransaction (address signature : string) (nowMs : Z)
    (txDetails : SolTxDetails) : Transaction :=
  let blockTime :=
    number_or (std_blockTime txDetails) (div (of_Z nowMs) lit_1000) in
  let fee :=
    number_or (match std_meta txDetails with
               | Some meta => stm_fee meta
               | None => None
               end) zero in
  let feePayerAccount :=
    match std_accountKeys txDetails with
    | Some keys => find (fun acc => ak_signer acc && ak_writable acc) keys
    | None => None
    end in
  let feePayer :=
    match feePayerAccount with
    | Some acc => ak_pubkey acc
    | None =>
        string_or
          (match std_accountKeys txDetails with
           | Some (acc :: _) => Some (ak_pubkey acc)
           | _ => None
           end) ""
    end in
  let accountIndex :=
    match std_accountKeys txDetails with
    | Some keys => Some (findIndex address keys 0)
    | None => None
    end in
  let type0 :=
    match accountIndex, std_meta txDetails with
    | Some (-1), _ => "unknown"
    | _, Some {| stm_preBalances := Some pre; stm_postBalances := Some post |} =>
        let preBalance := at_index pre accountIndex in
        let postBalance := at_index post accountIndex in
        if lt_undefined postBalance preBalance then "send"
        else if lt_undefined preBalance postBalance then "receive"
        else "unknown"
    | _, _ => "unknown"
    end in
  let type :=
    if String.eqb type0 "unknown" && String.eqb feePayer address
    then "send" else type0 in
  {| tx_hash := signature;
     tx_timestamp := mul blockTime lit_1000;
     tx_from := feePayer;
     tx_to := "";
     tx_value := toString (div fee lit_1e9);
     tx_fee := toString (div fee lit_1e9);
     tx_status :=
       match std_meta txDetails with
       | Some meta => if stm_err meta then "failed" else "success"
       | None => "success"
       end;
     tx_type := type |}.

(** A [for ... of] loop whose rounds push at most one item. *)
Fixpoint for_push {A B} (body : A -> M (option B)) (xs : list A)
  : M (list B) :=
  match xs with
  | [] => ret []
  | x :: xs' =>
      pushed <- body x ;;
      rest <- for_push body xs' ;;
      ret (match pushed with Some b => b :: rest | None => rest end)
  end.

Section Service.
Variable env : Env.
Variable HELIUS_API_KEY : string.

(** [rateLimitedRequest(config, retries)].  The recursion of the source
    ends because [retries] grows up to [MAX_RETRIES]; [budget] counts
    the retries that are left. *)
Fixpoint rateLimitedRequest_rec (budget : nat) (config : Request)
    (retries : Z) {struct budget} : M (Body config) :=
  now <- Date_now ;;
  last <- get_lastRequestTime ;;
  let elapsed := now - last in
  (if elapsed <? MIN_DELAY_MS then sleep env (MIN_DELAY_MS - elapsed)
   else ret tt) ;;
  stamp <- Date_now ;;
  set_lastRequestTime stamp ;;
  try_catch (axios env true config)
    (fun error =>
       if retryable error && (retries <? MAX_RETRIES) then
         let backoffTime := 2 ^ retries * 1000 in
         sleep env backoffTime ;;
         match budget with
         | S budget' => rateLimitedRequest_rec budget' config (retries + 1)
         | O => throw error
         end
       else throw error).

Definition rateLimitedRequest (config : Request) (retries : Z)
  : M (Body config) :=
  rateLimitedRequest_rec (Z.to_nat (MAX_RETRIES - retries)) config retries.

(** The async closure mapped over [tokenBalances]. *)
Definition ethereumToken (token : AlchemyTokenBalance) : M Token :=
  metadataResponse <-
    axios env false (AlchemyGetTokenMetadata (atb_contractAddress token)) ;;
  metadata <- member metadataResponse ;;
  let balance :=
    div (parseInt (match atb_tokenBalance token with
                   | Some hex => hex
                   | None => "null"
                   end) 16)
        (pow10 (integer_or (atm_decimals metadata) 18)) in
  price <-
    try_catch
      (priceResponse <-
         rateLimitedRequest
           (CoinGeckoTokenPrice "ethereum" (atb_contractAddress token)) 0 ;;
       ret (number_or
              (priceResponse (JSString.toLowerCase (atb_contractAddress token)))
              zero))
      (fun _ => ret zero) ;;
  ret {| token_symbol := string_or (atm_symbol metadata) "UNKNOWN";
         token_name := string_or (atm_name metadata) "Unknown Token";
         token_balance := toString balance;
         token_decimals := integer_or (atm_decimals metadata) 18;
         token_tokenAddress := atb_contractAddress token;
         token_logo := atm_logo metadata;
         token_price := price;
         token_value := mul balance price |}.

Definition getEthereumWalletData (address : string) : M WalletData :=
  try_catch
    (balanceResponse <- axios env false (EthGetBalance address) ;;
     let balanceWei :=
       parseInt (match balanceResponse with
                 | Some hex => hex
                 | None => "undefined"
                 end) 16 in
     let balanceEth := div balanceWei lit_1e18 in
     tokensResponse <- axios env false (AlchemyGetTokenBalances address) ;;
     result <- member tokensResponse ;;
     let tokenBalances := match result with Some l => l | None => [] end in
     tokens <- mapM ethereumToken tokenBalances ;;
     txResponse <- axios env false (EtherscanTxList address) ;;
     let transactions :=
       match txResponse with
       | Some data =>
           match es_result data with
           | Some txs =>
               if String.eqb (es_status data) "1"
               then map (ethereumTransaction address) txs
               else []
           | None => []
           end
       | None => []
       end in
     ethPrice <-
       try_catch
         (ethPriceResponse <-
            rateLimitedRequest (CoinGeckoSimplePrice "ethereum") 0 ;;
          ret (number_or (ethPriceResponse "ethereum") zero))
         (fun _ => ret zero) ;;
     ret {| wd_address := address;
            wd_blockchain := ethereum;
            wd_balance := toString balanceEth;
            wd_balanceUsd := mul balanceEth ethPrice;
            wd_tokens := tokens;
            wd_transactions := transactions |})
    (fun _ => throw (Error "Failed to fetch Ethereum wallet data")).

(** The async closure mapped over [tokenAccounts]. *)
Definition solanaToken (account : SolTokenAccount) : M Token :=
  let mintAddress := sta_mint account in
  found <-
    try_catch
      (tokenListResponse <- rateLimitedRequest SolanaTokenList 0 ;;
       ret (find (fun t => String.eqb (tle_address t) mintAddress)
                 tokenListResponse))
      (fun _ => ret None) ;;
  let symbol :=
    match found with Some t => tle_symbol t | None => "UNKNOWN" end in
  price <-
    try_catch
      (priceResponse <-
         rateLimitedRequest (CoinGeckoTokenPrice "solana" mintAddress) 0 ;;
       ret (number_or (priceResponse (JSString.toLowerCase mintAddress)) zero))
      (fun _ => ret zero) ;;
  let balance := sta_uiAmount account in
  ret {| token_symbol := symbol;
         token_name :=
           match found with Some t => tle_name t | None => "Unknown Token" end;
         token_balance := toString balance;
         token_decimals := if sta_decimals account =? 0 then 9
                           else sta_decimals account;
         token_tokenAddress := mintAddress;
         token_logo :=
           match found with Some t => tle_logoURI t | None => Some "" end;
         token_price := price;
         token_value := mul balance price |}.

(** One round of the loop over the signatures. *)
Definition solanaSignature (address : string) (sig : option string)
  : M (option Transaction) :=
  match sig with
  | None => ret None
  | Some signature =>
      if JSString.is_empty signature then ret None
      else
        try_catch
          (txDetailsResponse <-
             rateLimitedRequest (HeliusGetTransaction signature) 0 ;;
           match txDetailsResponse with
           | Some txDetails =>
               nowMs <- Date_now ;;
               ret (Some (solanaTransaction address signature nowMs txDetails))
           | None => ret None
           end)
          (fun _ => ret None)
  end.

Definition getSolanaWalletData (address : string) : M WalletData :=
  try_catch
    (if JSString.is_empty HELIUS_API_KEY then
       ret {| wd_address := address;
              wd_blockchain := solana;
              wd_balance := "0";
              wd_balanceUsd := zero;
              wd_tokens := [];
              wd_transactions := [] |}
     else
       balanceResponse <- rateLimitedRequest (HeliusGetBalance address) 0 ;;
       balanceLamports <- member balanceResponse ;;
       let balanceSol := div balanceLamports lit_1e9 in
       tokensResponse <-
         rateLimitedRequest (HeliusGetTokenAccountsByOwner address) 0 ;;
       result <- member tokensResponse ;;
       let tokenAccounts := match result with Some l => l | None => [] end in
       tokens <- mapM solanaToken tokenAccounts ;;
       txResponse <-
         rateLimitedRequest (HeliusGetSignaturesForAddress address 5) 0 ;;
       let signatures := match txResponse with Some l => l | None => [] end in
       transactions <-
         for_push (solanaSignature address) (firstn 5 signatures) ;;
       solPrice <-
         try_catch
           (solPriceResponse <-
              rateLimitedRequest (CoinGeckoSimplePrice "solana") 0 ;;
            ret (number_or (solPriceResponse "solana") zero))
           (fun _ => ret zero) ;;
       ret {| wd_address := address;
              wd_blockchain := solana;
              wd_balance := toString balanceSol;
              wd_balanceUsd := mul balanceSol solPrice;
              wd_tokens := tokens;
              wd_transactions := transactions |})
    (fun _ => throw (Error "Failed to fetch Solana wallet data")).

Definition getWalletData (address : string) : M WalletData :=
  match detectBlockchain address with
  | None => throw (Error "Invalid wallet address")
  | Some ethereum => getEthereumWalletData address
  | Some solana => getSolanaWalletData address
  end.

End Service.

End WalletService.

(* ================================================================= *)
(** ** The wallet directory: walletUtils.ts, ethereumService.ts,
       solanaService.ts and their [getWalletData] *)

Module Wallet.

Import JSNumber Http Runtime.
Local Open Scope Z_scope.
Local Open Scope async_scope.

(** wallet/types.ts *)
Inductive TxStatus : Type := success | failed | pending.
Inductive TxType : Type := send | receive | swap | other.

(** The member an [EthereumTokenBalance] or a [SolanaTokenBalance] adds
    to [TokenBalance]. *)
Inductive ChainSpecific : Type :=
| contractType (t : string)
| mint (address : string).

Record TokenBalance : Type := {
  tb_tokenAddress : string;
  tb_symbol : option string;
  tb_name : string;
  tb_decimals : option Z;
  tb_balance : string;
  tb_balanceUsd : number;
  tb_logo : string;
  tb_chain : ChainSpecific
}.

(** [from] is declared a string; the Solana adapter stores the first
    account key of the parsed transaction as it is. *)
Inductive Sender : Type :=
| sender_string (s : string)
| sender_account (acc : AccountKey).

Record Transaction : Type := {
  tx_hash : string;
  tx_timestamp : number;
  tx_from : Sender;
  tx_to : string;
  tx_value : string;
  tx_fee : string;
  tx_status : TxStatus;
  tx_type : TxType
}.

Record WalletData : Type := {
  wd_address : string;
  wd_blockchain : Blockchain;
  wd_nativeBalance : string;
  wd_nativeBalanceUsd : number;
  wd_tokens : list TokenBalance;
  wd_transactions : list Transaction
}.

(** What reaches the [balance] parameter of [formatBalance]. *)
Inductive Raw : Type :=
| raw_string (s : string)
| raw_number (n : number)
| raw_null.

Definition raw_falsy (r : Raw) : bool :=
  match r with
  | raw_string s => JSString.is_empty s
  | raw_number n => falsy n
  | raw_null => true
  end.

(** [ToString] of the argument of [parseFloat] *)
Definition raw_to_string (r : Raw) : string :=
  match r with
  | raw_string s => s
  | raw_number n => toString n
  | raw_null => "null"
  end.

(** The literals [0.001], [1], [1000] and [1e9]. *)
Definition lit_0_001 : number := of_decimal false 1 (-3).
Definition lit_1 : number := of_Z 1.
Definition lit_1000 : number := of_Z 1000.
Definition lit_1e9 : number := of_Z (10 ^ 9).

(** [name.replace(/\s+/g, '-')] *)
Fixpoint replace_spaces (in_run : bool) (s : string) : string :=
  match s with
  | EmptyString => EmptyString
  | String c s' =>
      if is_space c then
        if in_run then replace_spaces true s'
        else String "-" (replace_spaces true s')
      else String c (replace_spaces false s')
  end.

Definition priceKey (name : string) : string :=
  replace_spaces false (JSString.toLowerCase name).

(** [Math.pow(10, metadata.decimals)].  The provider sends [decimals] as
    a number or as [null], which is what [None] is here: a [null]
    exponent counts as 0. *)
Definition rest_decimals (m : AlchemyTokenMetadata) : Z :=
  match atm_decimals m with Some d => d | None => 0 end.

Section Service.
Variable env : Env.

(** [n.toLocaleString(undefined, { maximumFractionDigits: 2 })] depends
    on the locale of the host. *)
Variable toLocaleString : number -> string.

Definition formatBalance (balance : Raw) (decimals : Z) : string :=
  if raw_falsy balance then "0"
  else
    let balanceNum := div (parseFloat (raw_to_string balance)) (pow10 decimals) in
    if ltb balanceNum lit_0_001 then toExponential balanceNum 4
    else if ltb balanceNum lit_1 then toFixed balanceNum 6
    else if ltb balanceNum lit_1000 then toFixed balanceNum 4
    else toLocaleString balanceNum.

Definition getTokenPrice (tokenId : string) : M number :=
  try_catch
    (response <- axios env false (CoinGeckoSimplePrice tokenId) ;;
     ret (WalletService.number_or (response tokenId) zero))
    (fun _ => ret zero).

Definition getTokenLogo (tokenId : string) : M string :=
  try_catch
    (response <- axios env false (CoinGeckoCoin tokenId) ;;
     ret (WalletService.string_or response ""))
    (fun _ => ret "").

(** The body of the loop over [tokenBalances]. *)
Definition ethereumToken (token : AlchemyTokenBalance) : M TokenBalance :=
  metadata <-
    axios env false (AlchemyRestTokenMetadata (atb_contractAddress token)) ;;
  tokenPrice <-
    try_catch
      (name <- member (atm_name metadata) ;; getTokenPrice (priceKey name))
      (fun _ => ret zero) ;;
  name <- member (atm_name metadata) ;;
  logo <- getTokenLogo (priceKey name) ;;
  let formattedBalance :=
    formatBalance (match atb_tokenBalance token with
                   | Some hex => raw_string hex
                   | None => raw_null
                   end) (rest_decimals metadata) in
  let balanceUsd := mul (parseFloat formattedBalance) tokenPrice in
  ret {| tb_tokenAddress := atb_contractAddress token;
         tb_symbol := atm_symbol metadata;
         tb_name := name;
         tb_decimals := atm_decimals metadata;
         tb_balance := formattedBalance;
         tb_balanceUsd := balanceUsd;
         tb_logo := logo;
         tb_chain := contractType "ERC20" |}.

(** The function mapped over the explorer's [result]. *)
Definition ethereumTransaction (address : string) (tx : EtherscanTx)
  : Transaction :=
  let type :=
    if String.eqb (JSString.toLowerCase (etx_from tx))
                  (JSString.toLowerCase address) then send
    else if String.eqb (JSString.toLowerCase (etx_to tx))
                       (JSString.toLowerCase address) then receive
    else other in
  {| tx_hash := etx_hash tx;
     tx_timestamp := parseInt (etx_timeStamp tx) 0;
     tx_from := sender_string (etx_from tx);
     tx_to := etx_to tx;
     tx_value := formatBalance (raw_string (etx_value tx)) 18;
     tx_fee :=
       formatBalance
         (raw_string
            (toString (mul (parseInt (etx_gasUsed tx) 0)
                           (parseInt (etx_gasPrice tx) 0)))) 18;
     tx_status := if String.eqb (etx_isError tx) "0" then success else failed;
     tx_type := type |}.

Definition getEthereumWalletData (address : string) : M WalletData :=
  try_catch
    (balanceResponse <- axios env false (EthGetBalance address) ;;
     let balanceHex :=
       match balanceResponse with Some hex => hex | None => "undefined" end in
     let balanceWei := toString (parseInt balanceHex 16) in
     ethPrice <- getTokenPrice "ethereum" ;;
     let nativeBalanceEth := formatBalance (raw_string balanceWei) 18 in
     let nativeBalanceUsd := mul (parseFloat nativeBalanceEth) ethPrice in
     tokensResponse <- axios env false (AlchemyRestTokenBalances address) ;;
     tokenBalances <- mapM ethereumToken tokensResponse ;;
     txResponse <- axios env false (EtherscanTxList address) ;;
     data <- member txResponse ;;
     result <- member (es_result data) ;;
     let transactions := map (ethereumTransaction address) result in
     ret {| wd_address := address;
            wd_blockchain := ethereum;
            wd_nativeBalance := nativeBalanceEth;
            wd_nativeBalanceUsd := nativeBalanceUsd;
            wd_tokens := tokenBalances;
            wd_transactions := transactions |})
    (fun _ => throw (Error "Failed to fetch Ethereum wallet data")).

(** The body of the loop over [tokenAccounts]. *)
Definition solanaToken (tokenAccount : SolTokenAccount) : M TokenBalance :=
  let tokenMint := sta_mint tokenAccount in
  let balance :=
    formatBalance (raw_string (sta_amount tokenAccount))
                  (sta_decimals tokenAccount) in
  tokenPrice <-
    try_catch
      (getTokenPrice (JSString.toLowerCase (JSString.substring0 6 tokenMint)))
      (fun _ => ret zero) ;;
  ret {| tb_tokenAddress := tokenMint;
         tb_symbol := Some "SPL";
         tb_name := JSString.substring0 6 tokenMint;
         tb_decimals := Some (sta_decimals tokenAccount);
         tb_balance := balance;
         tb_balanceUsd :=
           if falsy tokenPrice then zero
           else mul (parseFloat balance) tokenPrice;
         tb_logo := "";
         tb_chain := mint tokenMint |}.

(** The transaction pushed for a signature whose details were found. *)
Definition solanaTransaction (address signature : string) (nowMs : Z)
    (txDetails : SolTxDetails) : Transaction :=
  let blockTime :=
    WalletService.number_or (std_blockTime txDetails)
                            (div (of_Z nowMs) lit_1000) in
  let fee :=
    match std_meta txDetails with
    | Some meta =>
        match stm_fee meta with Some f => f | None => NaN end
    | None => zero
    end in
  let feePayer :=
    match std_accountKeys txDetails with
    | Some (acc :: _) => sender_account acc
    | _ => sender_string ""
    end in
  let isOutgoing :=
    match feePayer with
    | sender_string s => String.eqb s address
    | sender_account _ => false
    end in
  {| tx_hash := signature;
     tx_timestamp := mul blockTime lit_1000;
     tx_from := feePayer;
     tx_to := "";
     tx_value := toString (div fee lit_1e9);
     tx_fee := toString (div fee lit_1e9);
     tx_status := success;
     tx_type := if isOutgoing then send else receive |}.

(** One round of the loop over the signatures.  A [null] entry makes
    [sig.signature] throw inside the [try], and again in the [catch]
    block, whose log message reads [sig.signature] too. *)
Definition solanaSignature (address : string) (sig : option string)
  : M (option Transaction) :=
  try_catch
    (signature <- member sig ;;
     txDetailsResponse <- axios env false (HeliusGetTransaction signature) ;;
     match txDetailsResponse with
     | Some txDetails =>
         nowMs <- Date_now ;;
         ret (Some (solanaTransaction address signature nowMs txDetails))
     | None => ret None
     end)
    (fun _ => logged <- member sig ;; ret None).

Definition getSolanaWalletData (address : string) : M WalletData :=
  try_catch
    (balanceResponse <- axios env false (HeliusGetBalance address) ;;
     balanceLamports <- member balanceResponse ;;
     let balanceSol := formatBalance (raw_number balanceLamports) 9 in
     solPrice <- getTokenPrice "solana" ;;
     let balanceUsd := mul (parseFloat balanceSol) solPrice in
     tokenBalancesResponse <-
       axios env false (HeliusGetTokenAccountsByOwner address) ;;
     result <- member tokenBalancesResponse ;;
     tokenAccounts <- member result ;;
     tokenBalances <- mapM solanaToken tokenAccounts ;;
     txListResponse <-
       axios env false (HeliusGetSignaturesForAddress address 20) ;;
     signatures <- member txListResponse ;;
     transactions <-
       WalletService.for_push (solanaSignature address) (firstn 10 signatures) ;;
     ret {| wd_address := address;
            wd_blockchain := solana;
            wd_nativeBalance := balanceSol;
            wd_nativeBalanceUsd := balanceUsd;
            wd_tokens := tokenBalances;
            wd_transactions := transactions |})
    (fun _ => throw (Error "Failed to fetch Solana wallet data")).

(** The structured failure [{ error: string }]. *)
Record Failure : Type := { error : string }.

Definition getWalletData (address : string) : M (WalletData + Failure) :=
  try_catch
    (match WalletUtils.detectBlockchain address with
     | WalletUtils.known ethereum =>
         data <- getEthereumWalletData address ;; ret (inl data)
     | WalletUtils.known solana =>
         data <- getSolanaWalletData address ;; ret (inl data)
     | WalletUtils.unknown =>
         ret (inr {| error := "Unsupported blockchain or invalid address format" |})
     end)
    (fun _ => ret (inr {| error := "Failed to fetch wallet data" |})).

End Service.

End Wallet.

(* ================================================================= *)
(** ** The address formats, in the words of the specification *)

Module AddressFormat.

Fixpoint mem_char (c : ascii) (s : string) : bool :=
  match s with
  | EmptyString => false
  | String d s' => Ascii.eqb c d || mem_char c s'
  end.

Fixpoint all_chars (p : ascii -> bool) (s : string) : bool :=
  match s with
  | EmptyString => true
  | String c s' => p c && all_chars p s'
  end.

Definition is_hex (c : ascii) : bool := mem_char c "0123456789abcdefABCDEF".

Definition is_alphanumeric (c : ascii) : bool :=
  mem_char c "0123456789ABCDEFGHIJKLMNOPQRSTUVWXYZabcdefghijklmnopqrstuvwxyz".

(** The base58 alphabet: letters and digits without [0], [O], [I], [l]. *)
Definition is_base58 (c : ascii) : bool :=
  is_alphanumeric c && negb (mem_char c "0OIl").

(** Exactly [0x] followed by 40 hexadecimal characters. *)
Definition ethereum_format (s : string) : Prop :=
  exists body,
    s = "0x" ++ body /\ String.length body = 40%nat /\ all_chars is_hex body = true.

(** 32 to 44 characters of the base58 alphabet. *)
Definition solana_format (s : string) : Prop :=
  (32 <= String.length s <= 44)%nat /\ all_chars is_base58 s = true.

End AddressFormat.

(* ================================================================= *)
(** ** Runs of the dispatcher *)

Module Dispatch.

Import Http Runtime WalletService.
Local Open Scope Z_scope.
Local Open Scope async_scope.

(** The world in which [rateLimitedRequest] hands its request to axios:
    the caller has been suspended when fewer than [MIN_DELAY_MS] had
    elapsed, and the time stamp has been taken. *)
Definition stamped (env : Env) (w : World) : World :=
  let elapsed := now w - lastRequestTime w in
  let w1 :=
    if elapsed <? MIN_DELAY_MS
    then snd (sleep env (MIN_DELAY_MS - elapsed) w) else w in
  snd (set_lastRequestTime (now w1) w1).

(** The times at which the dispatcher issued its calls, latest first. *)
Definition dispatch_times (w : World) : list Z :=
  map call_time (filter call_dispatched (calls w)).

(** Times, latest first: the first is no later than [bound] and each
    next one is at least [gap] earlier than the one before it. *)
Fixpoint spaced_below (gap bound : Z) (ts : list Z) : Prop :=
  match ts with
  | [] => True
  | t :: ts' => t <= bound /\ spaced_below gap (t - gap) ts'
  end.

(** The dispatcher's calls so far are [MIN_DELAY_MS] apart, and none is
    later than the time stamp. *)
Definition well_spaced (w : World) : Prop :=
  spaced_below MIN_DELAY_MS (lastRequestTime w) (dispatch_times w).

(** Dispatcher calls made one after the other, each awaited before the
    next, whatever its outcome. *)
Fixpoint sequentialRequests (env : Env) (configs : list Request) : M unit :=
  match configs with
  | [] => ret tt
  | config :: configs' =>
      try_catch (rateLimitedRequest env config 0 ;; ret tt) (fun _ => ret tt) ;;
      sequentialRequests env configs'
  end.

(** The attempt of [config] recorded at time [t]. *)
Definition attempt (config : Request) (t : Z) : Call :=
  {| call_time := t; call_request := config; call_dispatched := true |}.

(** The outcome of a call as the caller of the dispatcher sees it. *)
Definition surfaced {A} (o : Outcome A) : Result A :=
  match o with
  | Resolved data => Returned data
  | Rejected status => Thrown (AxiosError status)
  end.

(** A rejection on which the dispatcher tries again. *)
Definition transient {A} (o : Outcome A) : bool :=
  match o with
  | Resolved _ => false
  | Rejected status => retryable (AxiosError status)
  end.

(** The requests to the market data provider. *)
Definition is_market_data (r : Request) : bool :=
  match r with
  | CoinGeckoTokenPrice _ _ | CoinGeckoSimplePrice _ | CoinGeckoCoin _ => true
  | _ => false
  end.

(** The statuses of the specification on which a call is tried again:
    429 and 5xx. *)
Definition retried_status (status : option Z) : Prop :=
  exists s, status = Some s /\ (s = 429 \/ 500 <= s < 600).

(** Times of successive attempts, earliest first: the attempt after
    attempt number [n] comes at least [2 ^ n] seconds later. *)
Fixpoint backed_off (n : Z) (ts : list Z) : Prop :=
  match ts with
  | t1 :: (t2 :: _) as later =>
      t1 + 2 ^ n * 1000 <= t2 /\ backed_off (n + 1) later
  | _ => True
  end.

End Dispatch.

(* ================================================================= *)
(** ** Sample worlds *)

Module Sample.

Import JSNumber Http Runtime.
Local Open Scope Z_scope.

(** A body of the right shape with nothing in it. *)
Definition empty_body (r : Request) : Body r :=
  match r with
  | EthGetBalance _ => Some "0x0"
  | AlchemyGetTokenBalances _ => Some (Some [])
  | AlchemyGetTokenMetadata _ =>
      Some {| atm_decimals := None; atm_symbol := None; atm_name := None;
              atm_logo := None |}
  | EtherscanTxList _ =>
      Some {| es_status := "0"; es_message := Some "No transactions found";
              es_result := Some [] |}
  | CoinGeckoTokenPrice _ _ => fun _ => None
  | CoinGeckoSimplePrice _ => fun _ => None
  | HeliusGetBalance _ => Some zero
  | HeliusGetTokenAccountsByOwner _ => Some (Some [])
  | SolanaTokenList => []
  | HeliusGetSignaturesForAddress _ _ => Some []
  | HeliusGetTransaction _ => None
  | AlchemyRestTokenBalances _ => []
  | AlchemyRestTokenMetadata _ =>
      {| atm_decimals := None; atm_symbol := None; atm_name := None;
         atm_logo := None |}
  | CoinGeckoCoin _ => None
  end.

(** A process that has just started: no call made yet. *)
Definition fresh (t : Z) : World :=
  {| now := t; lastRequestTime := 0; calls := []; timers := 0 |}.

(** An upstream that answers the calls in turn with the given statuses
    (200 is a success), and succeeds afterwards; no latency, exact
    timers. *)
Definition scripted (statuses : list Z) : Env :=
  {| respond := fun k r =>
       match nth_error statuses k with
       | Some status =>
           if status =? 200 then Resolved (empty_body r)
           else Rejected (Some status)
       | None => Resolved (empty_body r)
       end;
     latency := fun _ => 0%N;
     timer_slack := fun _ => 0%N |}.

Definition ethereum_address : string :=
  "0x52908400098527886E0F7030069857D2E4169EE7".
Definition solana_address : string :=
  "4Nd1mBQtrMJVYVfKf2PJy9NZUZdTAsp7D4xWLs4gDB4T".

(** Three ERC-20 contracts and three SPL mints. *)
Definition contract_a : string := "0xdAC17F958D2ee523a2206206994597C13D831ec7".
Definition contract_b : string := "0xA0b86991c6218b36c1d19D4a2e9Eb0cE3606eB48".
Definition contract_c : string := "0x6B175474E89094C44Da98b954EedeAC495271d0F".
Definition mint_a : string := "EPjFWdd5AufqSSqeM2qN1xzybapC8G4wEGGkZwyTDt1v".
Definition mint_b : string := "Es9vMFrzaCERmJfrF4H2FYD4KCoNkY11McCe8BenwNYB".
Definition mint_c : string := "So11111111111111111111111111111111111111112".

Definition erc20 (contract : string) : AlchemyTokenBalance :=
  {| atb_contractAddress := contract; atb_tokenBalance := Some "0x1e8480" |}.

Definition spl (mint : string) : SolTokenAccount :=
  {| sta_mint := mint; sta_amount := "2000000"; sta_decimals := 6;
     sta_uiAmount := of_Z 2 |}.

Definition metadata : AlchemyTokenMetadata :=
  {| atm_decimals := Some 6; atm_symbol := Some "TKN";
     atm_name := Some "Token"; atm_logo := None |}.

(** A transfer between two third parties, as the explorer lists it. *)
Definition third_party_transfer : EtherscanTx :=
  {| etx_hash := "0xabc";
     etx_from := "0x1111111111111111111111111111111111111111";
     etx_to := "0x2222222222222222222222222222222222222222";
     etx_value := "1000000000000000000";
     etx_gasPrice := "50000000000";
     etx_gasUsed := "21000";
     etx_timeStamp := "1700000000";
     etx_isError := "0" |}.

Definition transfer_details : SolTxDetails :=
  {| std_blockTime := Some (of_Z 1700000000);
     std_meta :=
       Some {| stm_fee := Some (of_Z 5000); stm_err := false;
               stm_preBalances := Some [of_Z 3000000000; of_Z 0];
               stm_postBalances := Some [of_Z 1999995000; of_Z 1000000000] |};
     std_accountKeys :=
       Some [ {| ak_pubkey := solana_address; ak_signer := true;
                 ak_writable := true |};
              {| ak_pubkey := mint_c; ak_signer := false;
                 ak_writable := true |} ] |}.

Definition listed (key : string) (keys : list string) : bool :=
  existsb (String.eqb key) keys.

(** An upstream that holds one native unit, three tokens and some
    transactions for every address.  The price lookups of the tokens in
    [no_price], the metadata lookups of those in [no_metadata] and the
    details of the signatures in [no_details] are rejected with status
    404; no latency, exact timers. *)
Definition upstream (no_price no_metadata no_details : list string) : Env :=
  {| respond := fun _ r =>
       match r with
       | EthGetBalance _ => Resolved (Some "0xde0b6b3a7640000")
       | AlchemyGetTokenBalances _ =>
           Resolved (Some (Some [erc20 contract_a; erc20 contract_b;
                                 erc20 contract_c]))
       | AlchemyGetTokenMetadata contract =>
           if listed contract no_metadata then Rejected (Some 404)
           else Resolved (Some metadata)
       | EtherscanTxList _ =>
           Resolved (Some {| es_status := "1"; es_message := Some "OK";
                             es_result := Some [third_party_transfer] |})
       | CoinGeckoTokenPrice _ contract =>
           if listed contract no_price then Rejected (Some 404)
           else Resolved (fun _ => Some (of_Z 3))
       | CoinGeckoSimplePrice _ => Resolved (fun _ => Some (of_Z 2000))
       | HeliusGetBalance _ => Resolved (Some (of_Z 1000000000))
       | HeliusGetTokenAccountsByOwner _ =>
           Resolved (Some (Some [spl mint_a; spl mint_b; spl mint_c]))
       | SolanaTokenList =>
           Resolved [ {| tle_address := mint_a; tle_symbol := "USDC";
                         tle_name := "USD Coin"; tle_logoURI := None |} ]
       | HeliusGetSignaturesForAddress _ _ =>
           Resolved (Some [Some "sig1"; Some "sig2"; Some "sig3"])
       | HeliusGetTransaction signature =>
           if listed signature no_details then Rejected (Some 404)
           else Resolved (Some transfer_details)
       | AlchemyRestTokenBalances _ =>
           Resolved [erc20 contract_a; erc20 contract_b; erc20 contract_c]
       | AlchemyRestTokenMetadata contract =>
           if listed contract no_metadata then Rejected (Some 404)
           else Resolved metadata
       | CoinGeckoCoin _ => Resolved (Some "logo.png")
       end;
     latency := fun _ => 0%N;
     timer_slack := fun _ => 0%N |}.

(** The snapshot of a Solana wallet that holds nothing. *)
Definition empty_wallet (address : string) : WalletService.WalletData :=
  {| WalletService.wd_address := address;
     WalletService.wd_blockchain := solana;
     WalletService.wd_balance := "0";
     WalletService.wd_balanceUsd := zero;
     WalletService.wd_tokens := [];
     WalletService.wd_transactions := [] |}.

End Sample.

(* ================================================================= *)
(** ** Judgements on asynchronous code *)

Module Judgement.

Import Http Runtime.

(** Whenever [m] returns, what it returns satisfies [Q]. *)
Definition returns {A} (m : M A) (Q : A -> Prop) : Prop :=
  forall w,
    match fst (m w) with
    | Returned a => Q a
    | Thrown _ => True
    end.

(** [m] returns, in every world, something that satisfies [Q]. *)
Definition succeeds {A} (m : M A) (Q : A -> Prop) : Prop :=
  forall w, exists a w', m w = (Returned a, w') /\ Q a.

(** [m] throws in every world. *)
Definition fails {A} (m : M A) : Prop :=
  forall w, exists e w', m w = (Thrown e, w').

(** Every outbound call that [m] makes satisfies [P]. *)
Definition issues {A} (m : M A) (P : Call -> Prop) : Prop :=
  forall w,
    exists new, calls (snd (m w)) = (new ++ calls w)%list /\ Forall P new.

(** [m] leaves the list of outbound calls as it is. *)
Definition silent {A} (m : M A) : Prop :=
  forall w, calls (snd (m w)) = calls w.

End Judgement.

(* ================================================================= *)
(** ** What the adapters report for a transaction *)

Module Reported.

Import JSNumber Http.
Local Open Scope Z_scope.

(** Two strings that are equal up to the case of their letters. *)
Definition same_address (a b : string) : bool :=
  String.eqb (JSString.toLowerCase a) (JSString.toLowerCase b).

(** The entries of an answer of the explorer that lists transactions:
    its status is ['1'] and its result is a list. *)
Definition listed_entries (answer : option EtherscanBody) : list EtherscanTx :=
  match answer with
  | Some data =>
      match es_result data with
      | Some txs => if String.eqb (es_status data) "1" then txs else []
      | None => []
      end
  | None => []
  end.

(** What the services module reports for the entry [tx] of the explorer's
    list. *)
Definition by_service (address : string) (tx : EtherscanTx)
    (t : WalletService.Transaction) : Prop :=
  WalletService.tx_hash t = etx_hash tx /\
  WalletService.tx_from t = etx_from tx /\
  WalletService.tx_to t = etx_to tx /\
  WalletService.tx_type t =
    (if same_address (etx_from tx) address then "send" else "receive") /\
  WalletService.tx_fee t =
    toString (div (mul (parseInt (etx_gasPrice tx) 0)
                       (parseInt (etx_gasUsed tx) 0))
                  (of_Z (10 ^ 18))) /\
  (WalletService.tx_status t = "success" <-> etx_isError tx = "0") /\
  (WalletService.tx_status t = "failed" <-> etx_isError tx <> "0").

(** What the wallet directory reports for the entry [tx] of the
    explorer's list. *)
Definition by_wallet (toLocaleString : number -> string) (address : string)
    (tx : EtherscanTx) (t : Wallet.Transaction) : Prop :=
  Wallet.tx_hash t = etx_hash tx /\
  Wallet.tx_from t = Wallet.sender_string (etx_from tx) /\
  Wallet.tx_to t = etx_to tx /\
  Wallet.tx_type t =
    (if same_address (etx_from tx) address then Wallet.send
     else if same_address (etx_to tx) address then Wallet.receive
     else Wallet.other) /\
  Wallet.tx_fee t =
    Wallet.formatBalance toLocaleString
      (Wallet.raw_string
         (toString (mul (parseInt (etx_gasUsed tx) 0)
                        (parseInt (etx_gasPrice tx) 0)))) 18 /\
  (Wallet.tx_status t = Wallet.success <-> etx_isError tx = "0") /\
  (Wallet.tx_status t = Wallet.failed <-> etx_isError tx <> "0").

(** The transactions of a snapshot of the services module are what
    [by_service] says of the entries, in order, of an answer the explorer
    gave for the address. *)
Definition service_transactions (env : Env) (address : string)
    (transactions : list WalletService.Transaction) : Prop :=
  exists k answer,
    respond env k (EtherscanTxList address) = Resolved answer /\
    Forall2 (by_service address) (listed_entries answer) transactions.

(** The same for the wallet directory, which takes the result of any
    answer as the list. *)
Definition wallet_transactions (env : Env)
    (toLocaleString : number -> string) (address : string)
    (transactions : list Wallet.Transaction) : Prop :=
  exists k data txs,
    respond env k (EtherscanTxList address) = Resolved (Some data) /\
    es_result data = Some txs /\
    Forall2 (by_wallet toLocaleString address) txs transactions.

(** The details the node gave for a signature. *)
Definition details_of (env : Env) (signature : string)
    (txDetails : SolTxDetails) : Prop :=
  exists k,
    respond env k (HeliusGetTransaction signature) = Resolved (Some txDetails).

(** The three members of a Solana transaction that both adapters derive
    from the network fee alone: no recipient, and as value and as fee the
    [fee] of the details' [meta], in lamports, over [1e9]; a transaction
    without [meta] has cost nothing. *)
Definition fee_only (txDetails : SolTxDetails) (to value fee : string)
  : Prop :=
  to = "" /\ value = fee /\
  match std_meta txDetails with
  | Some meta =>
      forall lamports,
        stm_fee meta = Some lamports -> lamports <> NaN ->
        fee = toString (div lamports (of_Z (10 ^ 9)))
  | None => fee = "0"
  end.

(** A transaction of a Solana snapshot, with the signature it was pushed
    for as its hash, reports the fee of the details the node gave for
    that signature. *)
Definition reports_fee (env : Env) (hash to value fee : string) : Prop :=
  exists txDetails,
    details_of env hash txDetails /\ fee_only txDetails to value fee.

End Reported.

(* ================================================================= *)
(** ** Enrichment calls and what is reported when they fail *)

Module Absorbed.

Import JSNumber Http WalletService.
Local Open Scope Z_scope.

(** Every attempt of the request is answered with [data]. *)
Definition up (env : Env) (r : Request) (data : Body r) : Prop :=
  forall k, respond env k r = Resolved data.

(** Every attempt of the request is rejected. *)
Definition down (env : Env) (r : Request) : Prop :=
  forall k, exists status, respond env k r = Rejected status.

(** The amount of an ERC-20 token: the hex amount over [10 ^ decimals]. *)
Definition ethereum_amount (token : AlchemyTokenBalance)
    (metadata : AlchemyTokenMetadata) : number :=
  div (parseInt (match atb_tokenBalance token with
                 | Some hex => hex
                 | None => "null"
                 end) 16)
      (pow10 (integer_or (atm_decimals metadata) 18)).

(** The price and the value of a token whose price is not known. *)
Definition unpriced (amount : number) (t : Token) : Prop :=
  token_price t = zero /\
  token_value t = mul amount zero /\
  (is_finite amount = true -> is_zero (token_value t) = true).

(** The token the Ethereum adapter reports for an entry of the listing. *)
Definition ethereum_token (env : Env) (metadata : AlchemyTokenMetadata)
    (token : AlchemyTokenBalance) (t : Token) : Prop :=
  token_tokenAddress t = atb_contractAddress token /\
  token_balance t = toString (ethereum_amount token metadata) /\
  (down env (CoinGeckoTokenPrice "ethereum" (atb_contractAddress token)) ->
   unpriced (ethereum_amount token metadata) t).

(** The token the Solana adapter reports for a token account. *)
Definition solana_token (env : Env) (account : SolTokenAccount) (t : Token)
  : Prop :=
  token_tokenAddress t = sta_mint account /\
  token_balance t = toString (sta_uiAmount account) /\
  (down env SolanaTokenList ->
   token_symbol t = "UNKNOWN" /\ token_name t = "Unknown Token" /\
   token_logo t = Some "") /\
  (down env (CoinGeckoTokenPrice "solana" (sta_mint account)) ->
   unpriced (sta_uiAmount account) t).

(** What a round of the loop over the signatures pushes: a transaction
    only for a signature whose details were not always refused, nothing
    only for an entry whose details are not always there. *)
Definition detail_outcome (env : Env) (sig : option string)
    (pushed : option Transaction) : Prop :=
  match pushed with
  | Some t =>
      sig = Some (tx_hash t) /\ ~ down env (HeliusGetTransaction (tx_hash t))
  | None =>
      forall s details,
        sig = Some s -> s <> "" ->
        ~ up env (HeliusGetTransaction s) (Some details)
  end.

(** The items pushed, in order, by the rounds of a loop. *)
Inductive pushed {X Y : Type} (R : X -> option Y -> Prop)
  : list X -> list Y -> Prop :=
| pushed_nil : pushed R [] []
| pushed_item : forall x y xs ys,
    R x (Some y) -> pushed R xs ys -> pushed R (x :: xs) (y :: ys)
| pushed_skip : forall x xs ys,
    R x None -> pushed R xs ys -> pushed R (x :: xs) ys.

End Absorbed.

(* ================================================================= *)
(** ** services/walletService.ts: the market data key *)

Module WalletServiceUrl.

(** [s.includes(c)] for a single character *)
Fixpoint includes_char (c : ascii) (s : string) : bool :=
  match s with
  | EmptyString => false
  | String d s' => Ascii.eqb d c || includes_char c s'
  end.

Definition addCoinGeckoApiKeyToUrlHelper (COINGECKO_API_KEY url : string)
  : string :=
  if negb (JSString.is_empty COINGECKO_API_KEY) then
    if includes_char "?" url
    then url ++ "&x_cg_demo_api_key=" ++ COINGECKO_API_KEY
    else url ++ "?x_cg_demo_api_key=" ++ COINGECKO_API_KEY
  else url.

(** How often a character occurs in a string. *)
Fixpoint count_char (c : ascii) (s : string) : nat :=
  match s with
  | EmptyString => 0
  | String d s' => (if Ascii.eqb d c then 1 else 0) + count_char c s'
  end.

End WalletServiceUrl.

(* ================================================================= *)
(** ** controllers/walletController.ts *)

Module WalletController.

Import Runtime.

Record Validation : Type := {
  isValid : bool;
  blockchain : option Blockchain
}.

Definition validateAddress (address : string) : Validation :=
  let blockchain := WalletService.detectBlockchain address in
  {| isValid := match blockchain with Some _ => true | None => false end;
     blockchain := blockchain |}.

Definition getWalletData (env : Http.Env) (HELIUS_API_KEY : string)
    (address : string) : M WalletService.WalletData :=
  WalletService.getWalletData env HELIUS_API_KEY address.

End WalletController.

(* ================================================================= *)
(** ** The wallet routes of the server *)

Module Server.

Import Runtime.
Local Open Scope Z_scope.
Local Open Scope async_scope.

(** What a handler sends: [res.json(body)] has status 200,
    [res.status(500).json({ error })] status 500. *)
Record Sent (A : Type) : Type := {
  status : Z;
  body : A + string    (* the payload, or the [error] member *)
}.

Arguments status {A} s.
Arguments body {A} s.

(** [app.get('/api/wallet/data/:address', ...)] *)
Definition walletDataRoute (env : Http.Env) (HELIUS_API_KEY : string)
    (address : string) : M (Sent WalletService.WalletData) :=
  try_catch
    (data <- WalletController.getWalletData env HELIUS_API_KEY address ;;
     ret {| status := 200; body := inl data |})
    (fun _ => ret {| status := 500; body := inr "Failed to fetch wallet data" |}).

End Server.

(* ================================================================= *)
(** ** More judgements and predicates for the properties *)

Module Extra.

Import JSNumber Http Runtime.
Local Open Scope Z_scope.

(** Whenever [m] throws, what it throws satisfies [P]. *)
Definition throws_only {A} (m : M A) (P : Exn -> Prop) : Prop :=
  forall w,
    match fst (m w) with
    | Returned _ => True
    | Thrown e => P e
    end.

(** The three errors of the services module. *)
Definition service_error (e : Exn) : Prop :=
  e = Error "Invalid wallet address" \/
  e = Error "Failed to fetch Ethereum wallet data" \/
  e = Error "Failed to fetch Solana wallet data".

(** The requests that belong to a fetch for [address] on a chain. *)
Definition for_chain (chain : Blockchain) (address : string) (r : Request)
  : bool :=
  match chain, r with
  | ethereum, EthGetBalance a => String.eqb a address
  | ethereum, AlchemyGetTokenBalances a => String.eqb a address
  | ethereum, AlchemyGetTokenMetadata _ => true
  | ethereum, EtherscanTxList a => String.eqb a address
  | ethereum, CoinGeckoTokenPrice platform _ => String.eqb platform "ethereum"
  | ethereum, CoinGeckoSimplePrice ids => String.eqb ids "ethereum"
  | solana, HeliusGetBalance a => String.eqb a address
  | solana, HeliusGetTokenAccountsByOwner a => String.eqb a address
  | solana, SolanaTokenList => true
  | solana, HeliusGetSignaturesForAddress a limit =>
      String.eqb a address && (limit =? 5)
  | solana, HeliusGetTransaction _ => true
  | solana, CoinGeckoTokenPrice platform _ => String.eqb platform "solana"
  | solana, CoinGeckoSimplePrice ids => String.eqb ids "solana"
  | _, _ => false
  end.


(** The balances of the account of [address] before and after a
    transaction, when its details list the account and both balances. *)
Definition balance_change (address : string) (txDetails : SolTxDetails)
    (before after : number) : Prop :=
  exists keys meta pre post,
    std_accountKeys txDetails = Some keys /\
    std_meta txDetails = Some meta /\
    stm_preBalances meta = Some pre /\
    stm_postBalances meta = Some post /\
    0 <= WalletService.findIndex address keys 0 /\
    nth_error pre (Z.to_nat (WalletService.findIndex address keys 0)) =
      Some before /\
    nth_error post (Z.to_nat (WalletService.findIndex address keys 0)) =
      Some after.

Definition balance_rose (address : string) (txDetails : SolTxDetails)
  : Prop :=
  exists before after,
    balance_change address txDetails before after /\ ltb before after = true.

Definition balance_fell (address : string) (txDetails : SolTxDetails)
  : Prop :=
  exists before after,
    balance_change address txDetails before after /\ ltb after before = true.




(** The explorer's body when it refuses a request: [result] holds a
    message in place of the list. *)
Definition refusal : EtherscanBody :=
  {| es_status := "0"; es_message := Some "NOTOK"; es_result := None |}.

(** The sample upstream with an explorer that refuses. *)
Definition refusing : Env :=
  {| respond := fun k r =>
       match r as r0 return Outcome (Body r0) with
       | EtherscanTxList _ => Resolved (Some refusal)
       | r' => respond (Sample.upstream [] [] []) k r'
       end;
     latency := fun _ => 0%N;
     timer_slack := fun _ => 0%N |}.

(** The sample upstream with a node that answers the balance requests
    without a [result] member. *)
Definition resultless : Env :=
  {| respond := fun k r =>
       match r as r0 return Outcome (Body r0) with
       | EthGetBalance _ => Resolved None
       | HeliusGetBalance _ => Resolved None
       | r' => respond (Sample.upstream [] [] []) k r'
       end;
     latency := fun _ => 0%N;
     timer_slack := fun _ => 0%N |}.

(** A USD value that is the product of the amount printed as the balance
    and a price that is a number. *)
Definition priced (balance : string) (price value : number) : Prop :=
  price <> NaN /\
  exists amount, balance = toString amount /\ value = mul amount price.

(** Neither white space nor a capital letter. *)
Definition slug_char (c : ascii) : bool :=
  negb (is_space c) && Ascii.eqb (JSString.lower_char c) c.

End Extra.

(* ================================================================= *)
(** * Properties *)

Unset Implicit Arguments.

(** ** The address classifier *)

Section Classifier.

Import JSString AddressFormat.

Lemma existsb_is_empty (l : list string) :
  existsb is_empty l = true <-> In "" l.
Proof.
  rewrite existsb_exists. split.
  - intros [s [Hin Hs]]. destruct s; [assumption | discriminate].
  - intros Hin. exists "". split; [assumption | reflexivity].
Qed.

(** Repeating a character class between [lo] and [hi] times consumes the
    whole input exactly when the input has between [lo] and [hi]
    characters, all of them in the class. *)
Lemma repeat_class_consumes (ranges : list (ascii * ascii)) :
  forall hi lo s,
    In "" (repeat_step (rests (RClass ranges)) lo hi s) <->
    (lo <= String.length s <= hi)%nat /\ all_chars (in_class ranges) s = true.
Proof.
  induction hi as [| hi IH]; intros lo s; cbn [repeat_step]; rewrite in_app_iff.
  - split.
    + intros [H | []]. destruct (Nat.eqb_spec lo 0) as [-> | _]; [| destruct H].
      destruct H as [-> | []]. cbn. auto.
    + intros [[Hlo Hhi] _]. left. destruct s; cbn in Hhi; [| lia].
      replace lo with 0%nat by (cbn in Hlo; lia). cbn. auto.
  - rewrite in_flat_map. split.
    + intros [H | [s' [Hstep Hrest]]].
      * destruct (Nat.eqb_spec lo 0) as [-> | _]; [| destruct H].
        destruct H as [-> | []]. cbn. split; [lia | reflexivity].
      * destruct s as [| c s0]; cbn in Hstep; [destruct Hstep |].
        destruct (in_class ranges c) eqn:Hc; [| destruct Hstep].
        destruct Hstep as [Hs' | []]. rewrite <- Hs' in Hrest.
        apply IH in Hrest.
        destruct Hrest as [Hlen Hall]. cbn. rewrite Hc, Hall.
        split; [lia | reflexivity].
    + intros [Hlen Hall]. destruct s as [| c s0].
      * left. cbn in Hlen. replace lo with 0%nat by lia. cbn. auto.
      * right. cbn in Hall. apply andb_true_iff in Hall as [Hc Hall].
        exists s0. split.
        -- cbn. rewrite Hc. cbn. auto.
        -- apply IH. cbn in Hlen. split; [lia | assumption].
Qed.

Lemma all_chars_ext (p q : ascii -> bool) (s : string) :
  (forall c, p c = q c) -> all_chars p s = all_chars q s.
Proof.
  intros Hpq. induction s as [| c s IH]; cbn; [reflexivity |].
  now rewrite Hpq, IH.
Qed.

(** [[a-fA-F0-9]] is the set of hexadecimal digits. *)
Lemma hex_class (c : ascii) :
  in_class [("a", "f"); ("A", "F"); ("0", "9")]%char c = is_hex c.
Proof.
  destruct c as [[] [] [] [] [] [] [] []]; reflexivity.
Qed.

(** [[1-9A-HJ-NP-Za-km-z]] is the base58 alphabet. *)
Lemma base58_class (c : ascii) :
  in_class
    [("1", "9"); ("A", "H"); ("J", "N"); ("P", "Z"); ("a", "k"); ("m", "z")]%char
    c = is_base58 c.
Proof.
  destruct c as [[] [] [] [] [] [] [] []]; reflexivity.
Qed.

Lemma rests_char (c : ascii) (s t : string) :
  In t (rests (RChar c) s) <-> s = String c t.
Proof.
  destruct s as [| d s]; cbn [rests].
  - split; [intros [] | discriminate].
  - destruct (Ascii.eqb_spec c d) as [<- | Hne]; cbn.
    + split; [intros [<- | []]; reflexivity | intros [= <-]; auto].
    + split; [intros [] | intros [= Hd _]; congruence].
Qed.

Lemma rests_seq (r1 r2 : regex) (s t : string) :
  In t (rests (RSeq r1 r2) s) <->
  exists u, In u (rests r1 s) /\ In t (rests r2 u).
Proof. cbn [rests]. apply in_flat_map. Qed.

Lemma ethereum_regex_format (s : string) :
  test_anchored ETHEREUM_ADDRESS_RE s = true <-> ethereum_format s.
Proof.
  unfold test_anchored. rewrite existsb_is_empty.
  unfold ETHEREUM_ADDRESS_RE, ethereum_format.
  rewrite rests_seq. split.
  - intros [s1 [H0 H1]]. apply rests_char in H0. subst s.
    apply rests_seq in H1. destruct H1 as [s2 [Hx Hrep]].
    apply rests_char in Hx. subst s1.
    cbn [rests] in Hrep.
    apply repeat_class_consumes in Hrep. destruct Hrep as [Hlen Hall].
    exists s2. split; [reflexivity |]. split; [lia |].
    rewrite (all_chars_ext _ _ s2 hex_class) in Hall. assumption.
  - intros [body [-> [Hlen Hall]]].
    exists ("x" ++ body). split; [apply rests_char; reflexivity |].
    apply rests_seq. exists body. split; [apply rests_char; reflexivity |].
    cbn [rests]. apply repeat_class_consumes. split; [lia |].
    rewrite (all_chars_ext _ _ body hex_class). assumption.
Qed.

Lemma solana_regex_format (s : string) :
  test_anchored SOLANA_ADDRESS_RE s = true <-> solana_format s.
Proof.
  unfold test_anchored. rewrite existsb_is_empty.
  unfold SOLANA_ADDRESS_RE, solana_format.
  change (rests (RRep ?r ?lo ?hi) s) with (repeat_step (rests r) lo hi s).
  rewrite repeat_class_consumes.
  rewrite (all_chars_ext _ _ s base58_class). reflexivity.
Qed.

Lemma unrecognized_detected (address : string) :
  ~ ethereum_format address -> ~ solana_format address ->
  WalletService.detectBlockchain address = None /\
  WalletUtils.detectBlockchain address = WalletUtils.unknown.
Proof.
  intros He Hs.
  unfold WalletService.detectBlockchain, WalletUtils.detectBlockchain.
  destruct (test_anchored ETHEREUM_ADDRESS_RE address) eqn:Ee;
    [apply ethereum_regex_format in Ee; contradiction |].
  destruct (test_anchored SOLANA_ADDRESS_RE address) eqn:Es;
    [apply solana_regex_format in Es; contradiction |].
  split; reflexivity.
Qed.

(** No string has both formats: [0] is not in the base58 alphabet. *)
Lemma formats_disjoint (address : string) :
  solana_format address -> ~ ethereum_format address.
Proof.
  intros [_ Hall] (body & -> & _). cbn in Hall. discriminate Hall.
Qed.

Lemma solana_detected (address : string) :
  solana_format address ->
  WalletService.detectBlockchain address = Some solana.
Proof.
  intros Hs. pose proof (formats_disjoint address Hs) as He.
  unfold WalletService.detectBlockchain.
  destruct (test_anchored ETHEREUM_ADDRESS_RE address) eqn:Ee;
    [apply ethereum_regex_format in Ee; contradiction |].
  apply solana_regex_format in Hs. rewrite Hs. reflexivity.
Qed.

(** C5: the classifier of either module answers ethereum exactly on [0x]
    followed by 40 hexadecimal characters, solana exactly on 32 to 44
    base58 characters that are not an ethereum address, and nothing
    ([null], ['unknown']) on every other string. *)
Theorem detectBlockchain_classifies (address : string) :
  (WalletService.detectBlockchain address = Some ethereum
   <-> ethereum_format address) /\
  (WalletService.detectBlockchain address = Some solana
   <-> solana_format address /\ ~ ethereum_format address) /\
  (WalletService.detectBlockchain address = None
   <-> ~ ethereum_format address /\ ~ solana_format address) /\
  WalletUtils.detectBlockchain address =
    match WalletService.detectBlockchain address with
    | Some chain => WalletUtils.known chain
    | None => WalletUtils.unknown
    end.
Proof.
  unfold WalletService.detectBlockchain, WalletUtils.detectBlockchain.
  pose proof (ethereum_regex_format address) as He.
  pose proof (solana_regex_format address) as Hs.
  destruct (test_anchored ETHEREUM_ADDRESS_RE address);
    destruct (test_anchored SOLANA_ADDRESS_RE address);
    intuition (try discriminate; try congruence; auto).
Qed.

End Classifier.

(** ** Rules for the judgements *)

Section Rules.

Import Http Runtime Judgement.
Local Open Scope list_scope.

Context {A B : Type}.

Lemma bind_returned (m : M A) (k : A -> M B) (w w' : World) (a : A) :
  m w = (Returned a, w') -> bind m k w = k a w'.
Proof. unfold bind. intros ->. reflexivity. Qed.

Lemma bind_thrown (m : M A) (k : A -> M B) (w w' : World) (e : Exn) :
  m w = (Thrown e, w') -> bind m k w = (Thrown e, w').
Proof. unfold bind. intros ->. reflexivity. Qed.

Lemma try_catch_returned (m : M A) (h : Exn -> M A) (w w' : World) (a : A) :
  m w = (Returned a, w') -> try_catch m h w = (Returned a, w').
Proof. unfold try_catch. intros ->. reflexivity. Qed.

Lemma try_catch_thrown (m : M A) (h : Exn -> M A) (w w' : World) (e : Exn) :
  m w = (Thrown e, w') -> try_catch m h w = h e w'.
Proof. unfold try_catch. intros ->. reflexivity. Qed.

(** *** [returns] *)

Lemma returns_ret (a : A) (Q : A -> Prop) : Q a -> returns (ret a) Q.
Proof. intros H w. exact H. Qed.

Lemma returns_throw (e : Exn) (Q : A -> Prop) : returns (throw e) Q.
Proof. intros w. exact I. Qed.

Lemma returns_bind (m : M A) (k : A -> M B) (P : A -> Prop) (Q : B -> Prop) :
  returns m P -> (forall a, P a -> returns (k a) Q) -> returns (bind m k) Q.
Proof.
  intros Hm Hk w. specialize (Hm w). unfold bind.
  destruct (m w) as [[a | e] w']; cbn [fst] in *; [| exact I].
  apply (Hk a Hm w').
Qed.

Lemma returns_try_catch (m : M A) (h : Exn -> M A) (Q : A -> Prop) :
  returns m Q -> (forall e, returns (h e) Q) -> returns (try_catch m h) Q.
Proof.
  intros Hm Hh w. specialize (Hm w). unfold try_catch.
  destruct (m w) as [[a | e] w']; cbn [fst] in *; [exact Hm |].
  apply (Hh e w').
Qed.

Lemma returns_weaken (m : M A) (P Q : A -> Prop) :
  returns m P -> (forall a, P a -> Q a) -> returns m Q.
Proof.
  intros Hm HPQ w. specialize (Hm w).
  destruct (fst (m w)); [auto | exact I].
Qed.

Lemma returns_any (m : M A) : returns m (fun _ => True).
Proof. intros w. destruct (fst (m w)); exact I. Qed.

(** *** [succeeds] and [fails] *)

Lemma succeeds_ret (a : A) (Q : A -> Prop) : Q a -> succeeds (ret a) Q.
Proof. intros H w. exists a, w. split; [reflexivity | exact H]. Qed.

Lemma succeeds_bind (m : M A) (k : A -> M B) (P : A -> Prop) (Q : B -> Prop) :
  succeeds m P -> (forall a, P a -> succeeds (k a) Q) -> succeeds (bind m k) Q.
Proof.
  intros Hm Hk w. destruct (Hm w) as (a & w1 & Hrun & Ha).
  destruct (Hk a Ha w1) as (b & w2 & Hrun2 & Hb).
  exists b, w2. split; [| exact Hb].
  rewrite (bind_returned _ _ _ _ _ Hrun). exact Hrun2.
Qed.

Lemma succeeds_weaken (m : M A) (P Q : A -> Prop) :
  succeeds m P -> (forall a, P a -> Q a) -> succeeds m Q.
Proof.
  intros Hm HPQ w. destruct (Hm w) as (a & w' & Hrun & Ha).
  exists a, w'. auto.
Qed.

Lemma succeeds_returns (m : M A) (Q : A -> Prop) :
  succeeds m Q -> returns m Q.
Proof.
  intros H w. destruct (H w) as (a & w' & -> & Ha). exact Ha.
Qed.

(** A [try] whose handler returns never throws. *)
Lemma succeeds_try_catch (m : M A) (h : Exn -> M A) (Q : A -> Prop) :
  returns m Q -> (forall e, succeeds (h e) Q) -> succeeds (try_catch m h) Q.
Proof.
  intros Hm Hh w. specialize (Hm w). unfold try_catch.
  destruct (m w) as [[a | e] w']; cbn [fst] in *.
  - exists a, w'. auto.
  - apply Hh.
Qed.

Lemma succeeds_try_catch_failed (m : M A) (h : Exn -> M A) (Q : A -> Prop) :
  fails m -> (forall e, succeeds (h e) Q) -> succeeds (try_catch m h) Q.
Proof.
  intros Hm Hh w. destruct (Hm w) as (e & w' & Hrun).
  rewrite (try_catch_thrown _ _ _ _ _ Hrun). apply Hh.
Qed.

Lemma succeeds_try_catch_body (m : M A) (h : Exn -> M A) (Q : A -> Prop) :
  succeeds m Q -> succeeds (try_catch m h) Q.
Proof.
  intros Hm w. destruct (Hm w) as (a & w' & Hrun & Ha).
  exists a, w'. split; [apply try_catch_returned; exact Hrun | exact Ha].
Qed.

(** What holds of the result whenever a side condition does, holds of
    the one result there is. *)
Lemma succeeds_under (m : M A) (P Q : A -> Prop) (D : Prop) :
  succeeds m P -> (D -> succeeds m Q) ->
  succeeds m (fun a => P a /\ (D -> Q a)).
Proof.
  intros HP HQ w. destruct (HP w) as (a & w' & Hrun & Ha).
  exists a, w'. repeat split; auto.
  intros HD. destruct (HQ HD w) as (a2 & w2 & Hrun2 & Ha2).
  rewrite Hrun in Hrun2. injection Hrun2 as <- _. exact Ha2.
Qed.

Lemma fails_bind (m : M A) (k : A -> M B) : fails m -> fails (bind m k).
Proof.
  intros Hm w. destruct (Hm w) as (e & w' & Hrun).
  exists e, w'. apply bind_thrown. exact Hrun.
Qed.

Lemma fails_bind_after (m : M A) (k : A -> M B) (P : A -> Prop) :
  succeeds m P -> (forall a, P a -> fails (k a)) -> fails (bind m k).
Proof.
  intros Hm Hk w. destruct (Hm w) as (a & w1 & Hrun & Ha).
  destruct (Hk a Ha w1) as (e & w2 & Hrun2).
  exists e, w2. rewrite (bind_returned _ _ _ _ _ Hrun). exact Hrun2.
Qed.

(** *** [issues] *)

Lemma issues_silent (m : M A) (P : Call -> Prop) : silent m -> issues m P.
Proof. intros Hm w. exists []. split; [apply Hm | constructor]. Qed.

Lemma issues_bind (m : M A) (k : A -> M B) (P : Call -> Prop) :
  issues m P -> (forall a, issues (k a) P) -> issues (bind m k) P.
Proof.
  intros Hm Hk w. destruct (Hm w) as (new1 & Hc1 & HP1). unfold bind.
  destruct (m w) as [[a | e] w1]; cbn [snd] in *.
  - destruct (Hk a w1) as (new2 & Hc2 & HP2).
    exists (new2 ++ new1). rewrite Hc2, Hc1, app_assoc.
    split; [reflexivity | apply Forall_app; auto].
  - exists new1. auto.
Qed.

Lemma issues_try_catch (m : M A) (h : Exn -> M A) (P : Call -> Prop) :
  issues m P -> (forall e, issues (h e) P) -> issues (try_catch m h) P.
Proof.
  intros Hm Hh w. destruct (Hm w) as (new1 & Hc1 & HP1). unfold try_catch.
  destruct (m w) as [[a | e] w1]; cbn [snd] in *.
  - exists new1. auto.
  - destruct (Hh e w1) as (new2 & Hc2 & HP2).
    exists (new2 ++ new1). rewrite Hc2, Hc1, app_assoc.
    split; [reflexivity | apply Forall_app; auto].
Qed.

Lemma silent_ret (a : A) : silent (ret a).
Proof. intros w. reflexivity. Qed.

Lemma silent_throw (e : Exn) : silent (@throw A e).
Proof. intros w. reflexivity. Qed.

Lemma silent_member (o : option A) : silent (member o).
Proof. destruct o; intros w; reflexivity. Qed.

End Rules.

Section ListRules.

Import Http Runtime Judgement.
Local Open Scope list_scope.

Context {A B : Type}.


Lemma succeeds_mapM (f : A -> M B) (R : A -> B -> Prop) (xs : list A) :
  (forall x, In x xs -> succeeds (f x) (R x)) ->
  succeeds (mapM f xs) (Forall2 R xs).
Proof.
  induction xs as [| x xs IH]; intros Hf; cbn [mapM].
  - apply succeeds_ret. constructor.
  - eapply succeeds_bind; [apply Hf; left; reflexivity |]. intros y Hy.
    eapply succeeds_bind; [apply IH; intros; apply Hf; right; assumption |].
    intros ys Hys. apply succeeds_ret. constructor; assumption.
Qed.

Lemma issues_mapM (f : A -> M B) (P : Call -> Prop) :
  (forall x, issues (f x) P) -> forall xs, issues (mapM f xs) P.
Proof.
  intros Hf. induction xs as [| x xs IH]; cbn [mapM].
  - apply issues_silent, silent_ret.
  - apply issues_bind; [apply Hf |]. intros y.
    apply issues_bind; [apply IH |]. intros ys.
    apply issues_silent, silent_ret.
Qed.

Lemma returns_for_push (body : A -> M (option B)) (Q : B -> Prop) :
  (forall x, returns (body x)
               (fun pushed => match pushed with Some b => Q b | None => True end)) ->
  forall xs, returns (WalletService.for_push body xs) (Forall Q).
Proof.
  intros Hbody. induction xs as [| x xs IH]; cbn [WalletService.for_push].
  - apply returns_ret. constructor.
  - eapply returns_bind; [apply Hbody |]. intros pushed Hp.
    eapply returns_bind; [apply IH |]. intros rest Hrest.
    apply returns_ret. destruct pushed; [constructor |]; assumption.
Qed.

Lemma issues_for_push (body : A -> M (option B)) (P : Call -> Prop) :
  (forall x, issues (body x) P) ->
  forall xs, issues (WalletService.for_push body xs) P.
Proof.
  intros Hbody. induction xs as [| x xs IH]; cbn [WalletService.for_push].
  - apply issues_silent, silent_ret.
  - apply issues_bind; [apply Hbody |]. intros pushed.
    apply issues_bind; [apply IH |]. intros rest.
    apply issues_silent, silent_ret.
Qed.

End ListRules.


(** ** The dispatcher: spacing *)

Section Spacing.

Import Http Runtime WalletService Dispatch.
Local Open Scope list_scope.
Local Open Scope Z_scope.

Variable env : Env.

Ltac world_simpl :=
  unfold sleep, set_lastRequestTime, Date_now, get_lastRequestTime;
  cbn [snd fst now lastRequestTime calls timers].

Lemma stamped_facts (w : World) :
  let ws := stamped env w in
  lastRequestTime ws = now ws /\
  now w <= now ws /\
  lastRequestTime w + MIN_DELAY_MS <= now ws /\
  (MIN_DELAY_MS <= now w - lastRequestTime w -> now ws = now w) /\
  calls ws = calls w.
Proof.
  unfold stamped, MIN_DELAY_MS.
  destruct (Z.ltb_spec (now w - lastRequestTime w) 500); world_simpl;
    repeat split; lia.
Qed.

(** One round of [rateLimitedRequest]. *)
Lemma rateLimitedRequest_rec_eq (budget : nat) (config : Request)
    (retries : Z) (w : World) :
  rateLimitedRequest_rec env budget config retries w =
  match axios env true config (stamped env w) with
  | (Returned data, w2) => (Returned data, w2)
  | (Thrown error, w2) =>
      if retryable error && (retries <? MAX_RETRIES) then
        match budget with
        | S budget' =>
            rateLimitedRequest_rec env budget' config (retries + 1)
              (snd (sleep env (2 ^ retries * 1000) w2))
        | O => (Thrown error, snd (sleep env (2 ^ retries * 1000) w2))
        end
      else (Thrown error, w2)
  end.
Proof.
  destruct budget; cbn [rateLimitedRequest_rec]; unfold bind, try_catch, stamped;
    world_simpl;
    destruct (now w - lastRequestTime w <? MIN_DELAY_MS); unfold ret;
    world_simpl; cbn beta iota; world_simpl;
    match goal with |- context [axios env true config ?x] =>
      destruct (axios env true config x) as [[data | err] w2] end;
    try reflexivity;
    destruct (retryable err && (retries <? MAX_RETRIES)); reflexivity.
Qed.

Lemma axios_facts (dispatched : bool) (config : Request) (w : World) :
  let '(res, w2) := axios env dispatched config w in
  res = surfaced (respond env (List.length (calls w)) config) /\
  calls w2 =
    {| call_time := now w; call_request := config;
       call_dispatched := dispatched |} :: calls w /\
  now w <= now w2 /\
  lastRequestTime w2 = lastRequestTime w /\
  timers w2 = timers w.
Proof.
  unfold axios. destruct (respond env (List.length (calls w)) config);
    cbn [surfaced now lastRequestTime calls timers]; repeat split; lia.
Qed.

Lemma spaced_below_mono (gap b b' : Z) (ts : list Z) :
  b <= b' -> spaced_below gap b ts -> spaced_below gap b' ts.
Proof. destruct ts; cbn; [auto | intros ? [? ?]; split; [lia | assumption]]. Qed.

Lemma spaced_below_snoc (gap t t' : Z) (ts : list Z) : forall b,
  spaced_below gap b (ts ++ [t]) -> t' + gap <= t ->
  spaced_below gap b ((ts ++ [t]) ++ [t']).
Proof.
  induction ts as [| x ts IH]; cbn; intros b.
  - intros [Hb _] Ht. repeat split; [assumption | lia].
  - intros [Hb Hrest] Ht. split; [assumption | auto].
Qed.

Lemma spaced_below_join (gap t : Z) (ts old : list Z) : forall b,
  spaced_below gap b (ts ++ [t]) -> spaced_below gap t old ->
  spaced_below gap b (ts ++ old).
Proof.
  induction ts as [| x ts IH]; cbn; intros b.
  - intros [Hb _] Hold. apply spaced_below_mono with t; assumption.
  - intros [Hb Hrest] Hold. split; [assumption | auto].
Qed.

(** What every run of the dispatcher does to the world: it issues its
    attempts, the first of them once the spacing to the previous time
    stamp is satisfied, the next ones spaced again, and leaves the time
    of its latest attempt as the time stamp. *)
Lemma rateLimitedRequest_rec_spacing (budget : nat) :
  forall (config : Request) (retries : Z) (w : World),
    let '(_, w') := rateLimitedRequest_rec env budget config retries w in
    exists ts,
      calls w' = map (attempt config) ts ++ calls w /\
      last ts 0 = now (stamped env w) /\
      hd 0 ts = lastRequestTime w' /\
      ts <> [] /\
      spaced_below MIN_DELAY_MS (lastRequestTime w') (ts ++ [lastRequestTime w]) /\
      lastRequestTime w' <= now w'.
Proof.
  induction budget as [| budget IH]; intros config retries w;
    rewrite rateLimitedRequest_rec_eq;
    pose proof (stamped_facts w) as Hs; cbv zeta in Hs;
    destruct Hs as (Hstamp & Hnow & Hgap & _ & Hcalls);
    pose proof (axios_facts true config (stamped env w)) as Ha;
    destruct (axios env true config (stamped env w)) as [[data | err] w2];
    destruct Ha as (_ & Hc2 & Hn2 & Hl2 & _);
    try (exists [now (stamped env w)]; cbn [map app last hd spaced_below];
         rewrite Hc2, Hcalls, Hl2, Hstamp; unfold attempt;
         repeat split; (discriminate || lia)).
  - destruct (retryable err && (retries <? MAX_RETRIES));
      exists [now (stamped env w)]; cbn [map app last hd spaced_below];
      world_simpl; rewrite Hc2, Hcalls, Hl2, Hstamp; unfold attempt;
      repeat split; (discriminate || lia).
  - destruct (retryable err && (retries <? MAX_RETRIES)).
    + set (w3 := snd (sleep env (2 ^ retries * 1000) w2)).
      specialize (IH config (retries + 1) w3).
      destruct (rateLimitedRequest_rec env budget config (retries + 1) w3)
        as [res w'].
      destruct IH as (ts & Hc & Hlast & Hhd & Hne & Hsp & Hle).
      pose proof (stamped_facts w3) as Hs3. cbv zeta in Hs3.
      destruct Hs3 as (_ & _ & Hgap3 & _ & _).
      assert (Hl3 : lastRequestTime w3 = now (stamped env w))
        by (unfold w3; world_simpl; lia).
      assert (Hc3 : calls w3 = calls w2) by reflexivity.
      exists (ts ++ [now (stamped env w)]). repeat split.
      * rewrite Hc, Hc3, Hc2, Hcalls, map_app, <- app_assoc. reflexivity.
      * apply last_last.
      * destruct ts; [congruence | assumption].
      * destruct ts; discriminate.
      * rewrite Hl3 in Hsp. apply spaced_below_snoc; [assumption | lia].
      * assumption.
    + exists [now (stamped env w)]; cbn [map app last hd spaced_below];
        rewrite Hc2, Hcalls, Hl2, Hstamp; unfold attempt;
        repeat split; (discriminate || lia).
Qed.

Lemma spaced_below_bound (gap b : Z) (ts : list Z) :
  0 <= gap -> spaced_below gap b ts -> forall t, In t ts -> t <= b.
Proof.
  intros Hgap. revert b. induction ts as [| x ts IH]; cbn; intros b Hsp t Hin.
  - destruct Hin.
  - destruct Hsp as [Hx Hrest]. destruct Hin as [<- | Hin]; [assumption |].
    specialize (IH _ Hrest t Hin). lia.
Qed.

Lemma spaced_below_floor (gap t0 : Z) (ts : list Z) : forall b,
  0 <= gap -> spaced_below gap b (ts ++ [t0]) ->
  forall t, In t ts -> t0 + gap <= t.
Proof.
  induction ts as [| x ts IH]; cbn; intros b Hgap Hsp t Hin.
  - destruct Hin.
  - destruct Hsp as [Hx Hrest]. destruct Hin as [<- | Hin].
    + pose proof (spaced_below_bound _ _ _ Hgap Hrest t0) as Hb.
      rewrite in_app_iff in Hb. cbn in Hb. specialize (Hb (or_intror (or_introl eq_refl))).
      lia.
    + eapply IH; eassumption.
Qed.

Lemma dispatch_times_attempts (config : Request) (ts : list Z) (w w' : World) :
  calls w' = map (attempt config) ts ++ calls w ->
  dispatch_times w' = ts ++ dispatch_times w.
Proof.
  unfold dispatch_times. intros ->. rewrite filter_app, map_app. f_equal.
  induction ts as [| t ts IH]; cbn; [reflexivity | now rewrite IH].
Qed.

(** The summary of a single call that the sequential runs build on. *)
Lemma rateLimitedRequest_spacing (config : Request) (retries : Z) (w : World) :
  let w' := snd (rateLimitedRequest env config retries w) in
  lastRequestTime w + MIN_DELAY_MS <= lastRequestTime w' /\
  now w <= lastRequestTime w' /\
  lastRequestTime w' <= now w' /\
  (well_spaced w -> well_spaced w').
Proof.
  unfold rateLimitedRequest.
  pose proof (rateLimitedRequest_rec_spacing
                (Z.to_nat (MAX_RETRIES - retries)) config retries w) as H.
  destruct (rateLimitedRequest_rec env (Z.to_nat (MAX_RETRIES - retries))
              config retries w) as [res w'].
  cbn [snd]. destruct H as (ts & Hc & Hlast & Hhd & Hne & Hsp & Hle).
  pose proof (stamped_facts w) as Hs. cbv zeta in Hs.
  destruct Hs as (_ & Hnow & Hgap & _ & _).
  assert (Hg : 0 <= MIN_DELAY_MS) by (unfold MIN_DELAY_MS; lia).
  assert (Hin : In (hd 0 ts) ts) by (destruct ts; [congruence | left; reflexivity]).
  assert (Hin' : In (last ts 0) (ts ++ [lastRequestTime w])).
  { apply in_or_app. left. destruct ts; [congruence |].
    apply (@exists_last _ (z :: ts)) in Hne. destruct Hne as (l & a & Heq).
    rewrite Heq, last_last. apply in_or_app. right. left. reflexivity. }
  pose proof (spaced_below_floor _ _ _ _ Hg Hsp _ Hin) as Hfloor.
  pose proof (spaced_below_bound _ _ _ Hg Hsp _ Hin') as Hbound.
  repeat split; try lia.
  intros Hw. unfold well_spaced.
  rewrite (dispatch_times_attempts _ _ _ _ Hc).
  eapply spaced_below_join; eassumption.
Qed.

Lemma sequentialRequests_cons (config : Request) (configs : list Request)
    (w : World) :
  snd (sequentialRequests env (config :: configs) w) =
  snd (sequentialRequests env configs
         (snd (rateLimitedRequest env config 0 w))).
Proof.
  cbn [sequentialRequests]. unfold bind, try_catch, ret.
  destruct (rateLimitedRequest env config 0 w) as [[data | err] w1]; reflexivity.
Qed.

Lemma sequentialRequests_spacing (configs : list Request) : forall w : World,
  let w' := snd (sequentialRequests env configs w) in
  lastRequestTime w + Z.of_nat (List.length configs) * MIN_DELAY_MS
    <= lastRequestTime w' /\
  now w <= now w' /\
  (configs <> [] ->
   now w + (Z.of_nat (List.length configs) - 1) * MIN_DELAY_MS
     <= lastRequestTime w' /\
   lastRequestTime w' <= now w') /\
  (well_spaced w -> well_spaced w').
Proof.
  induction configs as [| config configs IH]; intros w.
  - cbn. repeat split; try lia; try congruence; auto.
  - cbv zeta. rewrite sequentialRequests_cons.
    pose proof (rateLimitedRequest_spacing config 0 w) as H1. cbv zeta in H1.
    set (w1 := snd (rateLimitedRequest env config 0 w)) in *.
    specialize (IH w1). cbv zeta in IH.
    set (w' := snd (sequentialRequests env configs w1)) in *.
    destruct H1 as (Ha & Hb & Hc & Hd). destruct IH as (Ia & Ib & Ic & Id).
    change (List.length (config :: configs)) with (S (List.length configs)).
    rewrite Nat2Z.inj_succ. unfold MIN_DELAY_MS in *.
    repeat split; try lia; auto.
    all: destruct configs as [| c cs];
      [ cbn in *; subst w'; cbn; lia
      | destruct Ic as [Ic1 Ic2]; [discriminate | lia] ].
Qed.

(** C4: every dispatcher call issues its request only when at least
    500 ms have passed since the shared time stamp (it is suspended until
    then, and not at all when they already have), and leaves the time of
    its latest attempt as the new time stamp; hence [N] calls made one
    after the other take at least [(N - 1) * 500] ms, and their requests
    are 500 ms apart. *)
Theorem dispatcher_spacing (config : Request) (retries : Z)
    (configs : list Request) (w : World) :
  (let w' := snd (rateLimitedRequest env config retries w) in
   exists ts,
     calls w' = map (attempt config) ts ++ calls w /\
     ts <> [] /\
     lastRequestTime w + 500 <= last ts 0 /\
     now w <= last ts 0 /\
     (500 <= now w - lastRequestTime w -> last ts 0 = now w) /\
     lastRequestTime w' = hd 0 ts) /\
  (let w' := snd (sequentialRequests env configs w) in
   (Z.of_nat (List.length configs) - 1) * 500 <= now w' - now w /\
   (well_spaced w -> well_spaced w') /\
   (calls w = [] -> spaced_below 500 (now w') (dispatch_times w'))).
Proof.
  split.
  - unfold rateLimitedRequest.
    pose proof (rateLimitedRequest_rec_spacing
                  (Z.to_nat (MAX_RETRIES - retries)) config retries w) as H.
    destruct (rateLimitedRequest_rec env (Z.to_nat (MAX_RETRIES - retries))
                config retries w) as [res w'].
    cbn [snd]. destruct H as (ts & Hc & Hlast & Hhd & Hne & Hsp & Hle).
    pose proof (stamped_facts w) as Hs. cbv zeta in Hs.
    destruct Hs as (_ & Hnow & Hgap & Hsame & _). unfold MIN_DELAY_MS in *.
    exists ts. rewrite Hlast. repeat split; auto; lia.
  - pose proof (sequentialRequests_spacing configs w) as H. cbv zeta in H.
    set (w' := snd (sequentialRequests env configs w)) in *.
    destruct H as (Ha & Hb & Hc & Hd). unfold MIN_DELAY_MS in *.
    repeat split.
    + destruct configs as [| c cs]; [cbn; lia |].
      destruct Hc as [Hc1 Hc2]; [discriminate |]. lia.
    + assumption.
    + intros Hnil.
      assert (Hw : well_spaced w) by (unfold well_spaced, dispatch_times; rewrite Hnil; exact I).
      specialize (Hd Hw). unfold well_spaced, MIN_DELAY_MS in Hd.
      destruct configs as [| c cs].
      * subst w'. cbn. unfold dispatch_times. rewrite Hnil. exact I.
      * destruct Hc as [_ Hc2]; [discriminate |].
        eapply spaced_below_mono; eassumption.
Qed.

End Spacing.

(** ** The dispatcher: retries *)

Section Retries.

Import Http Runtime WalletService Dispatch.
Local Open Scope list_scope.
Local Open Scope Z_scope.

Variable env : Env.

(** The statuses on which the dispatcher tries again are 429 and 5xx. *)
Lemma retryable_iff (error : Exn) :
  retryable error = true <->
  exists status,
    error = AxiosError (Some status) /\
    (status = 429 \/ 500 <= status < 600).
Proof.
  destruct error as [[status |] | |]; cbn.
  - rewrite orb_true_iff, andb_true_iff, Z.eqb_eq, Z.leb_le, Z.ltb_lt. split.
    + intros H. exists status. split; [reflexivity | lia].
    + intros [s [[= <-] H]]. lia.
  - split; [discriminate | intros [s [[=] _]]].
  - split; [discriminate | intros [s [[=] _]]].
  - split; [discriminate | intros [s [[=] _]]].
Qed.

Lemma surfaced_transient {A} (o : Outcome A) :
  match surfaced o with
  | Returned _ => transient o = false
  | Thrown error => transient o = retryable error
  end.
Proof. destruct o; reflexivity. Qed.

(** After [j] transient rejections the dispatcher has made [j + 1]
    attempts, each one backed off from the one before, and surfaces the
    outcome of the last of them: a result, a rejection it does not retry,
    or the rejection that exhausts [MAX_RETRIES]. *)
Lemma rateLimitedRequest_rec_schedule (config : Request) (j : nat) :
  forall (budget : nat) (retries : Z) (w : World),
    0 <= retries -> retries + Z.of_nat j <= MAX_RETRIES -> (j <= budget)%nat ->
    (forall i, (i < j)%nat ->
       transient (respond env (List.length (calls w) + i) config) = true) ->
    transient (respond env (List.length (calls w) + j) config) = false
    \/ retries + Z.of_nat j = MAX_RETRIES ->
    exists ts w',
      rateLimitedRequest_rec env budget config retries w =
        (surfaced (respond env (List.length (calls w) + j) config), w') /\
      calls w' = map (attempt config) ts ++ calls w /\
      List.length ts = S j /\
      last ts 0 = now (stamped env w) /\
      backed_off retries (rev ts) /\
      now w + (2 ^ Z.of_nat j - 1) * 2 ^ retries * 1000 <= hd 0 ts /\
      hd 0 ts <= now w'.
Proof.
  induction j as [| j IH]; intros budget retries w Hr Hmax Hb Hfail Hlast;
    rewrite rateLimitedRequest_rec_eq;
    pose proof (stamped_facts env w) as Hs; cbv zeta in Hs;
    destruct Hs as (Hstamp & Hnow & _ & _ & Hcalls);
    pose proof (axios_facts env true config (stamped env w)) as Ha;
    destruct (axios env true config (stamped env w)) as [res w2];
    destruct Ha as (Hres & Hc2 & Hn2 & Hl2 & Ht2);
    rewrite Hcalls in Hres, Hc2.
  - rewrite Nat.add_0_r in *.
    pose proof (surfaced_transient (respond env (List.length (calls w)) config)) as Htr.
    rewrite <- Hres in *.
    assert (Hdone : exists w',
               match res with
               | Returned data => (Returned data, w2)
               | Thrown error =>
                   if retryable error && (retries <? MAX_RETRIES)
                   then
                     match budget with
                     | S budget' =>
                         rateLimitedRequest_rec env budget' config (retries + 1)
                           (snd (sleep env (2 ^ retries * 1000) w2))
                     | O => (Thrown error, snd (sleep env (2 ^ retries * 1000) w2))
                     end
                   else (Thrown error, w2)
               end = (res, w') /\ w' = w2).
    { destruct res as [data | err]; [exists w2; auto |].
      destruct Hlast as [Hlast | Hlast].
      - rewrite <- Htr, Hlast. cbn. exists w2; auto.
      - replace (retries <? MAX_RETRIES) with false
          by (symmetry; apply Z.ltb_ge; cbn in Hlast; lia).
        rewrite andb_false_r. exists w2; auto. }
    destruct Hdone as (w' & -> & ->).
    exists [now (stamped env w)], w2. cbn [map app List.length last hd rev backed_off].
    rewrite Hc2. unfold attempt. repeat split; try reflexivity; cbn [Z.of_nat]; lia.
  - pose proof (Hfail 0%nat ltac:(lia)) as H0. rewrite Nat.add_0_r in H0.
    pose proof (surfaced_transient (respond env (List.length (calls w)) config)) as Htr.
    rewrite <- Hres in Htr. destruct res as [data | err]; [congruence |].
    rewrite <- Htr, H0.
    replace (retries <? MAX_RETRIES) with true
      by (symmetry; apply Z.ltb_lt; lia).
    cbn [andb]. destruct budget as [| budget]; [lia |].
    set (w3 := snd (sleep env (2 ^ retries * 1000) w2)).
    assert (Hc3 : calls w3 = attempt config (now (stamped env w)) :: calls w)
      by (unfold w3; cbn [sleep snd calls]; rewrite Hc2; reflexivity).
    assert (Hn3 : now w2 + 2 ^ retries * 1000 <= now w3).
    { unfold w3. cbn [sleep snd now].
      pose proof (Z.pow_nonneg 2 retries ltac:(lia)). lia. }
    assert (Hlen3 : List.length (calls w3) = S (List.length (calls w)))
      by (rewrite Hc3; reflexivity).
    destruct (IH budget (retries + 1) w3) as (ts & w' & Hrun & Hc & Hlen & Hfirst & Hback & Hcum & Hend).
    + lia.
    + lia.
    + lia.
    + intros i Hi. rewrite Hlen3. cbn [Nat.add].
      rewrite <- Nat.add_succ_r. apply Hfail. lia.
    + rewrite Hlen3. cbn [Nat.add]. rewrite <- Nat.add_succ_r.
      destruct Hlast as [Hlast | Hlast]; [left; assumption | right; lia].
    + rewrite Hlen3 in Hrun. cbn [Nat.add] in Hrun.
      rewrite <- Nat.add_succ_r in Hrun.
      pose proof (stamped_facts env w3) as Hs3. cbv zeta in Hs3.
      destruct Hs3 as (_ & Hnow3 & _ & _ & _).
      exists (ts ++ [now (stamped env w)]), w'. repeat split.
      * exact Hrun.
      * rewrite Hc, Hc3, map_app, <- app_assoc. reflexivity.
      * rewrite length_app, Hlen. cbn. lia.
      * apply last_last.
      * rewrite rev_app_distr. cbn [rev app].
        destruct (rev ts) as [| t1 later] eqn:Hrev.
        -- exact I.
        -- cbn [backed_off]. split; [| assumption].
           assert (Ht1 : t1 = last ts 0).
           { rewrite <- (rev_involutive ts), Hrev. cbn [rev].
             symmetry. apply last_last. }
           rewrite Ht1, Hfirst. lia.
      * destruct ts as [| t ts']; [discriminate |]. cbn [app hd] in *.
        rewrite Nat2Z.inj_succ, Z.pow_succ_r by lia.
        rewrite Z.pow_add_r in Hcum by lia.
        pose proof (Z.pow_nonneg 2 retries ltac:(lia)).
        pose proof (Z.pow_nonneg 2 (Z.of_nat j) ltac:(lia)).
        nia.
      * destruct ts as [| t ts']; [discriminate |]. exact Hend.
Qed.

(** The budget of the recursion is never used up: any budget that covers
    the retries that are left gives the run of [rateLimitedRequest]. *)
Lemma rateLimitedRequest_rec_budget (config : Request) (b1 : nat) :
  forall (b2 : nat) (retries : Z) (w : World),
    (Z.to_nat (MAX_RETRIES - retries) <= b1)%nat ->
    (Z.to_nat (MAX_RETRIES - retries) <= b2)%nat ->
    rateLimitedRequest_rec env b1 config retries w =
    rateLimitedRequest_rec env b2 config retries w.
Proof.
  induction b1 as [| b1 IH]; intros b2 retries w H1 H2;
    rewrite (rateLimitedRequest_rec_eq env _ config retries w);
    rewrite (rateLimitedRequest_rec_eq env b2 config retries w);
    destruct (axios env true config (stamped env w)) as [[data | err] w2];
    try reflexivity;
    destruct (Z.ltb_spec retries MAX_RETRIES) as [Hlt | Hge];
    rewrite ?andb_false_r; try reflexivity;
    destruct (retryable err); cbn [andb]; try reflexivity;
    unfold MAX_RETRIES in *.
  - lia.
  - destruct b2 as [| b2]; [lia |]. apply IH; lia.
Qed.

Lemma transient_retried {A} (o : Outcome A) :
  transient o = true <->
  exists status, o = Rejected status /\ retried_status status.
Proof.
  destruct o as [data | status]; cbn [transient].
  - split; [discriminate | intros [s [[=] _]]].
  - rewrite retryable_iff. unfold retried_status. split.
    + intros [s [[= ->] Hs]]. exists (Some s). split; [reflexivity |].
      exists s. auto.
    + intros [st [[= <-] [s [-> Hs]]]]. exists s. auto.
Qed.

(** C3: when the first [j] attempts of a call are rejected with status
    429 or 5xx, the dispatcher makes attempt number [j] no earlier than
    [2 ^ i] seconds after each attempt [i < j] (so after 1 s, 3 s, 7 s of
    backoff in total), and what it surfaces is the outcome of that
    attempt, reached in exactly [j + 1] attempts, whenever that outcome
    is a result or a rejection with another status (no retry at all when
    [j = 0]) or the fourth attempt ([j = 3]: the last error). *)
Theorem dispatcher_retries (config : Request) (w : World) (j : nat) :
  (j <= 3)%nat ->
  (forall i, (i < j)%nat ->
     exists status,
       respond env (List.length (calls w) + i) config = Rejected status /\
       retried_status status) ->
  (forall status,
     respond env (List.length (calls w) + j) config = Rejected status ->
     retried_status status -> j = 3%nat) ->
  exists ts w',
    rateLimitedRequest env config 0 w =
      (surfaced (respond env (List.length (calls w) + j) config), w') /\
    calls w' = map (attempt config) ts ++ calls w /\
    List.length ts = S j /\
    backed_off 0 (rev ts) /\
    now w + (2 ^ Z.of_nat j - 1) * 1000 <= hd 0 ts /\
    hd 0 ts <= now w'.
Proof.
  intros Hj Hfail Hlast. unfold rateLimitedRequest.
  destruct (rateLimitedRequest_rec_schedule config j
              (Z.to_nat (MAX_RETRIES - 0)) 0 w)
    as (ts & w' & Hrun & Hc & Hlen & _ & Hback & Hcum & Hend).
  - lia.
  - unfold MAX_RETRIES. lia.
  - unfold MAX_RETRIES. cbn. lia.
  - intros i Hi. apply transient_retried. auto.
  - destruct (transient (respond env (List.length (calls w) + j) config)) eqn:Ht.
    + right. apply transient_retried in Ht. destruct Ht as (status & Hst & Hre).
      rewrite (Hlast status Hst Hre). reflexivity.
    + left. reflexivity.
  - exists ts, w'. rewrite Z.pow_0_r, Z.mul_1_r in Hcum. auto 10.
Qed.

End Retries.

(** The responses 429, 429, 200: the result of the third attempt is
    returned, and that attempt is made 3 s after the call. *)
Lemma dispatcher_retries_witness :
  exists ts w',
    WalletService.rateLimitedRequest (Sample.scripted [429; 429; 200]%Z)
      (Http.CoinGeckoSimplePrice "ethereum") 0 (Sample.fresh 1000000) =
      (Runtime.Returned (Sample.empty_body (Http.CoinGeckoSimplePrice "ethereum")), w') /\
    Runtime.calls w' =
      (map (Dispatch.attempt (Http.CoinGeckoSimplePrice "ethereum")) ts ++ [])%list /\
    List.length ts = 3%nat /\
    Dispatch.backed_off 0 (rev ts) /\
    (1000000 + 3 * 1000 <= hd 0 ts)%Z /\
    (hd 0 ts <= Runtime.now w')%Z.
Proof.
  apply (dispatcher_retries (Sample.scripted [429; 429; 200]%Z)
           (Http.CoinGeckoSimplePrice "ethereum") (Sample.fresh 1000000) 2).
  - lia.
  - intros i Hi. exists (Some 429%Z). split.
    + destruct i as [| [| i]]; [reflexivity | reflexivity | lia].
    + exists 429%Z. split; [reflexivity | left; reflexivity].
  - intros status H. discriminate H.
Defined.

(** Four responses 429 in a row: the call fails with the last of them,
    after four attempts. *)
Example four_429_fail :
  let '(res, w') :=
    WalletService.rateLimitedRequest (Sample.scripted [429; 429; 429; 429]%Z)
      (Http.CoinGeckoSimplePrice "ethereum") 0 (Sample.fresh 1000000) in
  res = Runtime.Thrown (Runtime.AxiosError (Some 429%Z)) /\
  map Runtime.call_time (Runtime.calls w') = [1007000; 1003000; 1001000; 1000000]%Z.
Proof. vm_compute. split; reflexivity. Qed.

(** A response 404 is surfaced at once: one attempt, no timer. *)
Example status_404_propagates :
  let '(res, w') :=
    WalletService.rateLimitedRequest (Sample.scripted [404; 200]%Z)
      (Http.CoinGeckoSimplePrice "ethereum") 0 (Sample.fresh 1000000) in
  res = Runtime.Thrown (Runtime.AxiosError (Some 404%Z)) /\
  List.length (Runtime.calls w') = 1%nat /\ Runtime.timers w' = 0%nat.
Proof. vm_compute. repeat split; reflexivity. Qed.

(** ** The judgements on the transport and on the dispatcher *)

Section TransportRules.

Import Http Runtime WalletService Dispatch Judgement.
Local Open Scope list_scope.
Local Open Scope Z_scope.

Variable env : Env.

Lemma succeeds_axios (dispatched : bool) (r : Request) (data : Body r) :
  (forall k, respond env k r = Resolved data) ->
  succeeds (axios env dispatched r) (eq data).
Proof.
  intros H w. unfold axios. rewrite H. eexists _, _. split; reflexivity.
Qed.

Lemma fails_axios (dispatched : bool) (r : Request) :
  (forall k, exists status, respond env k r = Rejected status) ->
  fails (axios env dispatched r).
Proof.
  intros H w. unfold axios. destruct (H (List.length (calls w))) as [st ->].
  eexists _, _. reflexivity.
Qed.

Lemma issues_axios (dispatched : bool) (r : Request) (P : Call -> Prop) :
  (forall t, P {| call_time := t; call_request := r;
                  call_dispatched := dispatched |}) ->
  issues (axios env dispatched r) P.
Proof.
  intros HP w. pose proof (axios_facts env dispatched r w) as H.
  destruct (axios env dispatched r w) as [res w']. cbn [snd].
  destruct H as (_ & -> & _).
  exists [{| call_time := now w; call_request := r;
             call_dispatched := dispatched |}].
  split; [reflexivity | constructor; [apply HP | constructor]].
Qed.

Lemma succeeds_rateLimitedRequest (config : Request) (data : Body config) :
  (forall k, respond env k config = Resolved data) ->
  succeeds (rateLimitedRequest env config 0) (eq data).
Proof.
  intros H w. unfold rateLimitedRequest.
  destruct (rateLimitedRequest_rec_schedule env config 0
              (Z.to_nat (MAX_RETRIES - 0)) 0 w)
    as (ts & w' & Hrun & _).
  - lia.
  - unfold MAX_RETRIES. lia.
  - lia.
  - intros i Hi. lia.
  - left. rewrite H. reflexivity.
  - rewrite H in Hrun. exists data, w'. split; [exact Hrun | reflexivity].
Qed.

Lemma fails_rateLimitedRequest_rec (config : Request) :
  (forall k, exists status, respond env k config = Rejected status) ->
  forall budget retries, fails (rateLimitedRequest_rec env budget config retries).
Proof.
  intros H. induction budget as [| budget IH]; intros retries w;
    rewrite rateLimitedRequest_rec_eq;
    pose proof (axios_facts env true config (stamped env w)) as Ha;
    destruct (axios env true config (stamped env w)) as [res w2];
    destruct Ha as (Hres & _);
    destruct (H (List.length (calls (stamped env w)))) as [st Hst];
    rewrite Hst in Hres; cbn [surfaced] in Hres; subst res;
    destruct (retryable (AxiosError st) && (retries <? MAX_RETRIES));
    try (eexists _, _; reflexivity).
  apply IH.
Qed.

Lemma fails_rateLimitedRequest (config : Request) (retries : Z) :
  (forall k, exists status, respond env k config = Rejected status) ->
  fails (rateLimitedRequest env config retries).
Proof. intros H. apply fails_rateLimitedRequest_rec. exact H. Qed.

Lemma issues_rateLimitedRequest (config : Request) (retries : Z)
    (P : Call -> Prop) :
  (forall t, P (attempt config t)) ->
  issues (rateLimitedRequest env config retries) P.
Proof.
  intros HP w. unfold rateLimitedRequest.
  pose proof (rateLimitedRequest_rec_spacing env
                (Z.to_nat (MAX_RETRIES - retries)) config retries w) as H.
  destruct (rateLimitedRequest_rec env (Z.to_nat (MAX_RETRIES - retries))
              config retries w) as [res w'].
  destruct H as (ts & Hc & _). cbn [snd]. exists (map (attempt config) ts).
  split; [exact Hc |]. apply Forall_forall. intros c Hin.
  apply in_map_iff in Hin. destruct Hin as (t & <- & _). apply HP.
Qed.

(** What axios or the dispatcher returns is one of the answers of the
    upstream. *)
Lemma returns_axios_answer (dispatched : bool) (r : Request) :
  returns (axios env dispatched r)
          (fun data => exists k, respond env k r = Resolved data).
Proof.
  intros w. unfold axios.
  destruct (respond env (List.length (calls w)) r) eqn:Hr; cbn [fst];
    [exists (List.length (calls w)); exact Hr | exact I].
Qed.

Lemma returns_rateLimitedRequest_rec_answer (config : Request) :
  forall budget retries,
    returns (rateLimitedRequest_rec env budget config retries)
            (fun data => exists k, respond env k config = Resolved data).
Proof.
  induction budget as [| budget IH]; intros retries w;
    rewrite rateLimitedRequest_rec_eq;
    pose proof (axios_facts env true config (stamped env w)) as Ha;
    destruct (axios env true config (stamped env w)) as [[data | err] w2];
    destruct Ha as (Hres & _);
    try (cbn [fst];
         destruct (respond env (List.length (calls (stamped env w))) config)
           as [data' | status] eqn:Hr; cbn [surfaced] in Hres;
         [injection Hres as ->; eexists; exact Hr | discriminate Hres]);
    destruct (retryable err && (retries <? MAX_RETRIES));
    try exact I.
  apply IH.
Qed.

Lemma returns_rateLimitedRequest_answer (config : Request) (retries : Z) :
  returns (rateLimitedRequest env config retries)
          (fun data => exists k, respond env k config = Resolved data).
Proof. apply returns_rateLimitedRequest_rec_answer. Qed.

Lemma silent_Date_now : silent Date_now.
Proof. intros w. reflexivity. Qed.

End TransportRules.

(** ** The aggregator on unrecognized addresses and without a Helius key *)

Section Aggregator.

Import JSNumber Http Runtime Judgement AddressFormat.
Local Open Scope list_scope.

(** C2: on a string that has neither format both [getWalletData] fail
    with their invalid address error (the one of the services module
    throws it, the one of the wallet directory returns it as
    [{ error }]), and the world is left as it was: no outbound call has
    been made. *)
Theorem unrecognized_address_rejected (env : Env) (HELIUS_API_KEY : string)
    (toLocaleString : number -> string) (address : string) (w : World) :
  ~ ethereum_format address -> ~ solana_format address ->
  WalletService.getWalletData env HELIUS_API_KEY address w =
    (Thrown (Error "Invalid wallet address"), w) /\
  Wallet.getWalletData env toLocaleString address w =
    (Returned
       (inr {| Wallet.error := "Unsupported blockchain or invalid address format" |}),
     w).
Proof.
  intros He Hs.
  destruct (unrecognized_detected address He Hs) as [Hd Hutils].
  unfold WalletService.getWalletData, Wallet.getWalletData.
  rewrite Hutils, Hd. split; reflexivity.
Qed.

Lemma scripted_nil (k : nat) (r : Request) :
  respond (Sample.scripted []) k r = Resolved (Sample.empty_body r).
Proof. destruct k; reflexivity. Qed.

Ltac run_ret :=
  eapply succeeds_bind with (P := eq _);
  [apply succeeds_ret; reflexivity | intros ? <-].

Ltac run_request :=
  eapply succeeds_bind with (P := eq _);
  [apply succeeds_rateLimitedRequest; intros k; apply scripted_nil
  | intros ? <-].

Lemma empty_solana_wallet (key address : string) :
  key <> "" ->
  succeeds
    (WalletService.getSolanaWalletData (Sample.scripted []) key address)
    (eq (Sample.empty_wallet address)).
Proof.
  intros Hkey. unfold WalletService.getSolanaWalletData.
  destruct key as [| c key]; [congruence |]. cbn [JSString.is_empty].
  apply succeeds_try_catch_body.
  run_request. cbn [Sample.empty_body member].
  run_ret. run_request. cbn [Sample.empty_body member].
  run_ret. cbn [mapM]. run_ret. run_request.
  cbn [Sample.empty_body firstn WalletService.for_push]. run_ret.
  eapply succeeds_bind with (P := eq zero).
  - apply succeeds_try_catch_body. run_request.
    apply succeeds_ret. reflexivity.
  - intros ? <-. apply succeeds_ret. reflexivity.
Qed.

(** C9: with an empty [HELIUS_API_KEY] the Solana adapter, and so
    [getWalletData] on an address of the Solana format, returns balance
    ["0"], [balanceUsd] 0 and no token or transaction, and leaves the
    world as it was (no outbound call); a wallet that holds nothing gives
    the same snapshot when the key is set. *)
Theorem missing_helius_key (env : Env) (address : string) (w : World) :
  solana_format address ->
  WalletService.getSolanaWalletData env "" address w =
    (Returned (Sample.empty_wallet address), w) /\
  WalletService.getWalletData env "" address w =
    (Returned (Sample.empty_wallet address), w) /\
  (forall key, key <> "" ->
     fst (WalletService.getSolanaWalletData (Sample.scripted []) key address w)
     = Returned (Sample.empty_wallet address)).
Proof.
  intros Hs.
  unfold WalletService.getWalletData. rewrite (solana_detected address Hs).
  repeat split.
  intros key Hkey.
  destruct (empty_solana_wallet key address Hkey w) as (data & w' & -> & <-).
  reflexivity.
Qed.

End Aggregator.

Lemma unrecognized_address_rejected_witness :
  WalletService.getWalletData (Sample.scripted []) "key" "bad" (Sample.fresh 1000000) =
    (Runtime.Thrown (Runtime.Error "Invalid wallet address"), Sample.fresh 1000000) /\
  Wallet.getWalletData (Sample.scripted []) JSNumber.toString "bad" (Sample.fresh 1000000) =
    (Runtime.Returned
       (inr {| Wallet.error := "Unsupported blockchain or invalid address format" |}),
     Sample.fresh 1000000).
Proof.
  apply (unrecognized_address_rejected (Sample.scripted []) "key"
           JSNumber.toString "bad" (Sample.fresh 1000000)).
  - intros (body & H & _). discriminate H.
  - intros ((H & _) & _). cbn in H. lia.
Defined.

Lemma missing_helius_key_witness :
  let address := "4Nd1mBQtrMJVYVfKf2PJy9NZUZdTAsp7D4xWLs4gDB4T" in
  let empty :=
    {| WalletService.wd_address := address;
       WalletService.wd_blockchain := solana;
       WalletService.wd_balance := "0";
       WalletService.wd_balanceUsd := JSNumber.zero;
       WalletService.wd_tokens := [];
       WalletService.wd_transactions := [] |} in
  WalletService.getSolanaWalletData (Sample.scripted [500]%Z) "" address
    (Sample.fresh 1000000) = (Runtime.Returned empty, Sample.fresh 1000000) /\
  WalletService.getWalletData (Sample.scripted [500]%Z) "" address
    (Sample.fresh 1000000) = (Runtime.Returned empty, Sample.fresh 1000000) /\
  (forall key, key <> "" ->
     fst (WalletService.getSolanaWalletData (Sample.scripted []) key address
            (Sample.fresh 1000000)) = Runtime.Returned empty).
Proof.
  apply (missing_helius_key (Sample.scripted [500]%Z)
           "4Nd1mBQtrMJVYVfKf2PJy9NZUZdTAsp7D4xWLs4gDB4T" (Sample.fresh 1000000)).
  split; [cbn; lia | reflexivity].
Defined.

(** ** Which requests go through the dispatcher *)

Section Routes.

Import JSNumber Http Runtime WalletService Dispatch Judgement.
Local Open Scope list_scope.

Variable env : Env.

Ltac issues_step :=
  match goal with
  | |- issues (bind _ _) _ => apply issues_bind; [| intros ?]
  | |- issues (try_catch _ _) _ => apply issues_try_catch; [| intros ?]
  | |- issues (mapM _ _) _ => apply issues_mapM; intros ?
  | |- issues (for_push _ _) _ => apply issues_for_push; intros ?
  | |- issues (axios _ _ _) _ => apply issues_axios; intros ?; reflexivity
  | |- issues (rateLimitedRequest _ _ _) _ =>
      apply issues_rateLimitedRequest; intros ?; reflexivity
  | |- issues (ret _) _ => apply issues_silent, silent_ret
  | |- issues (throw _) _ => apply issues_silent, silent_throw
  | |- issues (member _) _ => apply issues_silent, silent_member
  | |- issues Date_now _ => apply issues_silent, silent_Date_now
  | |- issues (match ?x with _ => _ end) _ => destruct x
  end.

Lemma issues_solana (key address : string) :
  issues (getSolanaWalletData env key address)
         (fun c => call_dispatched c = true).
Proof.
  unfold getSolanaWalletData, solanaToken, solanaSignature.
  repeat issues_step.
Qed.

Lemma issues_ethereum (address : string) :
  issues (getEthereumWalletData env address)
         (fun c => call_dispatched c = is_market_data (call_request c)).
Proof.
  unfold getEthereumWalletData, ethereumToken.
  repeat issues_step.
Qed.

Lemma issues_wallet_ethereum (toLocaleString : number -> string)
    (address : string) :
  issues (Wallet.getEthereumWalletData env toLocaleString address)
         (fun c => call_dispatched c = false).
Proof.
  unfold Wallet.getEthereumWalletData, Wallet.ethereumToken,
    Wallet.getTokenPrice, Wallet.getTokenLogo.
  repeat issues_step.
Qed.

Lemma issues_wallet_solana (toLocaleString : number -> string)
    (address : string) :
  issues (Wallet.getSolanaWalletData env toLocaleString address)
         (fun c => call_dispatched c = false).
Proof.
  unfold Wallet.getSolanaWalletData, Wallet.solanaToken,
    Wallet.solanaSignature, Wallet.getTokenPrice.
  repeat issues_step.
Qed.

(** C6, as the code has it: in the services module every request of the
    Solana adapter goes through [rateLimitedRequest], and of the requests
    of the Ethereum adapter exactly those to the market data provider
    do; the requests for the balance, the token listing, the metadata of
    a token and the transaction list are handed to axios directly, and so
    are all the requests of the adapters of the wallet directory. *)
Theorem outbound_routes (key address : string)
    (toLocaleString : number -> string) :
  issues (getSolanaWalletData env key address)
         (fun c => call_dispatched c = true) /\
  issues (getEthereumWalletData env address)
         (fun c => call_dispatched c = is_market_data (call_request c)) /\
  issues (Wallet.getEthereumWalletData env toLocaleString address)
         (fun c => call_dispatched c = false) /\
  issues (Wallet.getSolanaWalletData env toLocaleString address)
         (fun c => call_dispatched c = false).
Proof.
  split; [apply issues_solana |].
  split; [apply issues_ethereum |].
  split; [apply issues_wallet_ethereum | apply issues_wallet_solana].
Qed.

End Routes.

(** An Ethereum fetch of the services module: the six requests to the node
    provider and to the explorer are not issued by the dispatcher, the
    four to the market data provider are. *)
Lemma ethereum_requests_bypass_dispatcher :
  let w' :=
    snd (WalletService.getWalletData (Sample.upstream [] [] []) "key"
           Sample.ethereum_address (Sample.fresh 1000000)) in
  let requests (dispatched : bool) :=
    map Runtime.call_request
        (filter (fun c => Bool.eqb (Runtime.call_dispatched c) dispatched)
                (rev (Runtime.calls w'))) in
  requests false =
    [ Http.EthGetBalance Sample.ethereum_address;
      Http.AlchemyGetTokenBalances Sample.ethereum_address;
      Http.AlchemyGetTokenMetadata Sample.contract_a;
      Http.AlchemyGetTokenMetadata Sample.contract_b;
      Http.AlchemyGetTokenMetadata Sample.contract_c;
      Http.EtherscanTxList Sample.ethereum_address ]%list /\
  requests true =
    [ Http.CoinGeckoTokenPrice "ethereum" Sample.contract_a;
      Http.CoinGeckoTokenPrice "ethereum" Sample.contract_b;
      Http.CoinGeckoTokenPrice "ethereum" Sample.contract_c;
      Http.CoinGeckoSimplePrice "ethereum" ]%list /\
  ~ Forall (fun c => Runtime.call_dispatched c = true) (Runtime.calls w').
Proof.
  split; [vm_compute; reflexivity |]. split; [vm_compute; reflexivity |].
  intros H. rewrite Forall_forall in H.
  specialize (H {| Runtime.call_time := 1000000%Z;
                   Runtime.call_request := Http.EthGetBalance Sample.ethereum_address;
                   Runtime.call_dispatched := false |}).
  discriminate H. vm_compute. auto 12.
Qed.

(** ** The transactions and the balances the adapters report *)

Section Transactions.

Import JSNumber Http Runtime Judgement Reported.
Local Open Scope list_scope.

Variable env : Env.
Variable toLocaleString : number -> string.

Lemma ethereumTransaction_reported (address : string) (tx : EtherscanTx) :
  by_service address tx (WalletService.ethereumTransaction address tx).
Proof.
  unfold by_service, WalletService.ethereumTransaction, same_address.
  cbn [WalletService.tx_hash WalletService.tx_from WalletService.tx_to
       WalletService.tx_type WalletService.tx_fee WalletService.tx_status].
  destruct (String.eqb_spec (etx_isError tx) "0") as [E | E];
    repeat split; try reflexivity; try congruence; try discriminate.
Qed.

Lemma wallet_ethereumTransaction_reported (address : string) (tx : EtherscanTx) :
  by_wallet toLocaleString address tx
    (Wallet.ethereumTransaction toLocaleString address tx).
Proof.
  unfold by_wallet, Wallet.ethereumTransaction, same_address.
  cbn [Wallet.tx_hash Wallet.tx_from Wallet.tx_to
       Wallet.tx_type Wallet.tx_fee Wallet.tx_status].
  destruct (String.eqb_spec (etx_isError tx) "0") as [E | E];
    repeat split; try reflexivity; try congruence; try discriminate.
Qed.

Lemma Forall_map_intro {X Y} (f : X -> Y) (Q : Y -> Prop) (xs : list X) :
  (forall x, Q (f x)) -> Forall Q (map f xs).
Proof. intros H. induction xs; cbn; constructor; auto. Qed.

Lemma Forall2_map_intro {X Y} (f : X -> Y) (R : X -> Y -> Prop) (xs : list X) :
  (forall x, R x (f x)) -> Forall2 R xs (map f xs).
Proof. intros H. induction xs; cbn; constructor; auto. Qed.

Ltac skip_step :=
  match goal with
  | |- returns (bind _ _) _ =>
      eapply returns_bind; [apply returns_any | intros ? _]
  end.

(** C7, as the code has it: the transactions an Ethereum adapter returns
    are, one for one and in order, the entries of the list the explorer
    answered with for the address (in the services module: of an answer
    with status ['1'], and none otherwise).  The transaction of an entry
    has its hash, [from] and [to]; its type is ['send'] when [from]
    equals the queried address up to case, and otherwise ['receive'] in
    the services module (never ['other']), while the wallet directory
    says ['receive'] when [to] equals the address up to case and
    ['other'] when neither does; its fee is [gasPrice * gasUsed] of the
    entry divided by [1e18] (printed by [toString], by [formatBalance] in
    the wallet directory); its status is ['success'] exactly when the
    entry's [isError] is ['0'] and ['failed'] otherwise. *)
Theorem ethereum_transactions_reported (address : string) :
  returns (WalletService.getEthereumWalletData env address)
    (fun data =>
       service_transactions env address (WalletService.wd_transactions data)) /\
  returns (Wallet.getEthereumWalletData env toLocaleString address)
    (fun data =>
       wallet_transactions env toLocaleString address
         (Wallet.wd_transactions data)).
Proof.
  split.
  - unfold WalletService.getEthereumWalletData.
    apply returns_try_catch; [| intros e; apply returns_throw].
    do 4 skip_step.
    eapply returns_bind; [apply returns_axios_answer |].
    intros txResponse [k Hk].
    skip_step. apply returns_ret. cbn [WalletService.wd_transactions].
    exists k, txResponse. split; [exact Hk |]. unfold listed_entries.
    destruct txResponse as [data |]; [| constructor].
    destruct (es_result data) as [txs |]; [| constructor].
    destruct (String.eqb (es_status data) "1"); [| constructor].
    apply Forall2_map_intro. apply ethereumTransaction_reported.
  - unfold Wallet.getEthereumWalletData.
    apply returns_try_catch; [| intros e; apply returns_throw].
    do 4 skip_step.
    eapply returns_bind; [apply returns_axios_answer |].
    intros txResponse [k Hk].
    destruct txResponse as [data |]; cbn [member];
      [| eapply returns_bind with (P := fun _ => False);
         [apply returns_throw | intros ? []]].
    eapply returns_bind with (P := eq data);
      [apply returns_ret; reflexivity | intros ? <-].
    destruct (es_result data) as [txs |] eqn:Hresult; cbn [member];
      [| eapply returns_bind with (P := fun _ => False);
         [apply returns_throw | intros ? []]].
    eapply returns_bind with (P := eq txs);
      [apply returns_ret; reflexivity | intros ? <-].
    apply returns_ret. cbn [Wallet.wd_transactions].
    exists k, data, txs. split; [exact Hk |]. split; [exact Hresult |].
    apply Forall2_map_intro. apply wallet_ethereumTransaction_reported.
Qed.

Lemma zero_fee_printed (s : bool) :
  toString (div zero (of_Z (10 ^ 9))) =
  toString (div (S754_zero s) (of_Z (10 ^ 9))).
Proof. destruct s; vm_compute; reflexivity. Qed.

Lemma solanaTransaction_fee_only (address signature : string) (nowMs : Z)
    (txDetails : SolTxDetails) :
  let t := WalletService.solanaTransaction address signature nowMs txDetails in
  WalletService.tx_hash t = signature /\
  fee_only txDetails (WalletService.tx_to t) (WalletService.tx_value t)
           (WalletService.tx_fee t).
Proof.
  cbv zeta. unfold WalletService.solanaTransaction, fee_only.
  cbn [WalletService.tx_hash WalletService.tx_to WalletService.tx_value
       WalletService.tx_fee].
  split; [reflexivity |]. split; [reflexivity |]. split; [reflexivity |].
  destruct (std_meta txDetails) as [meta |]; [| vm_compute; reflexivity].
  intros lamports Hfee Hnumber. rewrite Hfee.
  unfold WalletService.number_or, WalletService.lit_1e9.
  destruct lamports as [s | s | | s m e]; cbn [falsy];
    [apply zero_fee_printed | reflexivity | contradiction | reflexivity].
Qed.

Lemma wallet_solanaTransaction_fee_only (address signature : string)
    (nowMs : Z) (txDetails : SolTxDetails) :
  let t := Wallet.solanaTransaction address signature nowMs txDetails in
  Wallet.tx_hash t = signature /\
  fee_only txDetails (Wallet.tx_to t) (Wallet.tx_value t) (Wallet.tx_fee t).
Proof.
  cbv zeta. unfold Wallet.solanaTransaction, fee_only.
  cbn [Wallet.tx_hash Wallet.tx_to Wallet.tx_value Wallet.tx_fee].
  split; [reflexivity |]. split; [reflexivity |]. split; [reflexivity |].
  destruct (std_meta txDetails) as [meta |]; [| vm_compute; reflexivity].
  intros lamports Hfee _. rewrite Hfee. reflexivity.
Qed.

Lemma solanaSignature_fee_only (address : string) (sig : option string) :
  returns (WalletService.solanaSignature env address sig)
    (fun pushed =>
       match pushed with
       | Some t =>
           reports_fee env (WalletService.tx_hash t) (WalletService.tx_to t)
             (WalletService.tx_value t) (WalletService.tx_fee t)
       | None => True
       end).
Proof.
  unfold WalletService.solanaSignature.
  destruct sig as [signature |]; [| apply returns_ret; exact I].
  destruct (JSString.is_empty signature); [apply returns_ret; exact I |].
  apply returns_try_catch; [| intros e; apply returns_ret; exact I].
  eapply returns_bind; [apply returns_rateLimitedRequest_answer |].
  intros [txDetails |] [k Hk].
  - eapply returns_bind; [apply returns_any | intros nowMs _].
    apply returns_ret.
    destruct (solanaTransaction_fee_only address signature nowMs txDetails)
      as [Hhash Hfee].
    exists txDetails. split; [| exact Hfee].
    exists k. rewrite Hhash. exact Hk.
  - apply returns_ret. exact I.
Qed.

Lemma wallet_solanaSignature_fee_only (address : string) (sig : option string) :
  returns (Wallet.solanaSignature env address sig)
    (fun pushed =>
       match pushed with
       | Some t =>
           reports_fee env (Wallet.tx_hash t) (Wallet.tx_to t)
             (Wallet.tx_value t) (Wallet.tx_fee t)
       | None => True
       end).
Proof.
  unfold Wallet.solanaSignature.
  apply returns_try_catch;
    [| intros e; skip_step; apply returns_ret; exact I].
  eapply returns_bind; [apply returns_any | intros signature _].
  eapply returns_bind; [apply returns_axios_answer |].
  intros [txDetails |] [k Hk].
  - eapply returns_bind; [apply returns_any | intros nowMs _].
    apply returns_ret.
    destruct (wallet_solanaTransaction_fee_only address signature nowMs
                txDetails) as [Hhash Hfee].
    exists txDetails. split; [| exact Hfee].
    exists k. rewrite Hhash. exact Hk.
  - apply returns_ret. exact I.
Qed.

(** C10: every transaction that a Solana adapter returns was pushed for
    a signature whose details the node gave, and in it [to] is the empty
    string and [value] is the same string as [fee]: the [fee] of those
    details' [meta], in lamports, divided by [1e9] (["0"] when the
    details have no [meta]); the amount moved and the recipient do not
    enter it. *)
Theorem solana_transactions_fee_only (key address : string) :
  returns (WalletService.getSolanaWalletData env key address)
    (fun data =>
       Forall (fun t =>
                 reports_fee env (WalletService.tx_hash t)
                   (WalletService.tx_to t) (WalletService.tx_value t)
                   (WalletService.tx_fee t))
              (WalletService.wd_transactions data)) /\
  returns (Wallet.getSolanaWalletData env toLocaleString address)
    (fun data =>
       Forall (fun t =>
                 reports_fee env (Wallet.tx_hash t) (Wallet.tx_to t)
                   (Wallet.tx_value t) (Wallet.tx_fee t))
              (Wallet.wd_transactions data)).
Proof.
  split.
  - unfold WalletService.getSolanaWalletData.
    apply returns_try_catch; [| intros e; apply returns_throw].
    destruct (JSString.is_empty key); [apply returns_ret; constructor |].
    do 6 skip_step.
    eapply returns_bind;
      [apply returns_for_push; apply solanaSignature_fee_only |].
    intros transactions Htxs. skip_step. apply returns_ret. exact Htxs.
  - unfold Wallet.getSolanaWalletData.
    apply returns_try_catch; [| intros e; apply returns_throw].
    do 9 skip_step.
    eapply returns_bind;
      [apply returns_for_push; apply wallet_solanaSignature_fee_only |].
    intros transactions Htxs. apply returns_ret. exact Htxs.
Qed.

End Transactions.

(** A transfer between two third parties in the explorer's list: the
    services module reports it as ['receive'], not as ['other']. *)
Lemma third_party_transfer_is_receive :
  Reported.same_address (Http.etx_from Sample.third_party_transfer)
                        Sample.ethereum_address = false /\
  Reported.same_address (Http.etx_to Sample.third_party_transfer)
                        Sample.ethereum_address = false /\
  match
    fst (WalletService.getWalletData (Sample.upstream [] [] []) "key"
           Sample.ethereum_address (Sample.fresh 1000000))
  with
  | Runtime.Returned data =>
      map WalletService.tx_type (WalletService.wd_transactions data) = ["receive"]
  | Runtime.Thrown _ => False
  end.
Proof. vm_compute. repeat split; reflexivity. Qed.

(** The transactions of a Solana fetch: no recipient, and the fee as the
    value, though the transfer moved a whole SOL. *)
Example solana_transfer_reported :
  match
    fst (WalletService.getWalletData (Sample.upstream [] [] []) "key"
           Sample.solana_address (Sample.fresh 1000000))
  with
  | Runtime.Returned data =>
      map (fun t => (WalletService.tx_to t, WalletService.tx_value t,
                     WalletService.tx_fee t, WalletService.tx_type t))
          (WalletService.wd_transactions data) =
      [("", "0.000005", "0.000005", "send");
       ("", "0.000005", "0.000005", "send");
       ("", "0.000005", "0.000005", "send")]
  | Runtime.Thrown _ => False
  end.
Proof. vm_compute. reflexivity. Qed.

Section Balances.

Import JSNumber Http Runtime Judgement Absorbed.
Local Open Scope list_scope.

Variable env : Env.
Variable toLocaleString : number -> string.

Ltac skip_step :=
  match goal with
  | |- returns (bind _ _) _ =>
      eapply returns_bind; [apply returns_any | intros ? _]
  end.

Ltac known_step H :=
  eapply returns_bind with (P := eq _);
  [ apply succeeds_returns;
    match goal with
    | |- succeeds (axios ?e ?d ?r) _ => exact (succeeds_axios e d r _ H)
    | |- succeeds (WalletService.rateLimitedRequest ?e ?r _) _ =>
        exact (succeeds_rateLimitedRequest e r _ H)
    end
  | intros ? <- ].

(** C8, as the code has it: the services module reports 10^18 wei
    (["0xde0b6b3a7640000"]) as ["1"] and 10^9 lamports as ["1"]; the
    adapters of the wallet directory pass the same amounts through
    [formatBalance], which prints amounts from 1 up to 1000 with four
    decimals: ["1.0000"]. *)
Theorem whole_unit_balances (key eth_address sol_address : string) :
  key <> "" ->
  up env (EthGetBalance eth_address) (Some "0xde0b6b3a7640000") ->
  up env (HeliusGetBalance sol_address) (Some (of_Z 1000000000)) ->
  returns (WalletService.getEthereumWalletData env eth_address)
          (fun data => WalletService.wd_balance data = "1") /\
  returns (WalletService.getSolanaWalletData env key sol_address)
          (fun data => WalletService.wd_balance data = "1") /\
  returns (Wallet.getEthereumWalletData env toLocaleString eth_address)
          (fun data => Wallet.wd_nativeBalance data = "1.0000") /\
  returns (Wallet.getSolanaWalletData env toLocaleString sol_address)
          (fun data => Wallet.wd_nativeBalance data = "1.0000") /\
  toString (div (parseInt "0xde0b6b3a7640000" 16) WalletService.lit_1e18) = "1" /\
  toString (div (of_Z 1000000000) WalletService.lit_1e9) = "1" /\
  Wallet.formatBalance toLocaleString
    (Wallet.raw_string (toString (parseInt "0xde0b6b3a7640000" 16))) 18
    = "1.0000" /\
  Wallet.formatBalance toLocaleString (Wallet.raw_number (of_Z 1000000000)) 9
    = "1.0000".
Proof.
  intros Hkey Heth Hsol.
  split; [| split; [| split; [| split; [| repeat split; vm_compute; reflexivity]]]].
  - unfold WalletService.getEthereumWalletData.
    apply returns_try_catch; [| intros e; apply returns_throw].
    known_step Heth. repeat skip_step. apply returns_ret.
    vm_compute. reflexivity.
  - unfold WalletService.getSolanaWalletData.
    apply returns_try_catch; [| intros e; apply returns_throw].
    destruct key as [| c key]; [congruence |]. cbn [JSString.is_empty].
    known_step Hsol. cbn [member].
    eapply returns_bind with (P := eq _);
      [apply returns_ret; reflexivity | intros ? <-].
    repeat skip_step. apply returns_ret. vm_compute. reflexivity.
  - unfold Wallet.getEthereumWalletData.
    apply returns_try_catch; [| intros e; apply returns_throw].
    known_step Heth. repeat skip_step. apply returns_ret.
    vm_compute. reflexivity.
  - unfold Wallet.getSolanaWalletData.
    apply returns_try_catch; [| intros e; apply returns_throw].
    known_step Hsol. cbn [member].
    eapply returns_bind with (P := eq _);
      [apply returns_ret; reflexivity | intros ? <-].
    repeat skip_step. apply returns_ret. vm_compute. reflexivity.
Qed.

End Balances.

Lemma whole_unit_balances_witness :
  let env := Sample.upstream [] [] [] in
  Judgement.returns
    (WalletService.getEthereumWalletData env Sample.ethereum_address)
    (fun data => WalletService.wd_balance data = "1") /\
  Judgement.returns
    (WalletService.getSolanaWalletData env "key" Sample.solana_address)
    (fun data => WalletService.wd_balance data = "1") /\
  Judgement.returns
    (Wallet.getEthereumWalletData env JSNumber.toString Sample.ethereum_address)
    (fun data => Wallet.wd_nativeBalance data = "1.0000") /\
  Judgement.returns
    (Wallet.getSolanaWalletData env JSNumber.toString Sample.solana_address)
    (fun data => Wallet.wd_nativeBalance data = "1.0000") /\
  JSNumber.toString
    (JSNumber.div (JSNumber.parseInt "0xde0b6b3a7640000" 16)
                  WalletService.lit_1e18) = "1" /\
  JSNumber.toString
    (JSNumber.div (JSNumber.of_Z 1000000000) WalletService.lit_1e9) = "1" /\
  Wallet.formatBalance JSNumber.toString
    (Wallet.raw_string
       (JSNumber.toString (JSNumber.parseInt "0xde0b6b3a7640000" 16))) 18
    = "1.0000" /\
  Wallet.formatBalance JSNumber.toString
    (Wallet.raw_number (JSNumber.of_Z 1000000000)) 9 = "1.0000".
Proof.
  apply (whole_unit_balances (Sample.upstream [] [] []) JSNumber.toString
           "key" Sample.ethereum_address Sample.solana_address).
  - discriminate.
  - intros k. reflexivity.
  - intros k. reflexivity.
Defined.

(** The native balances that the four adapters report for one whole unit. *)
Example whole_unit_snapshots :
  let env := Sample.upstream [] [] [] in
  let service (address : string) :=
    match fst (WalletService.getWalletData env "key" address
                 (Sample.fresh 1000000)) with
    | Runtime.Returned data => Some (WalletService.wd_balance data)
    | Runtime.Thrown _ => None
    end in
  let wallet (address : string) :=
    match fst (Wallet.getWalletData env JSNumber.toString address
                 (Sample.fresh 1000000)) with
    | Runtime.Returned (inl data) => Some (Wallet.wd_nativeBalance data)
    | _ => None
    end in
  service Sample.ethereum_address = Some "1" /\
  service Sample.solana_address = Some "1" /\
  wallet Sample.ethereum_address = Some "1.0000" /\
  wallet Sample.solana_address = Some "1.0000".
Proof. vm_compute. repeat split; reflexivity. Qed.

(** [formatBalance] does not print a whole unit as ["1"], and it reads a
    hex amount as 0. *)
Lemma formatBalance_whole_unit :
  Wallet.formatBalance JSNumber.toString
    (Wallet.raw_string
       (JSNumber.toString (JSNumber.parseInt "0xde0b6b3a7640000" 16))) 18
    <> "1" /\
  Wallet.formatBalance JSNumber.toString
    (Wallet.raw_number (JSNumber.of_Z 1000000000)) 9 <> "1" /\
  Wallet.formatBalance JSNumber.toString
    (Wallet.raw_string "0xde0b6b3a7640000") 18 = "0.0000e+0".
Proof. vm_compute. repeat split; discriminate. Qed.

(** ** Failures of the enrichment calls *)

Section Enrichment.

Import JSNumber Http Runtime WalletService Judgement Absorbed AddressFormat.
Local Open Scope list_scope.

Variable env : Env.

Ltac by_axios H :=
  match goal with
  | |- succeeds (axios ?e ?d ?r) _ => exact (succeeds_axios e d r _ H)
  end.

Ltac by_request H :=
  match goal with
  | |- succeeds (rateLimitedRequest ?e ?r _) _ =>
      exact (succeeds_rateLimitedRequest e r _ H)
  end.

Lemma mul_zero_finite (x : number) :
  is_finite x = true -> is_zero (mul x zero) = true.
Proof. destruct x; cbn; congruence. Qed.

Lemma succeeds_for_push {X Y} (body : X -> M (option Y))
    (R : X -> option Y -> Prop) :
  (forall x, succeeds (body x) (R x)) ->
  forall xs, succeeds (for_push body xs) (pushed R xs).
Proof.
  intros Hbody. induction xs as [| x xs IH]; cbn [for_push].
  - apply succeeds_ret. constructor.
  - eapply succeeds_bind; [apply Hbody |]. intros o Ho.
    eapply succeeds_bind; [apply IH |]. intros rest Hrest.
    apply succeeds_ret. destruct o; constructor; assumption.
Qed.

(** The price of a token, on either chain: the lookup may fail, the
    price is there all the same. *)
Lemma price_lookup_absorbed (platform contract : string) :
  succeeds
    (try_catch
       (bind (rateLimitedRequest env (CoinGeckoTokenPrice platform contract) 0)
             (fun priceResponse =>
                ret (number_or (priceResponse (JSString.toLowerCase contract))
                               zero)))
       (fun _ => ret zero))
    (fun price =>
       down env (CoinGeckoTokenPrice platform contract) -> price = zero).
Proof.
  apply succeeds_weaken with (P := fun price =>
    True /\ (down env (CoinGeckoTokenPrice platform contract) -> price = zero));
    [| tauto].
  apply succeeds_under.
  - apply succeeds_try_catch; [apply returns_any |].
    intros e. apply succeeds_ret. exact I.
  - intros Hdown. apply succeeds_try_catch_failed.
    + apply fails_bind. apply fails_rateLimitedRequest. exact Hdown.
    + intros e. apply succeeds_ret. reflexivity.
Qed.

Lemma ethereumToken_reported (token : AlchemyTokenBalance)
    (metadata : AlchemyTokenMetadata) :
  up env (AlchemyGetTokenMetadata (atb_contractAddress token)) (Some metadata) ->
  succeeds (ethereumToken env token) (ethereum_token env metadata token).
Proof.
  intros Hup. unfold ethereumToken.
  eapply succeeds_bind with (P := eq (Some metadata));
    [by_axios Hup | intros ? <-].
  cbn [member].
  eapply succeeds_bind with (P := eq metadata);
    [apply succeeds_ret; reflexivity | intros ? <-].
  eapply succeeds_bind; [apply price_lookup_absorbed |].
  intros price Hprice. apply succeeds_ret.
  unfold ethereum_token, unpriced, ethereum_amount.
  split; [reflexivity |]. split; [reflexivity |].
  intros Hdown. specialize (Hprice Hdown). cbv beta in Hprice. subst price.
  split; [reflexivity |]. split; [reflexivity |].
  intros Hfinite. exact (mul_zero_finite _ Hfinite).
Qed.

Lemma token_list_absorbed (mintAddress : string) :
  succeeds
    (try_catch
       (bind (rateLimitedRequest env SolanaTokenList 0)
             (fun tokenListResponse =>
                ret (find (fun t => String.eqb (tle_address t) mintAddress)
                          tokenListResponse)))
       (fun _ => ret None))
    (fun found => down env SolanaTokenList -> found = None).
Proof.
  apply succeeds_weaken with (P := fun found =>
    True /\ (down env SolanaTokenList -> found = None)); [| tauto].
  apply succeeds_under.
  - apply succeeds_try_catch; [apply returns_any |].
    intros e. apply succeeds_ret. exact I.
  - intros Hdown. apply succeeds_try_catch_failed.
    + apply fails_bind. apply fails_rateLimitedRequest. exact Hdown.
    + intros e. apply succeeds_ret. reflexivity.
Qed.

Lemma solanaToken_reported (account : SolTokenAccount) :
  succeeds (solanaToken env account) (solana_token env account).
Proof.
  unfold solanaToken.
  eapply succeeds_bind; [apply token_list_absorbed |]. intros found Hfound.
  eapply succeeds_bind; [apply price_lookup_absorbed |]. intros price Hprice.
  apply succeeds_ret. unfold solana_token, unpriced.
  split; [reflexivity |]. split; [reflexivity |]. split.
  - intros Hdown. specialize (Hfound Hdown). cbv beta in Hfound. subst found.
    repeat split.
  - intros Hdown. specialize (Hprice Hdown). cbv beta in Hprice. subst price.
    split; [reflexivity |]. split; [reflexivity |].
    intros Hfinite. exact (mul_zero_finite _ Hfinite).
Qed.

Lemma is_empty_eq (s : string) : JSString.is_empty s = true -> s = "".
Proof. destruct s; [reflexivity | discriminate]. Qed.

Lemma solanaSignature_outcome (address : string) (sig : option string) :
  succeeds (solanaSignature env address sig) (detail_outcome env sig).
Proof.
  unfold solanaSignature. destruct sig as [s |].
  2: { apply succeeds_ret. intros s d [=]. }
  destruct (JSString.is_empty s) eqn:Hs.
  { apply succeeds_ret. intros s0 d [= <-] Hne.
    apply is_empty_eq in Hs. contradiction. }
  intros w. unfold try_catch, bind.
  destruct (rateLimitedRequest env (HeliusGetTransaction s) 0 w)
    as [[[txDetails |] | e] w1] eqn:Hrun.
  - eexists _, _. split; [reflexivity |]. cbn [detail_outcome].
    split; [reflexivity |]. cbn [solanaTransaction tx_hash].
    intros Hdown.
    destruct (fails_rateLimitedRequest env _ 0 Hdown w) as (e & w2 & Hthrow).
    congruence.
  - eexists _, _. split; [reflexivity |].
    intros s0 details [= <-] _ Hup.
    destruct (succeeds_rateLimitedRequest env _ _ Hup w) as (a & w2 & Hret & <-).
    congruence.
  - eexists _, _. split; [reflexivity |].
    intros s0 details [= <-] _ Hup.
    destruct (succeeds_rateLimitedRequest env _ _ Hup w) as (a & w2 & Hret & <-).
    congruence.
Qed.

Lemma ethereum_fetch_succeeds (address : string) (balance : option string)
    (tokenBalances : option (list AlchemyTokenBalance))
    (explorer : option EtherscanBody)
    (metadata_of : string -> AlchemyTokenMetadata) :
  up env (EthGetBalance address) balance ->
  up env (AlchemyGetTokenBalances address) (Some tokenBalances) ->
  up env (EtherscanTxList address) explorer ->
  (forall token,
     In token (match tokenBalances with Some l => l | None => [] end) ->
     up env (AlchemyGetTokenMetadata (atb_contractAddress token))
        (Some (metadata_of (atb_contractAddress token)))) ->
  succeeds (getEthereumWalletData env address)
    (fun data =>
       Forall2 (fun token t =>
                  ethereum_token env (metadata_of (atb_contractAddress token))
                                 token t)
               (match tokenBalances with Some l => l | None => [] end)
               (wd_tokens data)).
Proof.
  intros Hbalance Hlisting Hexplorer Hmetadata.
  unfold getEthereumWalletData. apply succeeds_try_catch_body.
  eapply succeeds_bind with (P := eq balance);
    [by_axios Hbalance | intros ? <-].
  eapply succeeds_bind with (P := eq (Some tokenBalances));
    [by_axios Hlisting | intros ? <-].
  cbn [member].
  eapply succeeds_bind with (P := eq tokenBalances);
    [apply succeeds_ret; reflexivity | intros ? <-].
  eapply succeeds_bind.
  { apply succeeds_mapM. intros token Hin.
    apply ethereumToken_reported. apply Hmetadata. exact Hin. }
  intros tokens Htokens.
  eapply succeeds_bind with (P := eq explorer);
    [by_axios Hexplorer | intros ? <-].
  eapply succeeds_bind with (P := fun _ => True).
  { apply succeeds_try_catch; [apply returns_any |].
    intros e. apply succeeds_ret. exact I. }
  intros ethPrice _. apply succeeds_ret. exact Htokens.
Qed.

Lemma solana_fetch_succeeds (key address : string) (lamports : number)
    (tokenAccounts : option (list SolTokenAccount))
    (signatures : option (list (option string))) :
  key <> "" ->
  up env (HeliusGetBalance address) (Some lamports) ->
  up env (HeliusGetTokenAccountsByOwner address) (Some tokenAccounts) ->
  up env (HeliusGetSignaturesForAddress address 5) signatures ->
  succeeds (getSolanaWalletData env key address)
    (fun data =>
       Forall2 (solana_token env)
               (match tokenAccounts with Some l => l | None => [] end)
               (wd_tokens data) /\
       pushed (detail_outcome env)
              (firstn 5 (match signatures with Some l => l | None => [] end))
              (wd_transactions data)).
Proof.
  intros Hkey Hbalance Haccounts Hsignatures.
  unfold getSolanaWalletData. apply succeeds_try_catch_body.
  destruct key as [| c key]; [congruence |]. cbn [JSString.is_empty].
  eapply succeeds_bind with (P := eq (Some lamports));
    [by_request Hbalance | intros ? <-].
  cbn [member].
  eapply succeeds_bind with (P := eq lamports);
    [apply succeeds_ret; reflexivity | intros ? <-].
  eapply succeeds_bind with (P := eq (Some tokenAccounts));
    [by_request Haccounts | intros ? <-].
  cbn [member].
  eapply succeeds_bind with (P := eq tokenAccounts);
    [apply succeeds_ret; reflexivity | intros ? <-].
  eapply succeeds_bind.
  { apply succeeds_mapM. intros account _. apply solanaToken_reported. }
  intros tokens Htokens.
  eapply succeeds_bind with (P := eq signatures);
    [by_request Hsignatures | intros ? <-].
  eapply succeeds_bind.
  { apply succeeds_for_push. intros sig. apply solanaSignature_outcome. }
  intros transactions Htransactions.
  eapply succeeds_bind with (P := fun _ => True).
  { apply succeeds_try_catch; [apply returns_any |].
    intros e. apply succeeds_ret. exact I. }
  intros solPrice _. apply succeeds_ret. split; assumption.
Qed.

Lemma ethereum_detected (address : string) :
  ethereum_format address -> detectBlockchain address = Some ethereum.
Proof.
  intros He. unfold detectBlockchain.
  apply ethereum_regex_format in He. rewrite He. reflexivity.
Qed.

(** The helpers of the wallet directory catch their own failures. *)
Lemma wallet_helpers_absorb (tokenId : string) :
  succeeds (Wallet.getTokenPrice env tokenId)
    (fun price => down env (CoinGeckoSimplePrice tokenId) -> price = zero) /\
  succeeds (Wallet.getTokenLogo env tokenId)
    (fun logo => down env (CoinGeckoCoin tokenId) -> logo = "").
Proof.
  unfold Wallet.getTokenPrice, Wallet.getTokenLogo. split.
  - apply succeeds_weaken with (P := fun price =>
      True /\ (down env (CoinGeckoSimplePrice tokenId) -> price = zero));
      [| tauto].
    apply succeeds_under.
    + apply succeeds_try_catch; [apply returns_any |].
      intros e. apply succeeds_ret. exact I.
    + intros Hdown. apply succeeds_try_catch_failed.
      * apply fails_bind. apply fails_axios. exact Hdown.
      * intros e. apply succeeds_ret. reflexivity.
  - apply succeeds_weaken with (P := fun logo =>
      True /\ (down env (CoinGeckoCoin tokenId) -> logo = "")); [| tauto].
    apply succeeds_under.
    + apply succeeds_try_catch; [apply returns_any |].
      intros e. apply succeeds_ret. exact I.
    + intros Hdown. apply succeeds_try_catch_failed.
      * apply fails_bind. apply fails_axios. exact Hdown.
      * intros e. apply succeeds_ret. reflexivity.
Qed.

(** C1, as the code has it: when the top-level calls of a fetch are
    answered (and, on Ethereum, the metadata lookups of the listed
    tokens), the fetch returns, whatever becomes of the price lookups, of
    the Solana token list lookups and of the details of the single
    Solana transactions.  Every listed token is in the snapshot, in
    order; a token whose price lookup fails has price 0 and value
    [balance * 0], which is 0 for a finite balance; with the token list
    down the Solana tokens carry the default symbol, name and logo; a
    transaction is skipped only if its details were not served, and
    reported only if they were not always refused.  The price and logo
    helpers of the wallet directory return 0 and the empty string when
    their call fails. *)
Theorem enrichment_failures_absorbed
    (key eth_address sol_address : string)
    (balance : option string)
    (tokenBalances : option (list AlchemyTokenBalance))
    (explorer : option EtherscanBody)
    (metadata_of : string -> AlchemyTokenMetadata)
    (lamports : number)
    (tokenAccounts : option (list SolTokenAccount))
    (signatures : option (list (option string))) :
  ethereum_format eth_address ->
  up env (EthGetBalance eth_address) balance ->
  up env (AlchemyGetTokenBalances eth_address) (Some tokenBalances) ->
  up env (EtherscanTxList eth_address) explorer ->
  (forall token,
     In token (match tokenBalances with Some l => l | None => [] end) ->
     up env (AlchemyGetTokenMetadata (atb_contractAddress token))
        (Some (metadata_of (atb_contractAddress token)))) ->
  solana_format sol_address ->
  key <> "" ->
  up env (HeliusGetBalance sol_address) (Some lamports) ->
  up env (HeliusGetTokenAccountsByOwner sol_address) (Some tokenAccounts) ->
  up env (HeliusGetSignaturesForAddress sol_address 5) signatures ->
  succeeds (getWalletData env key eth_address)
    (fun data =>
       Forall2 (fun token t =>
                  ethereum_token env (metadata_of (atb_contractAddress token))
                                 token t)
               (match tokenBalances with Some l => l | None => [] end)
               (wd_tokens data)) /\
  succeeds (getWalletData env key sol_address)
    (fun data =>
       Forall2 (solana_token env)
               (match tokenAccounts with Some l => l | None => [] end)
               (wd_tokens data) /\
       pushed (detail_outcome env)
              (firstn 5 (match signatures with Some l => l | None => [] end))
              (wd_transactions data)) /\
  (forall tokenId,
     succeeds (Wallet.getTokenPrice env tokenId)
       (fun price => down env (CoinGeckoSimplePrice tokenId) -> price = zero) /\
     succeeds (Wallet.getTokenLogo env tokenId)
       (fun logo => down env (CoinGeckoCoin tokenId) -> logo = "")).
Proof.
  intros Heth Hb Hl He Hm Hsol Hkey Hlam Hacc Hsig.
  unfold getWalletData.
  rewrite (ethereum_detected eth_address Heth).
  rewrite (solana_detected sol_address Hsol).
  split; [| split].
  - apply ethereum_fetch_succeeds with (balance := balance) (explorer := explorer);
      assumption.
  - apply solana_fetch_succeeds with (lamports := lamports); assumption.
  - apply wallet_helpers_absorb.
Qed.

End Enrichment.

(** The metadata lookup of one token of three is rejected: the Ethereum
    fetch fails as a whole, although every other call is answered. *)
Lemma metadata_failure_aborts_fetch :
  fst (WalletService.getWalletData
         (Sample.upstream [] [Sample.contract_b] []) "key"
         Sample.ethereum_address (Sample.fresh 1000000)) =
  Runtime.Thrown (Runtime.Error "Failed to fetch Ethereum wallet data").
Proof. vm_compute. reflexivity. Qed.

(** The price lookups of the second token and the details of the second
    signature are refused: both fetches return, with all three tokens. *)
Lemma enrichment_failures_absorbed_witness :
  let env := Sample.upstream [Sample.contract_b; Sample.mint_b] [] ["sig2"] in
  Judgement.succeeds
    (WalletService.getWalletData env "key" Sample.ethereum_address)
    (fun data =>
       Forall2 (fun token t =>
                  Absorbed.ethereum_token env Sample.metadata token t)
               [Sample.erc20 Sample.contract_a; Sample.erc20 Sample.contract_b;
                Sample.erc20 Sample.contract_c]
               (WalletService.wd_tokens data)) /\
  Judgement.succeeds
    (WalletService.getWalletData env "key" Sample.solana_address)
    (fun data =>
       Forall2 (Absorbed.solana_token env)
               [Sample.spl Sample.mint_a; Sample.spl Sample.mint_b;
                Sample.spl Sample.mint_c]
               (WalletService.wd_tokens data) /\
       Absorbed.pushed (Absorbed.detail_outcome env)
               [Some "sig1"; Some "sig2"; Some "sig3"]
               (WalletService.wd_transactions data)) /\
  (forall tokenId,
     Judgement.succeeds (Wallet.getTokenPrice env tokenId)
       (fun price =>
          Absorbed.down env (Http.CoinGeckoSimplePrice tokenId) ->
          price = JSNumber.zero) /\
     Judgement.succeeds (Wallet.getTokenLogo env tokenId)
       (fun logo => Absorbed.down env (Http.CoinGeckoCoin tokenId) -> logo = "")).
Proof.
  apply (enrichment_failures_absorbed
           (Sample.upstream [Sample.contract_b; Sample.mint_b] [] ["sig2"])
           "key" Sample.ethereum_address Sample.solana_address
           (Some "0xde0b6b3a7640000")
           (Some [Sample.erc20 Sample.contract_a; Sample.erc20 Sample.contract_b;
                  Sample.erc20 Sample.contract_c])
           (Some {| Http.es_status := "1"; Http.es_message := Some "OK";
                    Http.es_result := Some [Sample.third_party_transfer] |})
           (fun _ => Sample.metadata)
           (JSNumber.of_Z 1000000000)
           (Some [Sample.spl Sample.mint_a; Sample.spl Sample.mint_b;
                  Sample.spl Sample.mint_c])
           (Some [Some "sig1"; Some "sig2"; Some "sig3"])).
  - exists "52908400098527886E0F7030069857D2E4169EE7". repeat split; reflexivity.
  - intros k. reflexivity.
  - intros k. reflexivity.
  - intros k. reflexivity.
  - intros token Hin k. simpl in Hin.
    destruct Hin as [<- | [<- | [<- | []]]]; reflexivity.
  - split; [simpl; lia | reflexivity].
  - discriminate.
  - intros k. reflexivity.
  - intros k. reflexivity.
  - intros k. reflexivity.
Defined.

(** The snapshots of these two fetches: the second token is there with
    price 0 and value 0, the second transaction is not. *)
Example three_tokens_one_price_down :
  let env := Sample.upstream [Sample.contract_b; Sample.mint_b] [] ["sig2"] in
  let priced (t : WalletService.Token) :=
    (WalletService.token_tokenAddress t,
     JSNumber.toString (WalletService.token_price t),
     JSNumber.toString (WalletService.token_value t)) in
  match
    fst (WalletService.getWalletData env "key" Sample.ethereum_address
           (Sample.fresh 1000000)),
    fst (WalletService.getWalletData env "key" Sample.solana_address
           (Sample.fresh 1000000))
  with
  | Runtime.Returned eth, Runtime.Returned sol =>
      map priced (WalletService.wd_tokens eth) =
        [(Sample.contract_a, "3", "6"); (Sample.contract_b, "0", "0");
         (Sample.contract_c, "3", "6")] /\
      map priced (WalletService.wd_tokens sol) =
        [(Sample.mint_a, "3", "6"); (Sample.mint_b, "0", "0");
         (Sample.mint_c, "3", "6")] /\
      map WalletService.tx_hash (WalletService.wd_transactions sol) =
        ["sig1"; "sig3"]
  | _, _ => False
  end.
Proof. vm_compute. repeat split; reflexivity. Qed.

(* ================================================================= *)
(** * Further properties of the wallet code *)

(** ** Errors of the aggregator, the controller and the routes *)

Section Errors.

Import JSNumber Http Runtime Judgement AddressFormat Extra.
Local Open Scope list_scope.

Variable env : Env.
Variable HELIUS_API_KEY : string.

Lemma throws_only_throw {A} (e : Exn) (P : Exn -> Prop) :
  P e -> throws_only (@throw A e) P.
Proof. intros H w. exact H. Qed.

Lemma throws_only_try_catch {A} (m : M A) (h : Exn -> M A) (P : Exn -> Prop) :
  (forall e, throws_only (h e) P) -> throws_only (try_catch m h) P.
Proof.
  intros Hh w. unfold try_catch.
  destruct (m w) as [[a | e] w']; cbn [fst]; [exact I | apply Hh].
Qed.

Lemma ethereum_throws (address : string) :
  throws_only (WalletService.getEthereumWalletData env address)
    (eq (Error "Failed to fetch Ethereum wallet data")).
Proof.
  unfold WalletService.getEthereumWalletData.
  apply throws_only_try_catch. intros e. apply throws_only_throw. reflexivity.
Qed.

Lemma solana_throws (address : string) :
  throws_only (WalletService.getSolanaWalletData env HELIUS_API_KEY address)
    (eq (Error "Failed to fetch Solana wallet data")).
Proof.
  unfold WalletService.getSolanaWalletData.
  apply throws_only_try_catch. intros e. apply throws_only_throw. reflexivity.
Qed.

(** X1: whatever goes wrong inside a fetch, [getWalletData] of the
    services module throws one of three errors only: the invalid address
    error or the generic failure of the adapter it chose.  No rejection
    of the transport and no [TypeError] reaches the caller. *)
Theorem service_errors_normalised (address : string) :
  throws_only (WalletService.getWalletData env HELIUS_API_KEY address)
              service_error.
Proof.
  intros w. unfold WalletService.getWalletData.
  destruct (WalletService.detectBlockchain address) as [[|] |].
  - pose proof (ethereum_throws address w) as H.
    destruct (fst (WalletService.getEthereumWalletData env address w));
      [exact I | subst e; right; left; reflexivity].
  - pose proof (solana_throws address w) as H.
    destruct (fst (WalletService.getSolanaWalletData env HELIUS_API_KEY address w));
      [exact I | subst e; right; right; reflexivity].
  - left. reflexivity.
Qed.

Lemma recognized_detected (address : string) :
  ethereum_format address \/ solana_format address <->
  exists chain, WalletService.detectBlockchain address = Some chain.
Proof.
  split.
  - intros [He | Hs].
    + exists ethereum. unfold WalletService.detectBlockchain.
      apply ethereum_regex_format in He. rewrite He. reflexivity.
    + exists solana. apply solana_detected. exact Hs.
  - intros [chain Hd]. unfold WalletService.detectBlockchain in Hd.
    destruct (JSString.test_anchored ETHEREUM_ADDRESS_RE address) eqn:Ee.
    + left. apply ethereum_regex_format. exact Ee.
    + destruct (JSString.test_anchored SOLANA_ADDRESS_RE address) eqn:Es;
        [| discriminate].
      right. apply solana_regex_format. exact Es.
Qed.

(** X2: the controller's [validateAddress] and the aggregator agree: an
    address is valid exactly when it has one of the two formats, and it
    is invalid exactly when [getWalletData] throws the invalid address
    error (so a valid address never gets that error, whatever the
    upstream does). *)
Theorem validateAddress_agrees (address : string) (w : World) :
  (WalletController.isValid (WalletController.validateAddress address) = true
   <-> ethereum_format address \/ solana_format address) /\
  (WalletController.isValid (WalletController.validateAddress address) = false
   <-> fst (WalletController.getWalletData env HELIUS_API_KEY address w)
       = Thrown (Error "Invalid wallet address")).
Proof.
  pose proof (recognized_detected address) as Hrec.
  unfold WalletController.validateAddress, WalletController.getWalletData,
    WalletService.getWalletData.
  cbn [WalletController.isValid].
  destruct (WalletService.detectBlockchain address) as [[|] |].
  - split; [split; [intros _; apply Hrec; eexists; reflexivity | reflexivity] |].
    split; [discriminate |]. intros H.
    pose proof (ethereum_throws address w) as Ht. rewrite H in Ht. discriminate Ht.
  - split; [split; [intros _; apply Hrec; eexists; reflexivity | reflexivity] |].
    split; [discriminate |]. intros H.
    pose proof (solana_throws address w) as Ht. rewrite H in Ht. discriminate Ht.
  - split; [| split; reflexivity].
    split; [discriminate |]. intros H. apply Hrec in H. destruct H as [c [=]].
Qed.

(** X3: the wallet data route always answers: with status 200 and the
    snapshot when [getWalletData] returns, with status 500 and the error
    ['Failed to fetch wallet data'] when it throws.  An address of
    neither format is answered with that status 500 as well, and no
    outbound call is made for it. *)
Theorem walletDataRoute_answers (address : string) (w : World) :
  exists sent w',
    Server.walletDataRoute env HELIUS_API_KEY address w = (Returned sent, w') /\
    w' = snd (WalletService.getWalletData env HELIUS_API_KEY address w) /\
    sent =
      match fst (WalletService.getWalletData env HELIUS_API_KEY address w) with
      | Returned data => {| Server.status := 200; Server.body := inl data |}
      | Thrown _ =>
          {| Server.status := 500;
             Server.body := inr "Failed to fetch wallet data" |}
      end /\
    (~ ethereum_format address -> ~ solana_format address ->
     Server.status sent = 500%Z /\ w' = w).
Proof.
  unfold Server.walletDataRoute, WalletController.getWalletData, try_catch, bind, ret.
  destruct (WalletService.getWalletData env HELIUS_API_KEY address w)
    as [[data | e] w1] eqn:Hrun; cbn [fst snd];
    eexists _, _; (split; [reflexivity |]); (split; [reflexivity |]);
    (split; [reflexivity |]); intros He Hs;
    destruct (unrecognized_detected address He Hs) as [Hd _];
    unfold WalletService.getWalletData in Hrun; rewrite Hd in Hrun;
    unfold throw in Hrun; inversion Hrun; subst; split; reflexivity.
Qed.



End Errors.

(** ** Which requests a fetch makes, and how many *)

Section Requests.

Import JSNumber Http Runtime WalletService Dispatch Judgement Extra.
Local Open Scope list_scope.

Variable env : Env.

Ltac chain_step :=
  match goal with
  | |- issues (bind _ _) _ => apply issues_bind; [| intros ?]
  | |- issues (try_catch _ _) _ => apply issues_try_catch; [| intros ?]
  | |- issues (mapM _ _) _ => apply issues_mapM; intros ?
  | |- issues (for_push _ _) _ => apply issues_for_push; intros ?
  | |- issues (axios _ _ _) _ =>
      apply issues_axios; intros ?; cbn [for_chain call_request];
      rewrite ?String.eqb_refl; reflexivity
  | |- issues (rateLimitedRequest _ _ _) _ =>
      apply issues_rateLimitedRequest; intros ?;
      cbn [for_chain call_request attempt];
      rewrite ?String.eqb_refl; reflexivity
  | |- issues (ret _) _ => apply issues_silent, silent_ret
  | |- issues (throw _) _ => apply issues_silent, silent_throw
  | |- issues (member _) _ => apply issues_silent, silent_member
  | |- issues Date_now _ => apply issues_silent, silent_Date_now
  | |- issues (match ?x with _ => _ end) _ => destruct x
  end.

(** X5: a fetch stays on the chain of its address.  For an Ethereum
    address the only requests are the balance, the token listing and the
    transaction list of that address, metadata lookups and the Ethereum
    price lookups; for a Solana address only the balance, the token
    accounts and the signatures (limit 5) of that address, the token
    list, transaction details and the Solana price lookups.  No request
    of the other chain is ever made. *)
Theorem fetch_stays_on_chain (key address : string) (chain : Blockchain) :
  detectBlockchain address = Some chain ->
  issues (getWalletData env key address)
         (fun c => for_chain chain address (call_request c) = true).
Proof.
  intros Hd. unfold getWalletData. rewrite Hd. destruct chain.
  - unfold getEthereumWalletData, ethereumToken. repeat chain_step.
  - unfold getSolanaWalletData, solanaToken, solanaSignature.
    repeat chain_step.
Qed.

Lemma returns_for_push_length {X Y} (body : X -> M (option Y)) (xs : list X) :
  returns (for_push body xs) (fun ys => (List.length ys <= List.length xs)%nat).
Proof.
  induction xs as [| x xs IH]; cbn [for_push].
  - apply returns_ret. cbn. lia.
  - eapply returns_bind; [apply returns_any | intros pushed _].
    eapply returns_bind; [apply IH | intros rest Hrest].
    apply returns_ret. cbv beta in Hrest. destruct pushed; cbn; lia.
Qed.

Ltac skip_step :=
  match goal with
  | |- returns (bind _ _) _ =>
      eapply returns_bind; [apply returns_any | intros ? _]
  end.

(** X6: however many signatures the node lists, a snapshot of the
    services module has at most 5 Solana transactions and one of the
    wallet directory at most 10. *)
Theorem solana_transactions_capped (key address : string)
    (toLocaleString : number -> string) :
  returns (getSolanaWalletData env key address)
    (fun data => (List.length (wd_transactions data) <= 5)%nat) /\
  returns (Wallet.getSolanaWalletData env toLocaleString address)
    (fun data => (List.length (Wallet.wd_transactions data) <= 10)%nat).
Proof.
  split.
  - unfold getSolanaWalletData.
    apply returns_try_catch; [| intros e; apply returns_throw].
    destruct (JSString.is_empty key); [apply returns_ret; cbn; lia |].
    do 6 skip_step.
    eapply returns_bind; [apply returns_for_push_length |].
    intros transactions Hlen. skip_step. apply returns_ret.
    cbv beta in Hlen. cbn [wd_transactions].
    rewrite length_firstn in Hlen. lia.
  - unfold Wallet.getSolanaWalletData.
    apply returns_try_catch; [| intros e; apply returns_throw].
    do 9 skip_step.
    eapply returns_bind; [apply returns_for_push_length |].
    intros transactions Hlen. apply returns_ret.
    cbv beta in Hlen. cbn [Wallet.wd_transactions].
    rewrite length_firstn in Hlen. lia.
Qed.

Local Open Scope Z_scope.

Lemma rateLimitedRequest_rec_attempts (config : Request) (budget : nat) :
  forall (retries : Z) (w : World),
    (List.length (calls (snd (rateLimitedRequest_rec env budget config retries w)))
     <= List.length (calls w) + S budget)%nat.
Proof.
  induction budget as [| budget IH]; intros retries w;
    rewrite rateLimitedRequest_rec_eq;
    pose proof (stamped_facts env w) as Hs; cbv zeta in Hs;
    destruct Hs as (_ & _ & _ & _ & Hcalls);
    pose proof (axios_facts env true config (stamped env w)) as Ha;
    destruct (axios env true config (stamped env w)) as [[data | err] w2];
    destruct Ha as (_ & Hc2 & _);
    try (cbn [snd]; rewrite Hc2, Hcalls; cbn [List.length]; lia);
    destruct (retryable err && (retries <? MAX_RETRIES));
    try (cbn [snd sleep calls]; rewrite Hc2, Hcalls; cbn [List.length]; lia).
  specialize (IH (retries + 1) (snd (sleep env (2 ^ retries * 1000) w2))).
  assert (Hsleep : calls (snd (sleep env (2 ^ retries * 1000) w2)) = calls w2)
    by reflexivity.
  rewrite Hsleep, Hc2, Hcalls in IH. cbn [List.length] in IH. lia.
Qed.

(** X7: whatever the upstream answers, one call of the dispatcher makes
    at least one and at most [MAX_RETRIES + 1 = 4] requests (fewer when
    it is entered with retries already counted), all of them for the
    request it was given. *)
Theorem dispatcher_attempts_bounded (config : Request) (retries : Z)
    (w : World) :
  exists ts,
    calls (snd (rateLimitedRequest env config retries w)) =
      map (attempt config) ts ++ calls w /\
    (1 <= List.length ts <= 1 + Z.to_nat (MAX_RETRIES - retries))%nat /\
    (retries = 0 -> (List.length ts <= 4)%nat).
Proof.
  unfold rateLimitedRequest.
  pose proof (rateLimitedRequest_rec_spacing env
                (Z.to_nat (MAX_RETRIES - retries)) config retries w) as H.
  pose proof (rateLimitedRequest_rec_attempts config
                (Z.to_nat (MAX_RETRIES - retries)) retries w) as Hb.
  destruct (rateLimitedRequest_rec env (Z.to_nat (MAX_RETRIES - retries))
              config retries w) as [res w'].
  cbn [snd] in *. destruct H as (ts & Hc & _ & _ & Hne & _).
  rewrite Hc, length_app, length_map in Hb.
  exists ts. split; [exact Hc |].
  assert (Hlen : (1 <= List.length ts)%nat)
    by (destruct ts; [congruence | cbn; lia]).
  split; [lia |]. intros ->. unfold MAX_RETRIES in Hb. cbn in Hb. lia.
Qed.

End Requests.

Lemma fetch_stays_on_chain_witness :
  Judgement.issues
    (WalletService.getWalletData (Sample.upstream [] [] []) "key"
       Sample.ethereum_address)
    (fun c => Extra.for_chain ethereum Sample.ethereum_address
                (Runtime.call_request c) = true).
Proof.
  apply (fetch_stays_on_chain (Sample.upstream [] [] []) "key"
           Sample.ethereum_address ethereum).
  vm_compute. reflexivity.
Defined.

(** ** Defaults in the tokens of a snapshot *)

Section Tokens.

Import JSNumber Http Runtime WalletService Judgement.
Local Open Scope list_scope.

Variable env : Env.

Ltac skip_step :=
  match goal with
  | |- returns (bind _ _) _ =>
      eapply returns_bind; [apply returns_any | intros ? _]
  end.





End Tokens.

(** ** Amounts and transactions in the wallet directory *)

Section WalletDirectory.

Import JSNumber Http Runtime Judgement Absorbed Extra.
Local Open Scope list_scope.
Local Open Scope Z_scope.

Variable env : Env.
Variable toLocaleString : number -> string.

Ltac skip_step :=
  match goal with
  | |- returns (bind _ _) _ =>
      eapply returns_bind; [apply returns_any | intros ? _]
  end.

Lemma returns_axios_up (dispatched : bool) (r : Request) (data : Body r) :
  up env r data -> returns (axios env dispatched r) (eq data).
Proof.
  intros Hup. apply succeeds_returns. apply succeeds_axios. exact Hup.
Qed.





(** X10: the Solana adapter of the wallet directory compares the first
    account key, an object, with the address: for every address that is
    not empty each transaction it returns has type [receive], and its
    status is [success] whatever the transaction's [meta.err]. *)
Theorem wallet_solana_always_receive (address : string) :
  address <> "" ->
  returns (Wallet.getSolanaWalletData env toLocaleString address)
    (fun data =>
       Forall (fun tx => Wallet.tx_type tx = Wallet.receive /\
                         Wallet.tx_status tx = Wallet.success)
              (Wallet.wd_transactions data)).
Proof.
  intros Hne. unfold Wallet.getSolanaWalletData.
  apply returns_try_catch; [| intros e; apply returns_throw].
  do 9 skip_step.
  eapply returns_bind.
  { apply returns_for_push with
      (Q := fun tx => Wallet.tx_type tx = Wallet.receive /\
                      Wallet.tx_status tx = Wallet.success).
    intros sig. unfold Wallet.solanaSignature.
    apply returns_try_catch;
      [| intros e; skip_step; apply returns_ret; exact I].
    do 2 skip_step.
    match goal with |- returns (match ?x with _ => _ end) _ => destruct x end;
      [| apply returns_ret; exact I].
    skip_step. apply returns_ret.
    unfold Wallet.solanaTransaction.
    cbn [Wallet.tx_type Wallet.tx_status]. split; [| reflexivity].
    destruct (std_accountKeys s) as [[| acc keys] |]; try reflexivity;
      (destruct address; [contradiction | reflexivity]). }
  intros transactions Htx. apply returns_ret. exact Htx.
Qed.

(** X11: when the explorer answers with a message in place of the list
    of transactions, the services module still returns a snapshot, without
    transactions, while the Ethereum adapter of the wallet directory
    fails as a whole. *)
Theorem explorer_refusal (address : string) (explorer : EtherscanBody)
    (balance : option string)
    (tokenBalances : option (list AlchemyTokenBalance))
    (metadata_of : string -> AlchemyTokenMetadata) :
  up env (EtherscanTxList address) (Some explorer) ->
  es_result explorer = None ->
  up env (EthGetBalance address) balance ->
  up env (AlchemyGetTokenBalances address) (Some tokenBalances) ->
  (forall token,
     In token (match tokenBalances with Some l => l | None => [] end) ->
     up env (AlchemyGetTokenMetadata (atb_contractAddress token))
        (Some (metadata_of (atb_contractAddress token)))) ->
  succeeds (WalletService.getEthereumWalletData env address)
    (fun data => WalletService.wd_transactions data = []) /\
  (forall w,
     fst (Wallet.getEthereumWalletData env toLocaleString address w) =
       Thrown (Error "Failed to fetch Ethereum wallet data")).
Proof.
  intros Hup Hres Hbalance Htokens Hmetadata. split.
  - assert (Hret : returns (WalletService.getEthereumWalletData env address)
              (fun data => WalletService.wd_transactions data = [])).
    { unfold WalletService.getEthereumWalletData.
      apply returns_try_catch; [| intros e; apply returns_throw].
      do 4 skip_step.
      eapply returns_bind; [apply returns_axios_up; exact Hup |].
      intros txResponse <-. skip_step. apply returns_ret.
      cbn [WalletService.wd_transactions]. rewrite Hres. reflexivity. }
    intros w.
    destruct (ethereum_fetch_succeeds env address balance tokenBalances
                (Some explorer) metadata_of Hbalance Htokens Hup Hmetadata w)
      as (data & w' & Hw & _).
    specialize (Hret w). rewrite Hw in Hret. cbn [fst] in Hret.
    exists data, w'. split; assumption.
  - intros w.
    assert (Hbody : forall A (m : M A) h,
              returns m (fun _ => False) ->
              fst (try_catch m (fun _ : Exn => throw (Error h)) w) =
                Thrown (Error h)).
    { intros A m h Hm. specialize (Hm w). unfold try_catch.
      destruct (m w) as [[a | e] w1]; cbn [fst] in *;
        [contradiction | reflexivity]. }
    unfold Wallet.getEthereumWalletData. apply Hbody.
    do 4 skip_step.
    eapply returns_bind; [apply returns_axios_up; exact Hup |].
    intros txResponse <-. cbn [member].
    eapply returns_bind with (P := eq explorer);
      [apply returns_ret; reflexivity | intros data <-].
    rewrite Hres. cbn [member].
    eapply returns_bind with (P := fun _ => False);
      [apply returns_throw | intros ? []].
Qed.

End WalletDirectory.


Lemma wallet_solana_always_receive_witness :
  Judgement.returns
    (Wallet.getSolanaWalletData (Sample.upstream [] [] []) JSNumber.toString
       Sample.solana_address)
    (fun data =>
       Forall (fun tx => Wallet.tx_type tx = Wallet.receive /\
                         Wallet.tx_status tx = Wallet.success)
              (Wallet.wd_transactions data)).
Proof.
  apply (wallet_solana_always_receive (Sample.upstream [] [] [])
           JSNumber.toString Sample.solana_address).
  discriminate.
Defined.

Lemma explorer_refusal_witness :
  Judgement.succeeds
    (WalletService.getEthereumWalletData Extra.refusing Sample.ethereum_address)
    (fun data => WalletService.wd_transactions data = []) /\
  (forall w,
     fst (Wallet.getEthereumWalletData Extra.refusing JSNumber.toString
            Sample.ethereum_address w) =
       Runtime.Thrown (Runtime.Error "Failed to fetch Ethereum wallet data")).
Proof.
  apply (explorer_refusal Extra.refusing JSNumber.toString
           Sample.ethereum_address Extra.refusal (Some "0xde0b6b3a7640000")
           (Some [Sample.erc20 Sample.contract_a; Sample.erc20 Sample.contract_b;
                  Sample.erc20 Sample.contract_c])
           (fun _ => Sample.metadata)).
  - intros k. reflexivity.
  - reflexivity.
  - intros k. reflexivity.
  - intros k. reflexivity.
  - intros token _ k. reflexivity.
Defined.

(** ** The direction of a Solana transaction *)

Section Direction.

Import JSNumber Http WalletService Extra.
Local Open Scope Z_scope.

Lemma lt_undefined_inv (a b : option number) :
  lt_undefined a b = true ->
  exists x y, a = Some x /\ b = Some y /\ ltb x y = true.
Proof.
  destruct a as [x |], b as [y |]; cbn; try discriminate.
  intros H. exists x, y. auto.
Qed.

Lemma at_index_inv (balances : list number) (i : Z) (x : number) :
  at_index balances (Some i) = Some x ->
  0 <= i /\ nth_error balances (Z.to_nat i) = Some x.
Proof.
  cbn [at_index]. destruct (Z.ltb_spec i 0) as [Hneg | Hpos];
    [discriminate |].
  intros Hnth. split; [lia | exact Hnth].
Qed.

(** X12: how the services module labels a Solana transaction.  The type
    is one of [send], [receive] and [unknown]; it is [receive] only when
    the balance of the queried account rose, [send] only when that
    balance fell or the account paid the fee, and it is never [unknown]
    for a transaction whose fee the account paid. *)
Theorem solana_type_heuristic (address signature : string) (nowMs : Z)
    (txDetails : SolTxDetails) :
  let tx := solanaTransaction address signature nowMs txDetails in
  (tx_type tx = "send" \/ tx_type tx = "receive" \/ tx_type tx = "unknown") /\
  (tx_type tx = "receive" -> balance_rose address txDetails) /\
  (tx_type tx = "send" ->
   balance_fell address txDetails \/ tx_from tx = address) /\
  (tx_type tx = "unknown" -> tx_from tx <> address).
Proof.
  cbv zeta. unfold solanaTransaction. cbn [tx_type tx_from].
  match goal with
  | |- context [String.eqb ?payer address] =>
      match payer with
      | context [find] => set (feePayer := payer)
      end
  end.
  match goal with
  | |- context [String.eqb ?t "unknown"] => set (type0 := t)
  end.
  assert (Htype0 :
    (type0 = "send" /\ balance_fell address txDetails) \/
    (type0 = "receive" /\ balance_rose address txDetails) \/
    type0 = "unknown").
  { subst type0. clear feePayer.
    destruct txDetails as [blockTime meta keys]. cbn [std_accountKeys std_meta].
    destruct keys as [l |].
    - destruct (Z.eq_dec (findIndex address l 0) (-1)) as [E | E].
      + rewrite E. right. right. reflexivity.
      + destruct meta as [[fee err [pre |] [post |]] |];
          try (right; right;
               destruct (findIndex address l 0) as [| p | [p | p |]];
               reflexivity).
        remember (findIndex address l 0) as i eqn:Hi.
        match goal with
        | |- (?t = _ /\ _) \/ _ =>
            assert (Ht : t =
              if lt_undefined (at_index post (Some i)) (at_index pre (Some i))
              then "send"
              else if lt_undefined (at_index pre (Some i))
                                   (at_index post (Some i))
                   then "receive" else "unknown")
        end.
        { clear Hi. destruct i as [| p | [p | p |]]; reflexivity. }
        rewrite Ht. clear Ht.
        destruct (lt_undefined (at_index post (Some i)) (at_index pre (Some i)))
          eqn:Hfell.
        * left. split; [reflexivity |].
          apply lt_undefined_inv in Hfell.
          destruct Hfell as (after & before & Ha & Hb & Hlt).
          apply at_index_inv in Ha, Hb.
          exists before, after. split; [| exact Hlt].
          exists l, {| stm_fee := fee; stm_err := err;
                       stm_preBalances := Some pre;
                       stm_postBalances := Some post |}, pre, post.
          cbn [std_accountKeys std_meta stm_preBalances stm_postBalances].
          rewrite <- Hi. intuition.
        * destruct (lt_undefined (at_index pre (Some i)) (at_index post (Some i)))
            eqn:Hrose.
          -- right. left. split; [reflexivity |].
             apply lt_undefined_inv in Hrose.
             destruct Hrose as (before & after & Hb & Ha & Hlt).
             apply at_index_inv in Ha, Hb.
             exists before, after. split; [| exact Hlt].
             exists l, {| stm_fee := fee; stm_err := err;
                          stm_preBalances := Some pre;
                          stm_postBalances := Some post |}, pre, post.
             cbn [std_accountKeys std_meta stm_preBalances stm_postBalances].
             rewrite <- Hi. intuition.
          -- right. right. reflexivity.
    - right. right. destruct meta as [[fee err [pre |] [post |]] |]; reflexivity. }
  clearbody type0 feePayer.
  destruct Htype0 as [[-> Hfell] | [[-> Hrose] | ->]].
  - cbn. repeat split; auto; discriminate.
  - cbn. repeat split; auto; discriminate.
  - cbn [String.eqb Ascii.eqb Bool.eqb andb].
    change (String.eqb "unknown" "unknown") with true. cbn [andb].
    destruct (String.eqb_spec feePayer address) as [-> | Hne].
    + repeat split; auto; discriminate.
    + repeat split; auto; discriminate.
Qed.

End Direction.

(** ** Addresses and names as they go into requests *)

Section Text.

Import JSString JSNumber AddressFormat Extra.

Lemma hex_alphanumeric (c : ascii) :
  is_hex c = true -> is_alphanumeric c = true.
Proof.
  destruct c as [[] [] [] [] [] [] [] []]; vm_compute;
    intros H; (reflexivity || discriminate H).
Qed.

Lemma all_chars_impl (p q : ascii -> bool) (s : string) :
  (forall c, p c = true -> q c = true) ->
  all_chars p s = true -> all_chars q s = true.
Proof.
  intros Hpq. induction s as [| c s IH]; cbn; [reflexivity |].
  intros H. apply andb_prop in H. destruct H as [Hc Hs].
  rewrite (Hpq c Hc), (IH Hs). reflexivity.
Qed.

Lemma detected_format (address : string) (chain : Blockchain) :
  WalletService.detectBlockchain address = Some chain ->
  match chain with
  | ethereum => ethereum_format address
  | solana => solana_format address
  end.
Proof.
  unfold WalletService.detectBlockchain.
  destruct (test_anchored ETHEREUM_ADDRESS_RE address) eqn:Ee.
  - intros [= <-]. apply ethereum_regex_format. exact Ee.
  - destruct (test_anchored SOLANA_ADDRESS_RE address) eqn:Es;
      [| discriminate].
    intros [= <-]. apply solana_regex_format. exact Es.
Qed.

(** X13: an address that is recognized consists of ASCII letters and
    digits only, at least 32 and at most 44 of them: nothing in it can
    end a path segment or a query parameter of the URL, or the JSON
    string, it is written into. *)
Theorem recognized_address_plain (address : string) (chain : Blockchain) :
  WalletService.detectBlockchain address = Some chain ->
  all_chars is_alphanumeric address = true /\
  (32 <= String.length address <= 44)%nat.
Proof.
  intros Hd. apply detected_format in Hd. destruct chain.
  - destruct Hd as (body & -> & Hlen & Hall). split.
    + cbn. apply (all_chars_impl is_hex); [apply hex_alphanumeric | exact Hall].
    + cbn [String.append String.length]. lia.
  - destruct Hd as [Hlen Hall]. split; [| exact Hlen].
    apply (all_chars_impl is_base58); [| exact Hall].
    intros c Hc. unfold is_base58 in Hc. apply andb_prop in Hc. tauto.
Qed.

Lemma lower_char_idempotent (c : ascii) :
  lower_char (lower_char c) = lower_char c.
Proof. destruct c as [[] [] [] [] [] [] [] []]; vm_compute; reflexivity. Qed.

Lemma lower_char_hex (c : ascii) :
  is_hex c = true -> is_hex (lower_char c) = true.
Proof.
  destruct c as [[] [] [] [] [] [] [] []]; vm_compute;
    intros H; (reflexivity || discriminate H).
Qed.

Lemma toLowerCase_idempotent (s : string) :
  toLowerCase (toLowerCase s) = toLowerCase s.
Proof.
  induction s as [| c s IH]; cbn [toLowerCase]; [reflexivity |].
  rewrite lower_char_idempotent, IH. reflexivity.
Qed.

Lemma toLowerCase_length (s : string) :
  String.length (toLowerCase s) = String.length s.
Proof. induction s as [| c s IH]; cbn; congruence. Qed.

Lemma toLowerCase_hex (s : string) :
  all_chars is_hex s = true -> all_chars is_hex (toLowerCase s) = true.
Proof.
  induction s as [| c s IH]; cbn [toLowerCase all_chars]; [reflexivity |].
  intros H. apply andb_prop in H. destruct H as [Hc Hs].
  rewrite (lower_char_hex c Hc), (IH Hs). reflexivity.
Qed.

(** X14: the case of an Ethereum address does not matter.  The address
    written in small letters is an Ethereum address too, and both
    adapters build the same record of a transaction for it, so the
    checksummed and the plain form of an address see the same types. *)
Theorem ethereum_address_case (address : string)
    (toLocaleString : number -> string) :
  WalletService.detectBlockchain address = Some ethereum ->
  WalletService.detectBlockchain (toLowerCase address) = Some ethereum /\
  (forall tx,
     WalletService.ethereumTransaction (toLowerCase address) tx =
     WalletService.ethereumTransaction address tx) /\
  (forall tx,
     Wallet.ethereumTransaction toLocaleString (toLowerCase address) tx =
     Wallet.ethereumTransaction toLocaleString address tx).
Proof.
  intros Hd. apply detected_format in Hd.
  destruct Hd as (body & -> & Hlen & Hall). split; [| split].
  - unfold WalletService.detectBlockchain.
    assert (He : test_anchored ETHEREUM_ADDRESS_RE (toLowerCase ("0x" ++ body))
                 = true).
    { apply ethereum_regex_format. exists (toLowerCase body).
      split; [reflexivity |]. rewrite toLowerCase_length.
      split; [exact Hlen | apply toLowerCase_hex; exact Hall]. }
    rewrite He. reflexivity.
  - intros tx. unfold WalletService.ethereumTransaction.
    rewrite toLowerCase_idempotent. reflexivity.
  - intros tx. unfold Wallet.ethereumTransaction.
    rewrite toLowerCase_idempotent. reflexivity.
Qed.

Lemma lowered_slug (c : ascii) :
  is_space (lower_char c) = false -> slug_char (lower_char c) = true.
Proof.
  destruct c as [[] [] [] [] [] [] [] []]; vm_compute;
    intros H; (reflexivity || discriminate H).
Qed.

Lemma replace_spaces_slug (s : string) :
  forall in_run,
    all_chars slug_char (Wallet.replace_spaces in_run (toLowerCase s)) = true.
Proof.
  induction s as [| c s IH]; intros in_run;
    cbn [toLowerCase Wallet.replace_spaces]; [reflexivity |].
  destruct (is_space (lower_char c)) eqn:Hc.
  - destruct in_run; [apply IH |]. cbn [all_chars]. rewrite IH. reflexivity.
  - cbn [all_chars]. rewrite (lowered_slug c Hc), IH. reflexivity.
Qed.

Lemma slug_fixed (s : string) :
  all_chars slug_char s = true ->
  toLowerCase s = s /\ forall in_run, Wallet.replace_spaces in_run s = s.
Proof.
  induction s as [| c s IH]; cbn [all_chars toLowerCase Wallet.replace_spaces];
    [intros _; split; reflexivity |].
  intros H. apply andb_prop in H. destruct H as [Hc Hs].
  unfold slug_char in Hc. apply andb_prop in Hc. destruct Hc as [Hspace Hlow].
  apply Ascii.eqb_eq in Hlow. apply negb_true_iff in Hspace.
  destruct (IH Hs) as [IH1 IH2]. split.
  - rewrite Hlow, IH1. reflexivity.
  - intros in_run. rewrite Hspace, IH2. reflexivity.
Qed.

(** X15: the market data id the wallet directory derives from a token's
    name has neither white space nor a capital letter, and deriving it
    from an id gives the same id. *)
Theorem priceKey_normalises (name : string) :
  all_chars slug_char (Wallet.priceKey name) = true /\
  Wallet.priceKey (Wallet.priceKey name) = Wallet.priceKey name.
Proof.
  assert (H : all_chars slug_char (Wallet.priceKey name) = true)
    by apply replace_spaces_slug.
  split; [exact H |].
  destruct (slug_fixed _ H) as [Hlow Hrep].
  unfold Wallet.priceKey at 1. rewrite Hlow. apply Hrep.
Qed.

End Text.

Section Url.

Import WalletServiceUrl.

Lemma count_char_app (c : ascii) (s t : string) :
  count_char c (s ++ t) = (count_char c s + count_char c t)%nat.
Proof.
  induction s as [| d s IH]; cbn [String.append count_char]; [reflexivity |].
  rewrite IH. lia.
Qed.

Lemma includes_char_count (c : ascii) (s : string) :
  includes_char c s = negb (count_char c s =? 0)%nat.
Proof.
  induction s as [| d s IH]; cbn [includes_char count_char]; [reflexivity |].
  destruct (Ascii.eqb d c); cbn; [reflexivity | exact IH].
Qed.

(** X16: the market data key is appended as one more query parameter.
    With an empty key the URL is left as it is; otherwise the result is
    the URL followed by [?] or [&] and the parameter, and when the key
    holds no [?] the result has the question marks of the URL, or one
    where the URL had none: never a second start of the query. *)
Theorem api_key_parameter (key url : string) :
  (key = "" -> addCoinGeckoApiKeyToUrlHelper key url = url) /\
  (key <> "" ->
   exists separator,
     (separator = "?" \/ separator = "&") /\
     addCoinGeckoApiKeyToUrlHelper key url =
       url ++ separator ++ "x_cg_demo_api_key=" ++ key /\
     (count_char "?" key = 0%nat ->
      count_char "?" (addCoinGeckoApiKeyToUrlHelper key url) =
        Nat.max 1 (count_char "?" url))).
Proof.
  unfold addCoinGeckoApiKeyToUrlHelper. split.
  - intros ->. reflexivity.
  - intros Hkey. destruct key as [| k key]; [contradiction |].
    cbn [JSString.is_empty negb]. rewrite includes_char_count.
    destruct (Nat.eqb_spec (count_char "?" url) 0) as [Hz | Hnz]; cbn [negb].
    + exists "?". split; [left; reflexivity |]. split; [reflexivity |].
      intros Hk. rewrite count_char_app.
      rewrite (count_char_app "?" "?x_cg_demo_api_key=" (String k key)).
      rewrite Hk, Hz. reflexivity.
    + exists "&". split; [right; reflexivity |]. split; [reflexivity |].
      intros Hk. rewrite count_char_app.
      rewrite (count_char_app "?" "&x_cg_demo_api_key=" (String k key)).
      rewrite Hk. change (count_char "?" "&x_cg_demo_api_key=") with 0%nat.
      lia.
Qed.

End Url.

Lemma recognized_address_plain_witness :
  AddressFormat.all_chars AddressFormat.is_alphanumeric Sample.solana_address
    = true /\
  (32 <= String.length Sample.solana_address <= 44)%nat.
Proof.
  apply (recognized_address_plain Sample.solana_address solana).
  vm_compute. reflexivity.
Defined.

Lemma ethereum_address_case_witness :
  WalletService.detectBlockchain (JSString.toLowerCase Sample.ethereum_address)
    = Some ethereum /\
  (forall tx,
     WalletService.ethereumTransaction
       (JSString.toLowerCase Sample.ethereum_address) tx =
     WalletService.ethereumTransaction Sample.ethereum_address tx) /\
  (forall tx,
     Wallet.ethereumTransaction JSNumber.toString
       (JSString.toLowerCase Sample.ethereum_address) tx =
     Wallet.ethereumTransaction JSNumber.toString Sample.ethereum_address tx).
Proof.
  apply (ethereum_address_case Sample.ethereum_address JSNumber.toString).
  vm_compute. reflexivity.
Defined.

(** ** What a snapshot says, and what a missing result does *)

Section Snapshots.

Import JSNumber Http Runtime WalletService Judgement Absorbed Extra.
Local Open Scope list_scope.

Variable env : Env.

Ltac skip_step :=
  match goal with
  | |- returns (bind _ _) _ =>
      eapply returns_bind; [apply returns_any | intros ? _]
  end.

(** A [try] whose body never returns and whose handler throws [e]. *)
Lemma try_catch_rethrows {A} (m : M A) (e : Exn) (w : World) :
  returns m (fun _ => False) ->
  fst (try_catch m (fun _ => throw e) w) = Thrown e.
Proof.
  intros Hm. specialize (Hm w). unfold try_catch.
  destruct (m w) as [[a | e'] w1]; cbn [fst] in *;
    [contradiction | reflexivity].
Qed.

(** X17: when the node answers the balance request of an Ethereum
    address without a [result] member, the services module does not
    notice: the snapshot it returns has the balance ["NaN"] and a USD
    balance that is NaN. *)
Theorem ethereum_missing_balance (address : string)
    (tokenBalances : option (list AlchemyTokenBalance))
    (explorer : option EtherscanBody)
    (metadata_of : string -> AlchemyTokenMetadata) :
  up env (EthGetBalance address) None ->
  up env (AlchemyGetTokenBalances address) (Some tokenBalances) ->
  up env (EtherscanTxList address) explorer ->
  (forall token,
     In token (match tokenBalances with Some l => l | None => [] end) ->
     up env (AlchemyGetTokenMetadata (atb_contractAddress token))
        (Some (metadata_of (atb_contractAddress token)))) ->
  succeeds (getEthereumWalletData env address)
    (fun data => wd_balance data = "NaN" /\ wd_balanceUsd data = NaN).
Proof.
  intros Hbalance Htokens Hexplorer Hmetadata.
  assert (Hret : returns (getEthereumWalletData env address)
            (fun data => wd_balance data = "NaN" /\ wd_balanceUsd data = NaN)).
  { unfold getEthereumWalletData.
    apply returns_try_catch; [| intros e; apply returns_throw].
    eapply returns_bind; [apply returns_axios_up; exact Hbalance |].
    intros balanceResponse <-. do 5 skip_step. apply returns_ret.
    cbn [wd_balance wd_balanceUsd].
    change (div (parseInt "undefined" 16) lit_1e18) with NaN.
    split; reflexivity. }
  intros w.
  destruct (ethereum_fetch_succeeds env address None tokenBalances explorer
              metadata_of Hbalance Htokens Hexplorer Hmetadata w)
    as (data & w' & Hw & _).
  specialize (Hret w). rewrite Hw in Hret. cbn [fst] in Hret.
  exists data, w'. split; assumption.
Qed.

(** X18: when the node answers the balance request of a Solana address
    without a [result] member, both Solana adapters fail as a whole with
    'Failed to fetch Solana wallet data'. *)
Theorem solana_missing_balance (key address : string)
    (toLocaleString : number -> string) (w : World) :
  key <> "" ->
  up env (HeliusGetBalance address) None ->
  fst (getSolanaWalletData env key address w) =
    Thrown (Error "Failed to fetch Solana wallet data") /\
  fst (Wallet.getSolanaWalletData env toLocaleString address w) =
    Thrown (Error "Failed to fetch Solana wallet data").
Proof.
  intros Hkey Hbalance. split.
  - unfold getSolanaWalletData. apply try_catch_rethrows.
    destruct key as [| c key]; [contradiction |]. cbn [JSString.is_empty].
    eapply returns_bind with (P := eq None).
    { apply succeeds_returns.
      exact (succeeds_rateLimitedRequest env (HeliusGetBalance address) None
               Hbalance). }
    intros balanceResponse <-. cbn [member].
    eapply returns_bind with (P := fun _ => False);
      [apply returns_throw | intros ? []].
  - unfold Wallet.getSolanaWalletData. apply try_catch_rethrows.
    eapply returns_bind; [apply returns_axios_up; exact Hbalance |].
    intros balanceResponse <-. cbn [member].
    eapply returns_bind with (P := fun _ => False);
      [apply returns_throw | intros ? []].
Qed.

(** X19: a snapshot is about the address that was asked for, on the
    chain that was detected for it, in the services module and in the
    wallet directory. *)
Theorem snapshot_identity (key address : string)
    (toLocaleString : number -> string) :
  returns (getWalletData env key address)
    (fun data =>
       wd_address data = address /\
       detectBlockchain address = Some (wd_blockchain data)) /\
  returns (Wallet.getWalletData env toLocaleString address)
    (fun answer =>
       match answer with
       | inl data =>
           Wallet.wd_address data = address /\
           WalletUtils.detectBlockchain address =
             WalletUtils.known (Wallet.wd_blockchain data)
       | inr _ => True
       end).
Proof.
  split.
  - unfold getWalletData.
    destruct (detectBlockchain address) as [[] |]; [| | apply returns_throw].
    + unfold getEthereumWalletData.
      apply returns_try_catch; [| intros e; apply returns_throw].
      repeat skip_step. apply returns_ret. split; reflexivity.
    + unfold getSolanaWalletData.
      apply returns_try_catch; [| intros e; apply returns_throw].
      destruct (JSString.is_empty key);
        [apply returns_ret; split; reflexivity |].
      repeat skip_step. apply returns_ret. split; reflexivity.
  - unfold Wallet.getWalletData.
    apply returns_try_catch; [| intros e; apply returns_ret; exact I].
    destruct (WalletUtils.detectBlockchain address) as [[] |];
      [| | apply returns_ret; exact I].
    + eapply returns_bind with
        (P := fun data => Wallet.wd_address data = address /\
                          Wallet.wd_blockchain data = ethereum).
      * unfold Wallet.getEthereumWalletData.
        apply returns_try_catch; [| intros e; apply returns_throw].
        repeat skip_step. apply returns_ret. split; reflexivity.
      * intros data [Ha Hb]. apply returns_ret. rewrite Hb. auto.
    + eapply returns_bind with
        (P := fun data => Wallet.wd_address data = address /\
                          Wallet.wd_blockchain data = solana).
      * unfold Wallet.getSolanaWalletData.
        apply returns_try_catch; [| intros e; apply returns_throw].
        repeat skip_step. apply returns_ret. split; reflexivity.
      * intros data [Ha Hb]. apply returns_ret. rewrite Hb. auto.
Qed.




End Snapshots.

Lemma ethereum_missing_balance_witness :
  Judgement.succeeds
    (WalletService.getEthereumWalletData Extra.resultless
       Sample.ethereum_address)
    (fun data =>
       WalletService.wd_balance data = "NaN" /\
       WalletService.wd_balanceUsd data = JSNumber.NaN).
Proof.
  apply (ethereum_missing_balance Extra.resultless Sample.ethereum_address
           (Some [Sample.erc20 Sample.contract_a; Sample.erc20 Sample.contract_b;
                  Sample.erc20 Sample.contract_c])
           (Some {| Http.es_status := "1"; Http.es_message := Some "OK";
                    Http.es_result := Some [Sample.third_party_transfer] |})
           (fun _ => Sample.metadata)).
  - intros k. reflexivity.
  - intros k. reflexivity.
  - intros k. reflexivity.
  - intros token _ k. reflexivity.
Defined.

Lemma solana_missing_balance_witness :
  fst (WalletService.getSolanaWalletData Extra.resultless "key"
         Sample.solana_address (Sample.fresh 1000000)) =
    Runtime.Thrown (Runtime.Error "Failed to fetch Solana wallet data") /\
  fst (Wallet.getSolanaWalletData Extra.resultless JSNumber.toString
         Sample.solana_address (Sample.fresh 1000000)) =
    Runtime.Thrown (Runtime.Error "Failed to fetch Solana wallet data").
Proof.
  apply (solana_missing_balance Extra.resultless "key" Sample.solana_address
           JSNumber.toString (Sample.fresh 1000000)).
  - discriminate.
  - intros k. reflexivity.
Defined.
